(** * cli-conway: Conway's Game of Life on a bounded grid

    A shallow embedding of the grids of the repository and the
    properties its specification states about them.

    - [Basic]    : src/grid.go, rows of bytes, [SetCell] takes a bool,
                   rendered by [Display].
    - [Bitmask]  : the bit-packed grid, one [uint64] per 64 cells.
    - [Bytes2D]  : the uncached grid of byte rows with [BoldlyGo].
    - [Cached]   : the grid of byte rows with the string-keyed
                   neighbour cache, whose [BoldlyGo] carries cache
                   entries into the next generation.
    - [Buffered] : the double-buffered grid with integer cache keys,
                   stepped in place.
    - [Main]     : the command [run] of main.go.

    [Randomize] reads the clock once per cell: the readings are a
    function of the cell.

    Conventions.  Go's [int] is a 64-bit two's complement integer: it is
    a [Z] and every arithmetic operation wraps ([GoInt.wrap]).  A byte is
    a [Z] in [0,256), a [uint64] a [Z] in [0,2^64).  A run-time panic
    (index out of range, [make] with a negative length) is [None]; a call
    that returns normally is [Some].  A method that writes to its
    receiver returns the receiver's new state; one that only reads takes
    the receiver as a value.  Standard output is the text printed.

    Memory.  The run time also refuses a [make] whose size in bytes is
    beyond what the platform can allocate, and a program can run out of
    memory; [Slice.make] has neither limit.  A statement about a grid of
    dimensions that were not allocated before therefore takes the return
    of [NewGrid] as a hypothesis; a grid that exists can be allocated
    again. *)

From stdpp Require Import base option numbers list list_numbers strings pretty gmap.
From Stdlib Require Import ZArith Lia Ascii.

Local Open Scope Z_scope.

(** ** Go integers *)

Module GoInt.

Definition wrap (z : Z) : Z := (z + 2 ^ 63) `mod` 2 ^ 64 - 2 ^ 63.

Definition add (a b : Z) : Z := wrap (a + b).
Definition mul (a b : Z) : Z := wrap (a * b).
(** [/] and [%] truncate towards zero. *)
Definition div (a b : Z) : Z := wrap (a `quot` b).
Definition rem (a b : Z) : Z := a `rem` b.
(** The conversion [uint(i)]. *)
Definition uint (a : Z) : Z := a `mod` 2 ^ 64.
(** [1 << s] at type [uint64]. *)
Definition shl1 (s : Z) : Z := Z.shiftl 1 s `mod` 2 ^ 64.

Definition is_int (z : Z) : Prop := - 2 ^ 63 <= z < 2 ^ 63.
Definition is_uint64 (z : Z) : Prop := 0 <= z < 2 ^ 64.
Definition is_byte (z : Z) : Prop := 0 <= z < 256.

End GoInt.

(** ** Slices and loops *)

Module Slice.

(** [make([]T, n)]: panics on a negative length.  The limit the run time
    puts on the size of an allocation is not part of the model: that
    [make] returns for dimensions never allocated before is a hypothesis
    wherever it matters. *)
Definition make {A} (n : Z) (zero : A) : option (list A) :=
  if decide (0 <= n) then Some (replicate (Z.to_nat n) zero) else None.

(** [s[i]] as a value: panics out of range. *)
Definition index {A} (s : list A) (i : Z) : option A :=
  if decide (0 <= i) then s !! Z.to_nat i else None.

(** [s[i] = v]: panics out of range. *)
Definition assign {A} (s : list A) (i : Z) (v : A) : option (list A) :=
  if decide (0 <= i < Z.of_nat (length s)) then Some (<[Z.to_nat i := v]> s)
  else None.

Definition len {A} (s : list A) : Z := Z.of_nat (length s).

End Slice.

Module Loop.

(** [k] iterations of [body], the counter starting at [i]. *)
Fixpoint iter {S} (k : nat) (i : Z) (body : Z -> S -> option S) (s : S)
  : option S :=
  match k with
  | O => Some s
  | Datatypes.S k' => s' ← body i s; iter k' (i + 1) body s'
  end.

(** [for i := lo; i < hi; i++ { body }] *)
Definition for_up {S} (lo hi : Z) (body : Z -> S -> option S) (s : S)
  : option S :=
  iter (Z.to_nat (hi - lo)) lo body s.

(** [for dy := -1; dy <= 1; dy++ { for dx := -1; dx <= 1; dx++ { body } }] *)
Definition around {S} (body : Z -> Z -> S -> option S) (s : S) : option S :=
  for_up (-1) 2 (fun dy => for_up (-1) 2 (fun dx => body dx dy)) s.

End Loop.

(** ** The bit-packed grid *)

Module Bitmask.
Import GoInt.

Record Grid := mkGrid { width : Z; height : Z; cells : list Z }.

Definition NewGrid (width height : Z) : option Grid :=
  let totalCells := mul width height in
  let numUint64s := div (add totalCells 63) 64 in
  cells ← Slice.make numUint64s 0;
  Some (mkGrid width height cells).

Definition getBitIndex (grid : Grid) (x y : Z) : Z * Z :=
  let linearIndex := add (mul y (width grid)) x in
  (div linearIndex 64, uint (rem linearIndex 64)).

Definition inside (grid : Grid) (x y : Z) : bool :=
  (0 <=? x) && (x <? width grid) && (0 <=? y) && (y <? height grid).

Definition SetCell (grid : Grid) (x y value : Z) : option Grid :=
  if inside grid x y then
    let '(uint64Index, bitPos) := getBitIndex grid x y in
    w ← Slice.index (cells grid) uint64Index;
    let w' := if value =? 1 then Z.lor w (shl1 bitPos)
              else Z.ldiff w (shl1 bitPos) in
    cells' ← Slice.assign (cells grid) uint64Index w';
    Some (mkGrid (width grid) (height grid) cells')
  else Some grid.

Definition GetCell (grid : Grid) (x y : Z) : option Z :=
  if inside grid x y then
    let '(uint64Index, bitPos) := getBitIndex grid x y in
    w ← Slice.index (cells grid) uint64Index;
    if negb (Z.land w (shl1 bitPos) =? 0) then Some 1 else Some 0
  else Some 0.

Definition scanForLifeforms (grid : Grid) (x y : Z) : option Z :=
  Loop.around (fun dx dy lifeformCount =>
    if (dx =? 0) && (dy =? 0) then Some lifeformCount
    else
      let newX := add x dx in
      let newY := add y dy in
      if inside grid newX newY then
        c ← GetCell grid newX newY; Some (add lifeformCount c)
      else Some lifeformCount) 0.

Definition BoldlyGo (grid : Grid) : option Grid :=
  nextGen ← NewGrid (width grid) (height grid);
  Loop.for_up 0 (height grid) (fun y =>
    Loop.for_up 0 (width grid) (fun x nextGen =>
      lifeformCount ← scanForLifeforms grid x y;
      currentCell ← GetCell grid x y;
      if currentCell =? 1 then
        if (lifeformCount <? 2) || (lifeformCount >? 3)
        then SetCell nextGen x y 0
        else SetCell nextGen x y 1
      else
        if lifeformCount =? 3
        then SetCell nextGen x y 1
        else SetCell nextGen x y 0)) nextGen.

End Bitmask.

(** ** Rendering

    The four renderers of the repository print the same frame; they
    differ in the escape sequence printed first and in how a cell is
    read.  Standard output is the string printed so far. *)

Module Render.
Import GoInt.

Definition ESC : ascii := "027"%char.
Definition NL : string := String "010"%char "".
(** [\033[H]: cursor to the top-left corner. *)
Definition home : string := String ESC "[H".
(** [\033[2J]: erase the whole screen. *)
Definition clear : string := String ESC "[2J".

(** [for i := 0; i < width*2+1; i++ { fmt.Print("─") }] *)
Definition dashes (width : Z) (out : string) : option string :=
  Loop.for_up 0 (add (mul width 2) 1) (fun _ out => Some (out +:+ "─")) out.

Definition frame (first : string) (width height : Z)
    (cell : Z -> Z -> option Z) : option string :=
  let out := first in
  (* top border *)
  let out := out +:+ "┌" in
  out ← dashes width out;
  let out := out +:+ "┐" +:+ NL in
  (* grid content *)
  out ← Loop.for_up 0 height (fun y out =>
    let out := out +:+ "│ " in
    out ← Loop.for_up 0 width (fun x out =>
      c ← cell x y;
      let out := if c =? 1 then out +:+ "█" else out +:+ " " in
      Some (out +:+ " ")) out;
    Some (out +:+ "│" +:+ NL)) out;
  (* bottom border *)
  let out := out +:+ "└" in
  out ← dashes width out;
  Some (out +:+ "┘" +:+ NL).

End Render.

(** ** Rows of bytes: what the three byte grids share *)

Module Rows.

(** [make([][]byte, height)] and one [make([]byte, width)] per row. *)
Definition alloc (width height : Z) : option (list (list Z)) :=
  cells ← Slice.make height [];
  Loop.for_up 0 (Slice.len cells) (fun i cells =>
    row ← Slice.make width 0;
    Slice.assign cells i row) cells.

(** [cells[y][x]] *)
Definition read (cells : list (list Z)) (x y : Z) : option Z :=
  row ← Slice.index cells y; Slice.index row x.

(** [cells[y][x] = v] *)
Definition write (cells : list (list Z)) (x y v : Z)
  : option (list (list Z)) :=
  row ← Slice.index cells y;
  row' ← Slice.assign row x v;
  Slice.assign cells y row'.

Definition inside (width height x y : Z) : bool :=
  (0 <=? x) && (x <? width) && (0 <=? y) && (y <? height).

End Rows.

(** ** src/grid.go *)

Module Basic.

Record Grid := mkGrid { width : Z; height : Z; cells : list (list Z) }.

Definition NewGrid (width height : Z) : option Grid :=
  cells ← Rows.alloc width height;
  Some (mkGrid width height cells).

Definition SetCell (g : Grid) (x y : Z) (alive : bool) : option Grid :=
  if Rows.inside (width g) (height g) x y then
    cells' ← (if alive then Rows.write (cells g) x y 1
              else Rows.write (cells g) x y 0);
    Some (mkGrid (width g) (height g) cells')
  else Some g.

Definition GetCell (g : Grid) (x y : Z) : option Z :=
  if Rows.inside (width g) (height g) x y then Rows.read (cells g) x y
  else Some 0.

Definition Display (g : Grid) : option string :=
  Render.frame (Render.home +:+ Render.clear) (width g) (height g)
    (Rows.read (cells g)).

End Basic.

(** The renderer of the bit-packed grid reads through [GetCell]. *)

Module BitmaskRender.

Definition MakeItSo (grid : Bitmask.Grid) : option string :=
  Render.frame Render.home (Bitmask.width grid) (Bitmask.height grid)
    (Bitmask.GetCell grid).

End BitmaskRender.

(** ** The uncached grid of byte rows *)

Module Bytes2D.
Import GoInt.

Record Grid := mkGrid { width : Z; height : Z; cells : list (list Z) }.

Definition NewGrid (width height : Z) : option Grid :=
  cells ← Rows.alloc width height;
  Some (mkGrid width height cells).

Definition inside (grid : Grid) (x y : Z) : bool :=
  Rows.inside (width grid) (height grid) x y.

Definition SetCell (grid : Grid) (x y value : Z) : option Grid :=
  if inside grid x y then
    cells' ← Rows.write (cells grid) x y value;
    Some (mkGrid (width grid) (height grid) cells')
  else Some grid.

Definition GetCell (grid : Grid) (x y : Z) : option Z :=
  if inside grid x y then Rows.read (cells grid) x y else Some 0.

Definition MakeItSo (grid : Grid) : option string :=
  Render.frame Render.home (width grid) (height grid)
    (Rows.read (cells grid)).

Definition scanForLifeforms (grid : Grid) (x y : Z) : option Z :=
  Loop.around (fun dx dy lifeformCount =>
    if (dx =? 0) && (dy =? 0) then Some lifeformCount
    else
      let newX := add x dx in
      let newY := add y dy in
      if inside grid newX newY then
        c ← Rows.read (cells grid) newX newY; Some (add lifeformCount c)
      else Some lifeformCount) 0.

(** [for y := range grid.cells { for x := range grid.cells[y] { ... } }] *)
Definition BoldlyGo (grid : Grid) : option Grid :=
  nextGen ← NewGrid (width grid) (height grid);
  Loop.for_up 0 (Slice.len (cells grid)) (fun y nextGen =>
    row ← Slice.index (cells grid) y;
    Loop.for_up 0 (Slice.len row) (fun x nextGen =>
      lifeformCount ← scanForLifeforms grid x y;
      cur ← Rows.read (cells grid) x y;
      if cur =? 1 then
        if (lifeformCount <? 2) || (lifeformCount >? 3)
        then SetCell nextGen x y 0
        else SetCell nextGen x y 1
      else
        if lifeformCount =? 3
        then SetCell nextGen x y 1
        else SetCell nextGen x y 0) nextGen) nextGen.

End Bytes2D.

(** ** The grid with the string-keyed neighbour cache *)

Module Cached.
Import GoInt.

Record Grid := mkGrid {
  width : Z;
  height : Z;
  cells : list (list Z);
  neighborCache : gmap string Z;
  cacheValid : gmap string bool
}.

Definition NewGrid (width height : Z) : option Grid :=
  cells ← Rows.alloc width height;
  Some (mkGrid width height cells ∅ ∅).

Definition inside (grid : Grid) (x y : Z) : bool :=
  Rows.inside (width grid) (height grid) x y.

(** [fmt.Sprintf("%d,%d", x, y)] *)
Definition getCacheKey (x y : Z) : string :=
  pretty x +:+ "," +:+ pretty y.

Definition invalidateNeighborCache (grid : Grid) (x y : Z) : option Grid :=
  Loop.around (fun dx dy grid =>
    let newX := add x dx in
    let newY := add y dy in
    if inside grid newX newY then
      let key := getCacheKey newX newY in
      Some (mkGrid (width grid) (height grid) (cells grid)
              (neighborCache grid) (<[key := false]> (cacheValid grid)))
    else Some grid) grid.

Definition SetCell (grid : Grid) (x y value : Z) : option Grid :=
  if inside grid x y then
    oldValue ← Rows.read (cells grid) x y;
    cells' ← Rows.write (cells grid) x y value;
    let grid := mkGrid (width grid) (height grid) cells'
                  (neighborCache grid) (cacheValid grid) in
    if negb (oldValue =? value) then invalidateNeighborCache grid x y
    else Some grid
  else Some grid.

Definition GetCell (grid : Grid) (x y : Z) : option Z :=
  if inside grid x y then Rows.read (cells grid) x y else Some 0.

Definition MakeItSo (grid : Grid) : option string :=
  Render.frame Render.home (width grid) (height grid)
    (Rows.read (cells grid)).

(** The receiver's caches are written: the grid after the call is
    returned with the count. *)
Definition scanForLifeforms (grid : Grid) (x y : Z) : option (Grid * Z) :=
  let key := getCacheKey x y in
  if decide (cacheValid grid !! key = Some true) then
    Some (grid, default 0 (neighborCache grid !! key))
  else
    lifeformCount ← Loop.around (fun dx dy lifeformCount =>
      if (dx =? 0) && (dy =? 0) then Some lifeformCount
      else
        let newX := add x dx in
        let newY := add y dy in
        if inside grid newX newY then
          c ← Rows.read (cells grid) newX newY; Some (add lifeformCount c)
        else Some lifeformCount) 0;
    Some (mkGrid (width grid) (height grid) (cells grid)
            (<[key := lifeformCount]> (neighborCache grid))
            (<[key := true]> (cacheValid grid)),
          lifeformCount).

(** [newState := currentState], overwritten where a rule applies. *)
Definition nextState (currentState lifeformCount : Z) : Z :=
  if currentState =? 1 then
    (* Kill it if it's lonely or overcrowded *)
    if (lifeformCount <? 2) || (lifeformCount >? 3) then 0
    else currentState
  else
    (* Reproduce if there are exactly three lifeforms *)
    if lifeformCount =? 3 then 1 else currentState.

(** The state of the rule pass: the source grid (its caches fill up),
    the grid under construction ([nextGen]), and [changedCells]. *)
Record Pass := mkPass {
  source : Grid;
  target : Grid;
  changed : gmap string bool
}.

Definition rulePass (p : Pass) : option Pass :=
  Loop.for_up 0 (Slice.len (cells (source p))) (fun y p =>
    row ← Slice.index (cells (source p)) y;
    Loop.for_up 0 (Slice.len row) (fun x p =>
      '(grid, lifeformCount) ← scanForLifeforms (source p) x y;
      currentState ← Rows.read (cells grid) x y;
      let newState := nextState currentState lifeformCount in
      cells' ← Rows.write (cells (target p)) x y newState;
      let nextGen := mkGrid (width (target p)) (height (target p)) cells'
                       (neighborCache (target p)) (cacheValid (target p)) in
      let changedCells :=
        if negb (currentState =? newState)
        then <[getCacheKey x y := true]> (changed p)
        else changed p in
      Some (mkPass grid nextGen changedCells)) p) p.

(** The two inner loops of the second pass; each [break] leaves at the
    first changed neighbour, as [existsb] does. *)
Definition hasChangedNeighbor (changedCells : gmap string bool) (x y : Z)
  : bool :=
  existsb (fun dy =>
    existsb (fun dx =>
      if (dx =? 0) && (dy =? 0) then false
      else default false (changedCells !! getCacheKey (add x dx) (add y dy)))
      [-1; 0; 1])
    [-1; 0; 1].

Definition carryPass (grid : Grid) (changedCells : gmap string bool)
    (nextGen : Grid) : option Grid :=
  Loop.for_up 0 (height grid) (fun y =>
    Loop.for_up 0 (width grid) (fun x nextGen =>
      let key := getCacheKey x y in
      if negb (hasChangedNeighbor changedCells x y)
         && default false (cacheValid grid !! key) then
        Some (mkGrid (width nextGen) (height nextGen) (cells nextGen)
                (<[key := default 0 (neighborCache grid !! key)]>
                   (neighborCache nextGen))
                (<[key := true]> (cacheValid nextGen)))
      else Some nextGen)) nextGen.

(** Returns the receiver after the call and the next generation. *)
Definition BoldlyGo (grid : Grid) : option (Grid * Grid) :=
  nextGen ← NewGrid (width grid) (height grid);
  let nextGen := mkGrid (width nextGen) (height nextGen) (cells nextGen) ∅ ∅ in
  p ← rulePass (mkPass grid nextGen ∅);
  nextGen ← carryPass (source p) (changed p) (target p);
  Some (source p, nextGen).

End Cached.

(** ** The rules as the specification words them *)

Module Life.

(** The eight Moore neighbours of [(x, y)], in the order both scans
    visit them. *)
Definition moore (x y : Z) : list (Z * Z) :=
  [ (x - 1, y - 1); (x, y - 1); (x + 1, y - 1);
    (x - 1, y);                 (x + 1, y);
    (x - 1, y + 1); (x, y + 1); (x + 1, y + 1) ].

(** What a neighbour scan adds for the cell at [(x, y)]: nothing outside
    of the grid. *)
Definition clipped (width height : Z) (cell : Z -> Z -> Z) (p : Z * Z) : Z :=
  if Rows.inside width height p.1 p.2 then cell p.1 p.2 else 0.

(** The sum a fresh scan computes. *)
Definition neighbor_sum (width height : Z) (cell : Z -> Z -> Z) (x y : Z)
  : Z :=
  foldl (fun acc p => acc + clipped width height cell p) 0 (moore x y).

(** The number of alive cells among the in-bounds Moore neighbours. *)
Definition live_neighbors (width height : Z) (cell : Z -> Z -> Z) (x y : Z)
  : Z :=
  Z.of_nat (length (List.filter
    (fun p => Rows.inside width height p.1 p.2 && (cell p.1 p.2 =? 1))
    (moore x y))).

(** The four rules, in the order of the specification. *)
Definition next_state (current liveNeighbors : Z) : Z :=
  if current =? 1 then
    if (liveNeighbors <? 2) || (liveNeighbors >? 3) then 0 else 1
  else
    if liveNeighbors =? 3 then 1 else 0.

(** A horizontal and a vertical blinker centred at [(cx, cy)]. *)
Definition horizontal (cx cy x y : Z) : Z :=
  if (y =? cy) && (cx - 1 <=? x) && (x <=? cx + 1) then 1 else 0.
Definition vertical (cx cy x y : Z) : Z :=
  if (x =? cx) && (cy - 1 <=? y) && (y <=? cy + 1) then 1 else 0.

End Life.

(** ** Shapes and cell values

    What [NewGrid] establishes and every method keeps. *)

Module BitmaskShape.
Import Bitmask.

(** What [NewGrid] establishes for dimensions whose cell count (and the
    rounding up to whole words) fits an [int]. *)
Definition wf (g : Grid) : Prop :=
  0 <= width g /\ 0 <= height g /\
  width g * height g + 63 < 2 ^ 63 /\
  Slice.len (cells g) = (width g * height g + 63) / 64.

Definition linear (g : Grid) (x y : Z) : Z := y * width g + x.

(** The cell as a value: the bit of the word that holds it. *)
Definition bit (g : Grid) (x y : Z) : Z :=
  if inside g x y then
    Z.b2z (Z.testbit (cells g !!! Z.to_nat (linear g x y / 64))
                     (linear g x y `mod` 64))
  else 0.

End BitmaskShape.

Module RowsShape.
Import GoInt.

(** [height] rows of [width] bytes each. *)
Definition wf (width height : Z) (cells : list (list Z)) : Prop :=
  Slice.len cells = height /\
  Forall (fun row => Slice.len row = width /\ Forall is_byte row) cells.

(** The cell as [GetCell] reports it. *)
Definition value (width height : Z) (cells : list (list Z)) (x y : Z) : Z :=
  if Rows.inside width height x y then default 0 (Rows.read cells x y) else 0.

End RowsShape.

Module Bytes2DShape.
Import GoInt Bytes2D.

Definition wf (g : Grid) : Prop :=
  is_int (width g) /\ is_int (height g) /\
  RowsShape.wf (width g) (height g) (cells g).

Definition value (g : Grid) (x y : Z) : Z :=
  RowsShape.value (width g) (height g) (cells g) x y.

End Bytes2DShape.

(** ** Observing grids *)

Module Observe.

(** The cell of the bit-packed grid as [GetCell] reports it. *)
Definition bitmask (g : Bitmask.Grid) (x y : Z) : Z :=
  default 0 (Bitmask.GetCell g x y).

(** The cell of the byte grid as [GetCell] reports it. *)
Definition bytes (g : Bytes2D.Grid) (x y : Z) : Z :=
  default 0 (Bytes2D.GetCell g x y).

(** Every stored byte is 0 or 1. *)
Definition binary (cells : list (list Z)) : Prop :=
  Forall (Forall (fun v => v = 0 \/ v = 1)) cells.

(** The rule of the specification as a decision. *)
Definition alive_next (current liveNeighbors : Z) : Prop :=
  (current = 1 /\ (liveNeighbors = 2 \/ liveNeighbors = 3)) \/
  (current = 0 /\ liveNeighbors = 3).

Global Instance alive_next_dec c n : Decision (alive_next c n).
Proof. unfold alive_next. apply _. Defined.

(** A sequence of [SetCell(x, y, v)] calls. *)
Fixpoint setCells {G} (set : G -> Z -> Z -> Z -> option G)
    (calls : list (Z * Z * Z)) (g : G) : option G :=
  match calls with
  | [] => Some g
  | (x, y, v) :: calls => g' ← set g x y v; setCells set calls g'
  end.

End Observe.

(** ** Sample grids: a horizontal blinker on a five by five board *)

Module Examples.

(** Bits 11, 12 and 13: the cells (1,2), (2,2) and (3,2). *)
Definition blinker_bits : Bitmask.Grid := Bitmask.mkGrid 5 5 [14336].

Definition blinker_rows : list (list Z) :=
  [[0;0;0;0;0]; [0;0;0;0;0]; [0;1;1;1;0]; [0;0;0;0;0]; [0;0;0;0;0]].

Definition blinker_bytes : Bytes2D.Grid := Bytes2D.mkGrid 5 5 blinker_rows.

End Examples.

(** The bit-packed grid [gm] and the byte grid [gb] show the same cells. *)
Definition same_cells (gm : Bitmask.Grid) (gb : Bytes2D.Grid) : Prop :=
  BitmaskShape.wf gm /\ Bytes2DShape.wf gb /\
  Bitmask.width gm = Bytes2D.width gb /\
  Bitmask.height gm = Bytes2D.height gb /\
  forall x y, BitmaskShape.bit gm x y = Bytes2DShape.value gb x y.

(** ** What a frame looks like *)

Module Screen.

(** [c] occurs in [s]. *)
Fixpoint mentions (c : ascii) (s : string) : bool :=
  match s with
  | EmptyString => false
  | String a s => bool_decide (a = c) || mentions c s
  end.

(** [t] occurs in [s] as a substring. *)
Definition contains (t s : string) : Prop :=
  exists before after, s = before +:+ t +:+ after.

(** [s] starts with [t]. *)
Definition begins_with (t s : string) : Prop := exists rest, s = t +:+ rest.

(** [n] copies of [s]. *)
Fixpoint times (n : nat) (s : string) : string :=
  match n with
  | O => EmptyString
  | S n => s +:+ times n s
  end.

(** The border lines around no cell at all: [first], the top border, one
    line of the two side borders per row, the bottom border. *)
Definition empty_box (first : string) (width height : Z) : string :=
  let bar := times (Z.to_nat (GoInt.add (GoInt.mul width 2) 1)) "─" in
  first +:+ "┌" +:+ bar +:+ "┐" +:+ Render.NL
  +:+ times (Z.to_nat height) ("│ " +:+ "│" +:+ Render.NL)
  +:+ "└" +:+ bar +:+ "┘" +:+ Render.NL.

End Screen.

Module CachedShape.
Import GoInt Cached.

Definition wf (g : Grid) : Prop :=
  is_int (width g) /\ is_int (height g) /\
  RowsShape.wf (width g) (height g) (cells g).

Definition value (g : Grid) (x y : Z) : Z :=
  RowsShape.value (width g) (height g) (cells g) x y.

(** The grid without its caches, as the uncached implementation has it. *)
Definition uncached (g : Grid) : Bytes2D.Grid :=
  Bytes2D.mkGrid (width g) (height g) (cells g).

(** What a scan of the current cells adds up to. *)
Definition fresh (g : Grid) (x y : Z) : Z :=
  Life.neighbor_sum (width g) (height g) (value g) x y.

(** Every entry marked valid belongs to a cell of the grid and holds the
    sum over the current cells. *)
Definition cache_ok (g : Grid) : Prop :=
  forall x y, cacheValid g !! getCacheKey x y = Some true ->
    inside g x y = true /\
    default 0 (neighborCache g !! getCacheKey x y) = fresh g x y.

(** The grids a program can hold: made by [NewGrid], written by
    [SetCell], and both the receiver and the result of [BoldlyGo]. *)
Inductive reachable : Grid -> Prop :=
  | reach_NewGrid w h g :
      is_int w -> is_int h -> NewGrid w h = Some g -> reachable g
  | reach_SetCell g x y v g' :
      reachable g -> is_int x -> is_int y -> is_byte v ->
      SetCell g x y v = Some g' -> reachable g'
  | reach_receiver g g1 g2 :
      reachable g -> BoldlyGo g = Some (g1, g2) -> reachable g1
  | reach_nextGen g g1 g2 :
      reachable g -> BoldlyGo g = Some (g1, g2) -> reachable g2.

(** The cells [invalidateNeighborCache] visits, in its order. *)
Definition block (x y : Z) : list (Z * Z) :=
  [ (x - 1, y - 1); (x, y - 1); (x + 1, y - 1);
    (x - 1, y);     (x, y);     (x + 1, y);
    (x - 1, y + 1); (x, y + 1); (x + 1, y + 1) ].

(** One iteration of [invalidateNeighborCache] on the validity flags. *)
Definition drop (width height : Z) (valid : gmap string bool) (p : Z * Z)
  : gmap string bool :=
  if Rows.inside width height p.1 p.2
  then <[getCacheKey p.1 p.2 := false]> valid else valid.

End CachedShape.

Module CachedPass.
Import Cached CachedShape.

(** The cells of the source, the rule applied to them, and the progress
    of the rule pass: the cells before [(x, y)] in row-major order. *)
Definition rule_progress (g : Grid) (y x : Z) (p : Pass) : Prop :=
  (width (source p) = width g /\ height (source p) = height g /\
   cells (source p) = cells g) /\
  (wf (target p) /\ width (target p) = width g /\
   height (target p) = height g /\
   neighborCache (target p) = ∅ /\ cacheValid (target p) = ∅) /\
  (cache_ok g ->
   cache_ok (source p) /\
   forall x' y', inside g x' y' = true -> y' < y \/ (y' = y /\ x' < x) ->
     value (target p) x' y' = nextState (value g x' y') (fresh g x' y') /\
     (nextState (value g x' y') (fresh g x' y') <> value g x' y' ->
      changed p !! getCacheKey x' y' = Some true)).

End CachedPass.

(** ** Sample grids with caches *)

Module CachedExamples.
Import Cached.

Definition nothing : Grid := mkGrid 0 0 [] ∅ ∅.

(** [NewGrid(5, 5)] with a horizontal blinker set cell by cell. *)
Definition board : Grid := default nothing (NewGrid 5 5).
Definition one : Grid := default nothing (SetCell board 1 2 1).
Definition two : Grid := default nothing (SetCell one 2 2 1).
Definition blinker : Grid := default nothing (SetCell two 3 2 1).

(** The receiver and the result of one and of two [BoldlyGo]. *)
Definition first_step : Grid * Grid :=
  default (nothing, nothing) (BoldlyGo blinker).
Definition second_step : Grid * Grid :=
  default (nothing, nothing) (BoldlyGo first_step.2).

(** [NewGrid(1, 1)] with [SetCell(0, 0, 2)]. *)
Definition cell : Grid := default nothing (NewGrid 1 1).
Definition stray : Grid := default nothing (SetCell cell 0 0 2).

End CachedExamples.

(** ** What the specification asks of a frame *)

Module FrameSpec.

(** The cursor is sent home and the screen is not erased. *)
Definition repositions_only (out : string) : Prop :=
  Screen.begins_with Render.home out /\ ~ Screen.contains Render.clear out.

End FrameSpec.

(** ** The lines of a frame *)

Module Layout.



Definition join (texts : list string) : string :=
  foldr String.append EmptyString texts.

(** A live cell is a full block, a dead one a space. *)
Definition glyph (c : Z) : string := if c =? 1 then "█" else " ".

(** [│ ], glyph and space per cell, [│], newline. *)
Definition rowLine (row : list Z) : string :=
  "│ " +:+ join ((fun c => glyph c +:+ " ") <$> row) +:+ "│" +:+ Render.NL.

(** A corner, [2*width + 1] dashes, a corner, newline. *)
Definition borderLine (left right : string) (width : Z) : string :=
  left +:+ Screen.times (Z.to_nat (2 * width + 1)) "─"
  +:+ right +:+ Render.NL.

Definition lines (width : Z) (cells : list (list Z)) : list string :=
  borderLine "┌" "┐" width :: (rowLine <$> cells)
  ++ [borderLine "└" "┘" width].

(** The rows [GetCell] shows of a grid of the given size. *)
Definition table (width height : Z) (cell : Z -> Z -> Z) : list (list Z) :=
  (fun y => (fun x => cell x y) <$> seqZ 0 width) <$> seqZ 0 height.

End Layout.

(** ** Generations and a still life *)

Module Generations.

(** [n] calls of [BoldlyGo], each on the grid the one before returned. *)
Fixpoint advance {G} (step : G -> option G) (n : nat) (g : G) : option G :=
  match n with
  | O => Some g
  | S n => g' ← step g; advance step n g'
  end.

(** The two by two block whose top-left cell is [(cx, cy)]. *)
Definition square (cx cy x y : Z) : Z :=
  if (cx <=? x) && (x <=? cx + 1) && (cy <=? y) && (y <=? cy + 1)
  then 1 else 0.

(** The blinker centred at [(cx, cy)] after [n] generations. *)
Definition blinker (cx cy : Z) (n : nat) (x y : Z) : Z :=
  if Nat.even n then Life.horizontal cx cy x y else Life.vertical cx cy x y.

(** Bits 0, 1, 5 and 6: the block in the corner of a five by five board. *)
Definition corner_block : Bitmask.Grid := Bitmask.mkGrid 5 5 [99].

End Generations.

(** ** [Randomize]

    [now x y] is what [time.Now().UnixNano()] returns when the cell
    [(x, y)] is reached: one reading per cell. *)

Module Chance.
Import GoInt.

(** The byte the test [(x+y+int(time.Now().UnixNano()))%3 == 0] picks
    for the cell [(x, y)]. *)
Definition drawn (now : Z -> Z -> Z) (x y : Z) : Z :=
  if rem (add (add x y) (now x y)) 3 =? 0 then 1 else 0.

End Chance.

Module RandomizeBasic.
Import GoInt Basic.

Definition Randomize (now : Z -> Z -> Z) (g : Grid) : option Grid :=
  Loop.for_up 0 (height g) (fun y =>
    Loop.for_up 0 (width g) (fun x g =>
      cells' ← (if rem (add (add x y) (now x y)) 3 =? 0
                then Rows.write (cells g) x y 1
                else Rows.write (cells g) x y 0);
      Some (mkGrid (width g) (height g) cells'))) g.

End RandomizeBasic.

Module RandomizeBitmask.
Import GoInt Bitmask.

Definition Randomize (now : Z -> Z -> Z) (grid : Grid) : option Grid :=
  Loop.for_up 0 (height grid) (fun y =>
    Loop.for_up 0 (width grid) (fun x grid =>
      if rem (add (add x y) (now x y)) 3 =? 0
      then SetCell grid x y 1
      else SetCell grid x y 0)) grid.

End RandomizeBitmask.

Module RandomizeBytes2D.
Import GoInt Bytes2D.

Definition Randomize (now : Z -> Z -> Z) (grid : Grid) : option Grid :=
  Loop.for_up 0 (height grid) (fun y =>
    Loop.for_up 0 (width grid) (fun x grid =>
      cells' ← (if rem (add (add x y) (now x y)) 3 =? 0
                then Rows.write (cells grid) x y 1
                else Rows.write (cells grid) x y 0);
      Some (mkGrid (width grid) (height grid) cells'))) grid.

End RandomizeBytes2D.

Module RandomizeCached.
Import GoInt Cached.

(** The cells are written directly: no cache entry is invalidated. *)
Definition Randomize (now : Z -> Z -> Z) (grid : Grid) : option Grid :=
  Loop.for_up 0 (height grid) (fun y =>
    Loop.for_up 0 (width grid) (fun x grid =>
      cells' ← (if rem (add (add x y) (now x y)) 3 =? 0
                then Rows.write (cells grid) x y 1
                else Rows.write (cells grid) x y 0);
      Some (mkGrid (width grid) (height grid) cells'
              (neighborCache grid) (cacheValid grid)))) grid.

End RandomizeCached.

(** A board whose cache is full, then randomized by a clock that draws
    a dead cell everywhere, then stepped. *)
Module StaleExamples.
Import Cached.

Definition clock (x y : Z) : Z := 1 - x - y.

Definition shuffled : Grid :=
  default CachedExamples.nothing
    (RandomizeCached.Randomize clock CachedExamples.first_step.1).

Definition stepped : Grid * Grid :=
  default (CachedExamples.nothing, CachedExamples.nothing) (BoldlyGo shuffled).

End StaleExamples.

(** ** The command [run] of main.go

    The flags [width], [height] and [random] are arguments; so is what
    [json.Unmarshal] made of the flag [cells]: the error text or the
    decoded coordinates.  The result is the text on standard output;
    [fmt.Scanln] at the end waits and prints nothing. *)

Module Main.
Import GoInt.

Definition warning (x y width height : Z) : string :=
  "Warning: Cell coordinate [" +:+ pretty x +:+ "," +:+ pretty y
  +:+ "] is outside grid bounds (" +:+ pretty width +:+ "x"
  +:+ pretty height +:+ "). Unceremoniously skipping it." +:+ Render.NL.

(** [for _, coord := range cellCoords { ... }] on the grid and the text
    printed so far. *)
Fixpoint seed (width height : Z) (cellCoords : list (list Z))
    (s : Basic.Grid * string) : option (Basic.Grid * string) :=
  match cellCoords with
  | [] => Some s
  | coord :: cellCoords =>
      if Slice.len coord =? 2 then
        x ← Slice.index coord 0;
        y ← Slice.index coord 1;
        (* Check if coordinates are within grid bounds *)
        if (x <? 0) || (x >=? width) || (y <? 0) || (y >=? height) then
          seed width height cellCoords
            (s.1, s.2 +:+ warning x y width height)
        else
          grid ← Basic.SetCell s.1 x y true;
          seed width height cellCoords (grid, s.2)
      else seed width height cellCoords s
  end.

Definition closing (width height : Z) : string :=
  "Grid " +:+ pretty width +:+ "x" +:+ pretty height
  +:+ " displayed! Press Enter to exit..." +:+ Render.NL.

Definition run (width height : Z) (random : bool) (now : Z -> Z -> Z)
    (cells : string + list (list Z)) : option string :=
  grid ← Basic.NewGrid width height;
  if random then
    grid ← RandomizeBasic.Randomize now grid;
    frame ← Basic.Display grid;
    Some (frame +:+ closing width height)
  else
    match cells with
    | inl err => Some ("Error parsing cells: " +:+ err +:+ Render.NL)
    | inr cellCoords =>
        '(grid, out) ← seed width height cellCoords (grid, EmptyString);
        frame ← Basic.Display grid;
        Some (out +:+ frame +:+ closing width height)
    end.

(** The warnings of a list of coordinates: one per pair outside of the
    grid, in the order of the list. *)
Definition warnings (width height : Z) (cellCoords : list (list Z))
  : list string :=
  omap (fun coord =>
    match coord with
    | [x; y] => if Rows.inside width height x y then None
                else Some (warning x y width height)
    | _ => None
    end) cellCoords.

(** [(x, y)] is a pair of the list. *)
Definition listed (cellCoords : list (list Z)) (x y : Z) : bool :=
  bool_decide ([x; y] ∈ cellCoords).

(** The cells the frame shows after seeding an empty grid. *)
Definition seeded (cellCoords : list (list Z)) (x y : Z) : Z :=
  if listed cellCoords x y then 1 else 0.

End Main.

(** ** The double-buffered grid with integer cache keys

    The Go source that src/README.md carries after the readme text: one
    grid, mutated in place, with a second set of rows for the next
    generation.  Every method takes the grid and returns it as the call
    leaves it. *)

Module Buffered.
Import GoInt.

Record Grid := mkGrid {
  width : Z;
  height : Z;
  cells : list (list Z);
  buffer : list (list Z);
  neighborCache : gmap Z Z;
  cacheValid : gmap Z bool
}.

Definition NewGrid (width height : Z) : option Grid :=
  cells ← Slice.make height [];
  buffer ← Slice.make height [];
  '(cells, buffer) ←
    Loop.for_up 0 (Slice.len cells) (fun i '(cells, buffer) =>
      row ← Slice.make width 0;
      cells ← Slice.assign cells i row;
      row ← Slice.make width 0;
      buffer ← Slice.assign buffer i row;
      Some (cells, buffer)) (cells, buffer);
  Some (mkGrid width height cells buffer ∅ ∅).

Definition inside (grid : Grid) (x y : Z) : bool :=
  Rows.inside (width grid) (height grid) x y.

(** [y*grid.width + x] *)
Definition getCacheKey (grid : Grid) (x y : Z) : Z :=
  add (mul y (width grid)) x.

Definition invalidateNeighborCache (grid : Grid) (x y : Z) : option Grid :=
  Loop.around (fun dx dy grid =>
    let newX := add x dx in
    let newY := add y dy in
    if inside grid newX newY then
      let key := getCacheKey grid newX newY in
      Some (mkGrid (width grid) (height grid) (cells grid) (buffer grid)
              (neighborCache grid) (<[key := false]> (cacheValid grid)))
    else Some grid) grid.

Definition SetCell (grid : Grid) (x y value : Z) : option Grid :=
  if inside grid x y then
    oldValue ← Rows.read (cells grid) x y;
    cells' ← Rows.write (cells grid) x y value;
    let grid := mkGrid (width grid) (height grid) cells' (buffer grid)
                  (neighborCache grid) (cacheValid grid) in
    if negb (oldValue =? value) then invalidateNeighborCache grid x y
    else Some grid
  else Some grid.

Definition GetCell (grid : Grid) (x y : Z) : option Z :=
  if inside grid x y then Rows.read (cells grid) x y else Some 0.

Definition MakeItSo (grid : Grid) : option string :=
  Render.frame Render.home (width grid) (height grid)
    (Rows.read (cells grid)).

Definition Randomize (now : Z -> Z -> Z) (grid : Grid) : option Grid :=
  Loop.for_up 0 (height grid) (fun y =>
    Loop.for_up 0 (width grid) (fun x grid =>
      cells' ← (if rem (add (add x y) (now x y)) 3 =? 0
                then Rows.write (cells grid) x y 1
                else Rows.write (cells grid) x y 0);
      Some (mkGrid (width grid) (height grid) cells' (buffer grid)
              (neighborCache grid) (cacheValid grid)))) grid.

(** [grid.cells, grid.buffer = grid.buffer, grid.cells] *)
Definition swapBuffers (grid : Grid) : Grid :=
  mkGrid (width grid) (height grid) (buffer grid) (cells grid)
    (neighborCache grid) (cacheValid grid).

Definition scanForLifeforms (grid : Grid) (x y : Z) : option (Grid * Z) :=
  let key := getCacheKey grid x y in
  if decide (cacheValid grid !! key = Some true) then
    Some (grid, default 0 (neighborCache grid !! key))
  else
    lifeformCount ← Loop.around (fun dx dy lifeformCount =>
      if (dx =? 0) && (dy =? 0) then Some lifeformCount
      else
        let newX := add x dx in
        let newY := add y dy in
        if inside grid newX newY then
          c ← Rows.read (cells grid) newX newY; Some (add lifeformCount c)
        else Some lifeformCount) 0;
    Some (mkGrid (width grid) (height grid) (cells grid) (buffer grid)
            (<[key := lifeformCount]> (neighborCache grid))
            (<[key := true]> (cacheValid grid)),
          lifeformCount).

(** [newState := currentState], overwritten where a rule applies. *)
Definition nextState (currentState lifeformCount : Z) : Z :=
  if currentState =? 1 then
    if (lifeformCount <? 2) || (lifeformCount >? 3) then 0
    else currentState
  else
    if lifeformCount =? 3 then 1 else currentState.

(** The first loops of [BoldlyGo], on the grid and [changedCells]. *)
Definition rulePass (grid : Grid) : option (Grid * gmap Z bool) :=
  Loop.for_up 0 (Slice.len (cells grid)) (fun y s =>
    row ← Slice.index (cells s.1) y;
    Loop.for_up 0 (Slice.len row) (fun x '(grid, changedCells) =>
      '(grid, lifeformCount) ← scanForLifeforms grid x y;
      currentState ← Rows.read (cells grid) x y;
      let newState := nextState currentState lifeformCount in
      buffer' ← Rows.write (buffer grid) x y newState;
      let changedCells :=
        if negb (currentState =? newState)
        then <[getCacheKey grid x y := true]> changedCells
        else changedCells in
      Some (mkGrid (width grid) (height grid) (cells grid) buffer'
              (neighborCache grid) (cacheValid grid),
            changedCells)) s) (grid, ∅).

(** [/] and [%] panic on a zero divisor. *)
Definition quo (a b : Z) : option Z := if b =? 0 then None else Some (div a b).
Definition modulo (a b : Z) : option Z :=
  if b =? 0 then None else Some (rem a b).

(** [for key := range changedCells { ... }], the keys in the order the
    runtime yields them. *)
Fixpoint invalidateChanged (keys : list Z) (grid : Grid) : option Grid :=
  match keys with
  | [] => Some grid
  | key :: keys =>
      x ← modulo key (width grid);
      y ← quo key (width grid);
      grid ← invalidateNeighborCache grid x y;
      invalidateChanged keys grid
  end.

Definition hasChangedNeighbor (grid : Grid) (changedCells : gmap Z bool)
    (x y : Z) : bool :=
  existsb (fun dy =>
    existsb (fun dx =>
      if (dx =? 0) && (dy =? 0) then false
      else default false
             (changedCells !! getCacheKey grid (add x dx) (add y dy)))
      [-1; 0; 1])
    [-1; 0; 1].

(** The last loops of [BoldlyGo]: both branches leave the grid alone. *)
Definition prepopulate (changedCells : gmap Z bool) (grid : Grid)
  : option Grid :=
  Loop.for_up 0 (height grid) (fun y =>
    Loop.for_up 0 (width grid) (fun x grid =>
      let key := getCacheKey grid x y in
      if negb (hasChangedNeighbor grid changedCells x y)
         && default false (cacheValid grid !! key)
      then Some grid
      else Some grid)) grid.

(** [order] is the order in which [range] yields the keys of a map. *)
Definition BoldlyGo (order : gmap Z bool -> list Z) (grid : Grid)
  : option Grid :=
  '(grid, changedCells) ← rulePass grid;
  let grid := swapBuffers grid in
  grid ← invalidateChanged (order changedCells) grid;
  prepopulate changedCells grid.

End Buffered.

Module BufferedShape.
Import GoInt Buffered.

(** Both sets of rows have the shape [NewGrid] gives them, and the keys
    of the cells fit an [int]. *)
Definition wf (g : Grid) : Prop :=
  is_int (width g) /\ is_int (height g) /\
  width g * height g < 2 ^ 63 /\
  RowsShape.wf (width g) (height g) (cells g) /\
  RowsShape.wf (width g) (height g) (buffer g).

Definition value (g : Grid) (x y : Z) : Z :=
  RowsShape.value (width g) (height g) (cells g) x y.

Definition fresh (g : Grid) (x y : Z) : Z :=
  Life.neighbor_sum (width g) (height g) (value g) x y.

(** Every entry of a cell that is marked valid holds the sum over the
    current cells. *)
Definition cache_ok (g : Grid) : Prop :=
  forall x y, inside g x y = true ->
    cacheValid g !! getCacheKey g x y = Some true ->
    default 0 (neighborCache g !! getCacheKey g x y) = fresh g x y.

(** [range] yields every key of the map once. *)
Definition yields_keys (order : gmap Z bool -> list Z) : Prop :=
  forall m, order m ≡ₚ (map_to_list m).*1.

(** One iteration of [invalidateNeighborCache] on the validity flags. *)
Definition drop (width height : Z) (valid : gmap Z bool) (p : Z * Z)
  : gmap Z bool :=
  if Rows.inside width height p.1 p.2
  then <[add (mul p.2 width) p.1 := false]> valid else valid.

(** [k] is the key of a cell of the grid in the block around [(x, y)]. *)
Definition near (width height : Z) (k : Z) (x y : Z) : bool :=
  existsb (fun p : Z * Z =>
    Rows.inside width height p.1 p.2 && (add (mul p.2 width) p.1 =? k))
    (CachedShape.block x y).

(** [k] is the key of a cell next to, or at, a cell of [keys]. *)
Definition covered (width height : Z) (keys : list Z) (k : Z) : bool :=
  existsb (fun key => near width height k (rem key width) (div key width))
    keys.

End BufferedShape.

Module BufferedPass.
Import Buffered BufferedShape.

(** The progress of the first loops of [BoldlyGo] on a grid [g], when
    the cell [(x, y)] is reached: the cells stay, the cache stays right,
    the buffer holds the next state of the cells before [(x, y)] in
    row-major order, and [changedCells] holds keys of cells only, among
    them the keys of the cells whose state changes. *)
Definition rule_progress (g : Grid) (y x : Z) (s : Grid * gmap Z bool)
  : Prop :=
  (width s.1 = width g /\ height s.1 = height g /\ cells s.1 = cells g) /\
  RowsShape.wf (width g) (height g) (buffer s.1) /\
  cache_ok s.1 /\
  (forall k, is_Some (s.2 !! k) ->
     exists a b, inside g a b = true /\ k = getCacheKey g a b) /\
  forall x' y', inside g x' y' = true -> y' < y \/ (y' = y /\ x' < x) ->
    RowsShape.value (width g) (height g) (buffer s.1) x' y'
      = nextState (value g x' y') (fresh g x' y') /\
    (nextState (value g x' y') (fresh g x' y') <> value g x' y' ->
     s.2 !! getCacheKey g x' y' = Some true).

(** The grids a program can hold: made by [NewGrid] with a cell count
    that fits an [int], written by [SetCell], stepped by [BoldlyGo]. *)
Inductive reachable : Grid -> Prop :=
  | reach_NewGrid w h g :
      0 <= w < 2 ^ 63 -> 0 <= h < 2 ^ 63 -> w * h < 2 ^ 63 ->
      NewGrid w h = Some g -> reachable g
  | reach_SetCell g x y v g' :
      reachable g -> GoInt.is_byte v ->
      SetCell g x y v = Some g' -> reachable g'
  | reach_BoldlyGo order g g' :
      reachable g -> yields_keys order ->
      BoldlyGo order g = Some g' -> reachable g'.

End BufferedPass.

Module BufferedExamples.
Import Buffered.

(** The blinker on a five by five board, the buffer still empty. *)
Definition blinker : Grid :=
  mkGrid 5 5 Examples.blinker_rows (replicate 5 (replicate 5 0)) ∅ ∅.

(** The keys of a map in the order of its list of entries. *)
Definition ascending (m : gmap Z bool) : list Z := (map_to_list m).*1.
Definition descending (m : gmap Z bool) : list Z :=
  reverse (map_to_list m).*1.

End BufferedExamples.

(** * Properties *)

(** ** Arithmetic that stays in range does not wrap *)

Section GoIntFacts.
Import GoInt.

Lemma wrap_small z : is_int z -> wrap z = z.
Proof.
  unfold is_int, wrap. intros Hz.
  rewrite Z.mod_small by lia. lia.
Qed.

Lemma add_small a b : is_int (a + b) -> add a b = a + b.
Proof. apply wrap_small. Qed.

Lemma mul_small a b : is_int (a * b) -> mul a b = a * b.
Proof. apply wrap_small. Qed.

Lemma div_nonneg a b : 0 <= a -> 0 < b -> is_int a -> div a b = a / b.
Proof.
  intros Ha Hb Hi. unfold div. rewrite Z.quot_div_nonneg by lia.
  apply wrap_small. unfold is_int in *.
  assert (0 <= a / b) by (apply Z.div_pos; lia).
  assert (a / b <= a) by (apply Z.div_le_upper_bound; nia).
  lia.
Qed.

Lemma rem_nonneg a b : 0 <= a -> 0 < b -> rem a b = a `mod` b.
Proof. intros. unfold rem. apply Z.rem_mod_nonneg; lia. Qed.

Lemma shl1_small s : 0 <= s < 64 -> shl1 s = 2 ^ s.
Proof.
  intros Hs. unfold shl1. rewrite Z.shiftl_1_l.
  apply Z.mod_small. split; [apply Z.pow_nonneg; lia|].
  apply Z.pow_lt_mono_r; lia.
Qed.

Lemma land_pow2_eqb w b :
  0 <= b -> (Z.land w (2 ^ b) =? 0) = negb (Z.testbit w b).
Proof.
  intros Hb. destruct (Z.testbit w b) eqn:Hbit; simpl.
  - apply Z.eqb_neq. intros H0.
    assert (Z.testbit (Z.land w (2 ^ b)) b = true) as Ht.
    { rewrite Z.land_spec, Hbit, Z.pow2_bits_true by lia. done. }
    rewrite H0, Z.bits_0 in Ht. done.
  - apply Z.eqb_eq. apply Z.bits_inj'. intros n Hn.
    rewrite Z.land_spec, Z.bits_0, Z.pow2_bits_eqb by lia.
    destruct (Z.eqb_spec b n) as [->|]; [by rewrite Hbit|].
    apply andb_false_r.
Qed.

End GoIntFacts.

(** ** Slices *)

Section SliceFacts.
Context {A : Type}.
Implicit Types (s : list A) (i : Z).

Lemma index_Some s i a :
  Slice.index s i = Some a <-> 0 <= i /\ s !! Z.to_nat i = Some a.
Proof.
  unfold Slice.index. case_decide; [tauto|].
  split; [discriminate|tauto].
Qed.

Lemma index_lookup s i : 0 <= i -> Slice.index s i = s !! Z.to_nat i.
Proof. intros. unfold Slice.index. by case_decide. Qed.

Lemma index_in_range s i :
  0 <= i < Slice.len s -> is_Some (Slice.index s i).
Proof.
  unfold Slice.len. intros. rewrite index_lookup by lia.
  apply lookup_lt_is_Some. lia.
Qed.

Lemma assign_in_range s i a :
  0 <= i < Slice.len s ->
  Slice.assign s i a = Some (<[Z.to_nat i := a]> s).
Proof. unfold Slice.assign, Slice.len. intros. by case_decide. Qed.

Lemma make_nonneg n (a : A) :
  0 <= n -> Slice.make n a = Some (replicate (Z.to_nat n) a).
Proof. unfold Slice.make. intros. by case_decide. Qed.

Lemma make_negative n (a : A) : n < 0 -> Slice.make n a = None.
Proof. unfold Slice.make. intros. case_decide; [lia|done]. Qed.

Lemma index_assign_eq s i a :
  0 <= i < Slice.len s -> Slice.index (<[Z.to_nat i := a]> s) i = Some a.
Proof.
  unfold Slice.len. intros. rewrite index_lookup by lia.
  apply list_lookup_insert_eq. lia.
Qed.

Lemma index_assign_ne s i j a :
  0 <= i -> i <> j ->
  Slice.index (<[Z.to_nat i := a]> s) j = Slice.index s j.
Proof.
  intros. unfold Slice.index. case_decide; [|done].
  apply list_lookup_insert_ne. lia.
Qed.

Lemma len_assign s n a : Slice.len (<[n := a]> s) = Slice.len s.
Proof. unfold Slice.len. by rewrite length_insert. Qed.

End SliceFacts.

(** ** Loops *)

Section LoopFacts.
Context {S : Type}.
Implicit Types (body : Z -> S -> option S).

Lemma iter_ext body1 body2 k i s :
  (forall j t, i <= j < i + Z.of_nat k -> body1 j t = body2 j t) ->
  Loop.iter k i body1 s = Loop.iter k i body2 s.
Proof.
  revert i s. induction k as [|k IH]; intros i s Hext; [done|].
  simpl. rewrite Hext by lia. destruct (body2 i s) as [t|]; [|done].
  simpl. apply IH. intros. apply Hext. lia.
Qed.

Lemma for_up_ext body1 body2 lo hi s :
  (forall j t, lo <= j < hi -> body1 j t = body2 j t) ->
  Loop.for_up lo hi body1 s = Loop.for_up lo hi body2 s.
Proof. intros Hext. apply iter_ext. intros. apply Hext. lia. Qed.

Lemma for_up_empty body lo hi s : hi <= lo -> Loop.for_up lo hi body s = Some s.
Proof.
  intros. unfold Loop.for_up. by replace (Z.to_nat (hi - lo)) with O by lia.
Qed.

Lemma for_up_first body lo hi s :
  lo < hi ->
  Loop.for_up lo hi body s = body lo s ≫= Loop.for_up (lo + 1) hi body.
Proof.
  intros. unfold Loop.for_up.
  replace (Z.to_nat (hi - lo)) with (Datatypes.S (Z.to_nat (hi - (lo + 1)))) by lia.
  done.
Qed.

(** The loop rule: an invariant that every iteration re-establishes
    holds when the loop ends, and the loop ends normally. *)
Lemma iter_invariant (P : Z -> S -> Prop) body k i s :
  P i s ->
  (forall j t, i <= j < i + Z.of_nat k -> P j t ->
     exists t', body j t = Some t' /\ P (j + 1) t') ->
  exists t, Loop.iter k i body s = Some t /\ P (i + Z.of_nat k) t.
Proof.
  revert i s. induction k as [|k IH]; intros i s Hs Hstep.
  - exists s. split; [done|]. by replace (i + Z.of_nat 0) with i by lia.
  - destruct (Hstep i s) as (t & Hb & Ht); [lia|done|].
    destruct (IH (i + 1) t Ht) as (u & Hu & HP).
    { intros. apply Hstep; [lia|done]. }
    exists u. split; [simpl; by rewrite Hb|].
    by replace (i + Z.of_nat (Datatypes.S k)) with (i + 1 + Z.of_nat k) by lia.
Qed.

Lemma for_up_invariant (P : Z -> S -> Prop) body lo hi s :
  lo <= hi -> P lo s ->
  (forall j t, lo <= j < hi -> P j t ->
     exists t', body j t = Some t' /\ P (j + 1) t') ->
  exists t, Loop.for_up lo hi body s = Some t /\ P hi t.
Proof.
  intros Hle Hs Hstep.
  destruct (iter_invariant P body (Z.to_nat (hi - lo)) lo s Hs) as (t & ? & HP).
  { intros. apply Hstep; [lia|done]. }
  exists t. split; [done|].
  by replace (lo + Z.of_nat (Z.to_nat (hi - lo))) with hi in HP by lia.
Qed.

(** The nine iterations of the neighbourhood loops, written out. *)
Lemma around_unfold (b : Z -> Z -> S -> option S) s :
  Loop.around b s =
    (s ← b (-1) (-1) s; s ← b 0 (-1) s; s ← b 1 (-1) s;
     s ← b (-1) 0 s; s ← b 0 0 s; s ← b 1 0 s;
     s ← b (-1) 1 s; s ← b 0 1 s; b 1 1 s).
Proof.
  unfold Loop.around, Loop.for_up. simpl.
  change (-1 + 1 + 1) with 1. change (-1 + 1) with 0.
  destruct (b (-1) (-1) s) as [s1|]; simpl; [|done].
  destruct (b 0 (-1) s1) as [s2|]; simpl; [|done].
  destruct (b 1 (-1) s2) as [s3|]; simpl; [|done].
  destruct (b (-1) 0 s3) as [s4|]; simpl; [|done].
  destruct (b 0 0 s4) as [s5|]; simpl; [|done].
  destruct (b 1 0 s5) as [s6|]; simpl; [|done].
  destruct (b (-1) 1 s6) as [s7|]; simpl; [|done].
  destruct (b 0 1 s7) as [s8|]; simpl; [|done].
  by destruct (b 1 1 s8).
Qed.

(** The same rule for a loop whose bounds may be crossed from the start. *)
Lemma for_up_invariant_max (P : Z -> S -> Prop) body lo hi s :
  P lo s ->
  (forall j t, lo <= j < hi -> P j t ->
     exists t', body j t = Some t' /\ P (j + 1) t') ->
  exists t, Loop.for_up lo hi body s = Some t /\ P (Z.max lo hi) t.
Proof.
  intros Hs Hstep. destruct (decide (lo <= hi)).
  - rewrite Z.max_r by done. by apply for_up_invariant.
  - rewrite Z.max_l, for_up_empty by lia. eauto.
Qed.

End LoopFacts.

(** ** Writing one cell after the other fills a grid

    Shared by the grids whose [BoldlyGo] writes the next generation
    through [SetCell]: [ok] is the shape [NewGrid] establishes, [cell]
    the value of a cell. *)

Section Fill.
Context {G : Type} (wd ht : G -> Z) (ok : G -> Prop)
  (cell : G -> Z -> Z -> Z) (set : G -> Z -> Z -> Z -> option G).

Hypothesis set_inside : forall g x y v,
  ok g -> Rows.inside (wd g) (ht g) x y = true -> v = 0 \/ v = 1 ->
  exists g', set g x y v = Some g' /\ ok g' /\
    wd g' = wd g /\ ht g' = ht g /\ cell g' x y = v /\
    forall x' y', (x', y') <> (x, y) -> cell g' x' y' = cell g x' y'.

Lemma fill_grid (f : Z -> Z -> Z) (w h : Z) (g0 : G) :
  ok g0 -> wd g0 = w -> ht g0 = h ->
  (forall x y, f x y = 0 \/ f x y = 1) ->
  exists g,
    Loop.for_up 0 h (fun y =>
      Loop.for_up 0 w (fun x g => set g x y (f x y))) g0 = Some g /\
    ok g /\ wd g = w /\ ht g = h /\
    forall x y, Rows.inside w h x y = true -> cell g x y = f x y.
Proof.
  intros Hok Hw Hh Hf.
  set (J := fun (y x : Z) (g : G) =>
    ok g /\ wd g = w /\ ht g = h /\
    forall x' y', Rows.inside w h x' y' = true ->
      y' < y \/ (y' = y /\ x' < x) -> cell g x' y' = f x' y').
  destruct (for_up_invariant_max (fun y => J y 0)
    (fun y => Loop.for_up 0 w (fun x g => set g x y (f x y))) 0 h g0)
    as (g & Hrun & Hg).
  - repeat split; try done. intros x' y' Hin.
    unfold Rows.inside in Hin. rewrite !andb_true_iff in Hin. lia.
  - intros y g Hy Hg.
    destruct (for_up_invariant_max (J y)
      (fun x g => set g x y (f x y)) 0 w g Hg) as (g' & Hrun & Hg').
    + intros x t Hx (Hokt & Hwt & Hht & Hcells).
      destruct (set_inside t x y (f x y)) as (t' & Hset & ? & ? & ? & Hxy & Hrest);
        [done| |done|].
      { rewrite Hwt, Hht. unfold Rows.inside. rewrite !andb_true_iff. lia. }
      exists t'. split; [done|]. repeat split; try congruence.
      intros x' y' Hin Hbefore.
      destruct (decide ((x', y') = (x, y))) as [[= -> ->]|Hne]; [done|].
      rewrite Hrest by done. apply Hcells; [done|].
      destruct Hbefore as [?|[-> ?]]; [by left|right].
      split; [done|]. assert (x' <> x) by congruence. lia.
    + exists g'. split; [done|].
      destruct Hg' as (? & ? & ? & Hcells). repeat split; try done.
      intros x' y' Hin Hbefore. apply Hcells; [done|].
      unfold Rows.inside in Hin. rewrite !andb_true_iff in Hin. lia.
  - exists g. split; [done|].
    destruct Hg as (? & ? & ? & Hcells). repeat split; try done.
    intros x y Hin. apply Hcells; [done|].
    unfold Rows.inside in Hin. rewrite !andb_true_iff in Hin. lia.
Qed.

End Fill.

(** ** The neighbour scan computes the clipped sum *)

Section Scan.
Import GoInt.
Context (w h : Z) (rd : Z -> Z -> option Z) (cell : Z -> Z -> Z).

Hypothesis rd_inside : forall x y,
  Rows.inside w h x y = true -> rd x y = Some (cell x y) /\ is_byte (cell x y).

Lemma clipped_byte p : is_byte (Life.clipped w h cell p).
Proof.
  unfold Life.clipped. destruct (Rows.inside w h p.1 p.2) eqn:Hin.
  - by apply rd_inside.
  - unfold is_byte. lia.
Qed.

Lemma scan_step nx ny count :
  0 <= count <= 7 * 255 ->
  (if Rows.inside w h nx ny
   then c ← rd nx ny; Some (add count c)
   else Some count)
  = Some (count + Life.clipped w h cell (nx, ny)).
Proof.
  intros Hc. unfold Life.clipped. simpl.
  destruct (Rows.inside w h nx ny) eqn:Hin; [|f_equal; lia].
  destruct (rd_inside nx ny Hin) as [-> Hb]. simpl.
  unfold is_byte in Hb. rewrite add_small by (unfold is_int; lia). done.
Qed.

Lemma around_scan x y :
  is_int (x - 1) -> is_int (x + 1) -> is_int (y - 1) -> is_int (y + 1) ->
  Loop.around (fun dx dy lifeformCount =>
    if (dx =? 0) && (dy =? 0) then Some lifeformCount
    else
      let newX := add x dx in
      let newY := add y dy in
      if Rows.inside w h newX newY then
        c ← rd newX newY; Some (add lifeformCount c)
      else Some lifeformCount) 0
  = Some (Life.neighbor_sum w h cell x y).
Proof.
  intros Hx1 Hx2 Hy1 Hy2. rewrite around_unfold. cbn beta zeta.
  change ((-1 =? 0) && _) with false. change ((1 =? 0) && _) with false.
  change ((0 =? 0) && (-1 =? 0)) with false.
  change ((0 =? 0) && (1 =? 0)) with false.
  change ((0 =? 0) && (0 =? 0)) with true. cbn iota.
  assert (is_int x /\ is_int y) as [Hx Hy] by (unfold is_int in *; lia).
  rewrite !(add_small x), !(add_small y) by (by rewrite ?Z.add_0_r).
  rewrite !Z.add_0_r. change (x + -1) with (x - 1). change (y + -1) with (y - 1).
  unfold Life.neighbor_sum, Life.moore. simpl foldl.
  pose proof (clipped_byte (x - 1, y - 1)).
  pose proof (clipped_byte (x, y - 1)).
  pose proof (clipped_byte (x + 1, y - 1)).
  pose proof (clipped_byte (x - 1, y)).
  pose proof (clipped_byte (x + 1, y)).
  pose proof (clipped_byte (x - 1, y + 1)).
  pose proof (clipped_byte (x, y + 1)).
  pose proof (clipped_byte (x + 1, y + 1)).
  unfold is_byte in *.
  repeat (rewrite scan_step by lia; simpl mbind).
  done.
Qed.

End Scan.

(** ** The bit-packed grid *)

Section BitmaskFacts.
Import GoInt Bitmask BitmaskShape.

Lemma inside_spec g x y :
  inside g x y = true <-> 0 <= x < width g /\ 0 <= y < height g.
Proof. unfold inside. rewrite !andb_true_iff. lia. Qed.

Lemma inside_false g x y :
  inside g x y = false <-> ~ (0 <= x < width g /\ 0 <= y < height g).
Proof. rewrite <-inside_spec. by destruct (inside g x y). Qed.

Lemma linear_range g x y :
  wf g -> inside g x y = true ->
  0 <= linear g x y < width g * height g.
Proof.
  intros (Hw & Hh & Hfit & Hlen) Hin%inside_spec. unfold linear. nia.
Qed.

Lemma linear_inj g x y x' y' :
  inside g x y = true -> inside g x' y' = true ->
  linear g x y = linear g x' y' -> x = x' /\ y = y'.
Proof.
  intros Hin%inside_spec Hin'%inside_spec. unfold linear. intros Heq.
  assert (y = y') by nia. subst. lia.
Qed.

Lemma getBitIndex_inside g x y :
  wf g -> inside g x y = true ->
  getBitIndex g x y = (linear g x y / 64, linear g x y `mod` 64) /\
  0 <= linear g x y / 64 < Slice.len (cells g) /\
  0 <= linear g x y `mod` 64 < 64.
Proof.
  intros Hwf Hin. pose proof (linear_range g x y Hwf Hin) as Hlin.
  destruct Hwf as (Hw & Hh & Hfit & Hlen).
  apply inside_spec in Hin. unfold getBitIndex, linear in *.
  rewrite mul_small by (unfold is_int; nia).
  rewrite add_small by (unfold is_int; lia).
  rewrite div_nonneg by (unfold is_int; lia).
  rewrite rem_nonneg by lia.
  pose proof (Z.mod_pos_bound (y * width g + x) 64 ltac:(lia)).
  unfold uint. rewrite (Z.mod_small (_ `mod` 64)) by lia.
  split; [done|]. split; [|done]. rewrite Hlen.
  split; [apply Z.div_pos; lia|].
  apply Z.div_lt_upper_bound; [lia|].
  pose proof (Z.div_mod (width g * height g + 63) 64 ltac:(lia)).
  pose proof (Z.mod_pos_bound (width g * height g + 63) 64 ltac:(lia)).
  lia.
Qed.

Lemma GetCell_bit g x y : wf g -> GetCell g x y = Some (bit g x y).
Proof.
  intros Hwf. unfold GetCell, bit. destruct (inside g x y) eqn:Hin; [|done].
  destruct (getBitIndex_inside g x y Hwf Hin) as (-> & Hidx & Hpos).
  destruct (index_in_range (cells g) _ Hidx) as [w Hw].
  rewrite Hw. simpl. rewrite shl1_small, land_pow2_eqb, negb_involutive by lia.
  apply index_Some in Hw as [_ Hw].
  rewrite (list_lookup_total_correct _ _ _ Hw).
  by destruct (Z.testbit w _).
Qed.

Lemma bit_binary g x y : bit g x y = 0 \/ bit g x y = 1.
Proof.
  unfold bit. destruct (inside g x y); [|by left].
  destruct (Z.testbit _ _); simpl; auto.
Qed.

Lemma SetCell_outside g x y v : inside g x y = false -> SetCell g x y v = Some g.
Proof. intros Hout. unfold SetCell. by rewrite Hout. Qed.

Lemma GetCell_outside g x y : inside g x y = false -> GetCell g x y = Some 0.
Proof. intros Hout. unfold GetCell. by rewrite Hout. Qed.

Lemma SetCell_inside g x y v :
  wf g -> inside g x y = true ->
  exists g', SetCell g x y v = Some g' /\ wf g' /\
    width g' = width g /\ height g' = height g /\
    bit g' x y = (if v =? 1 then 1 else 0) /\
    forall x' y', (x', y') <> (x, y) -> bit g' x' y' = bit g x' y'.
Proof.
  intros Hwf Hin. unfold SetCell. rewrite Hin.
  destruct (getBitIndex_inside g x y Hwf Hin) as (-> & Hidx & Hpos).
  destruct (index_in_range (cells g) _ Hidx) as [w Hw].
  rewrite Hw. simpl. rewrite shl1_small by lia.
  rewrite assign_in_range by done. simpl.
  eexists. split; [done|].
  apply index_Some in Hw as [_ Hw].
  assert (wf (mkGrid (width g) (height g)
    (<[Z.to_nat (linear g x y / 64) :=
        if v =? 1 then Z.lor w (2 ^ (linear g x y `mod` 64))
        else Z.ldiff w (2 ^ (linear g x y `mod` 64))]> (cells g)))) as Hwf'.
  { destruct Hwf as (? & ? & ? & Hlen). repeat split; simpl; try done.
    by rewrite len_assign. }
  split; [done|]. split; [done|]. split; [done|].
  unfold bit, inside, linear in *; simpl. split.
  - rewrite Hin. rewrite list_lookup_total_insert_eq
      by (unfold Slice.len in Hidx; lia).
    destruct (v =? 1).
    + rewrite Z.lor_spec, Z.pow2_bits_true, orb_true_r by lia. done.
    + rewrite Z.ldiff_spec, Z.pow2_bits_true, andb_false_r by lia. done.
  - intros x' y' Hne.
    destruct ((0 <=? x') && (x' <? width g) && (0 <=? y') && (y' <? height g))
      eqn:Hin'; [|done].
    f_equal.
    destruct (decide (Z.to_nat ((y' * width g + x') / 64)
                      = Z.to_nat ((y * width g + x) / 64))) as [Heq|Hneq].
    + rewrite Heq. rewrite list_lookup_total_insert_eq
        by (unfold Slice.len in Hidx; lia).
      rewrite (list_lookup_total_correct _ _ _ Hw).
      assert ((y' * width g + x') `mod` 64 <> (y * width g + x) `mod` 64)
        as Hbit.
      { intros Hmod. apply Hne.
        destruct (linear_inj g x' y' x y Hin' Hin) as [-> ->]; [|done].
        unfold linear.
        pose proof (linear_range g x' y' Hwf Hin') as Hr. unfold linear in Hr.
        rewrite (Z.div_mod (y' * width g + x') 64),
                (Z.div_mod (y * width g + x) 64) by lia.
        assert ((y' * width g + x') / 64 = (y * width g + x) / 64) as ->; [|lia].
        assert (0 <= (y' * width g + x') / 64) by (apply Z.div_pos; lia).
        lia. }
      pose proof (Z.mod_pos_bound (y' * width g + x') 64 ltac:(lia)).
      destruct (v =? 1).
      * rewrite Z.lor_spec, Z.pow2_bits_false, orb_false_r by lia. done.
      * rewrite Z.ldiff_spec, Z.pow2_bits_false, andb_true_r by lia. done.
    + by rewrite list_lookup_total_insert_ne.
Qed.

Lemma NewGrid_wf w h :
  0 <= w -> 0 <= h -> w * h + 63 < 2 ^ 63 ->
  exists g, NewGrid w h = Some g /\ wf g /\ width g = w /\ height g = h /\
    forall x y, bit g x y = 0.
Proof.
  intros Hw Hh Hfit. unfold NewGrid.
  rewrite mul_small by (unfold is_int; nia).
  rewrite add_small by (unfold is_int; nia).
  rewrite div_nonneg by (unfold is_int; nia).
  assert (0 <= (w * h + 63) / 64) by (apply Z.div_pos; nia).
  rewrite make_nonneg by done. simpl. eexists. split; [done|].
  assert (wf (mkGrid w h (replicate (Z.to_nat ((w * h + 63) / 64)) 0)))
    as Hwf.
  { repeat split; simpl; try done.
    unfold Slice.len. rewrite length_replicate. lia. }
  split; [done|]. split; [done|]. split; [done|].
  intros x y. unfold bit. destruct (inside _ x y) eqn:Hin; [|done].
  destruct (getBitIndex_inside _ x y Hwf Hin) as (_ & Hidx & _).
  simpl in *. unfold Slice.len in Hidx. rewrite length_replicate in Hidx.
  rewrite lookup_total_replicate_2 by lia. by rewrite Z.bits_0.
Qed.

End BitmaskFacts.

Section LifeFacts.

Lemma next_state_binary cur n : Life.next_state cur n = 0 \/ Life.next_state cur n = 1.
Proof.
  unfold Life.next_state.
  destruct (cur =? 1), ((n <? 2) || (n >? 3)), (n =? 3); auto.
Qed.

(** On cells that are 0 or 1 the sum of the scan is the number of live
    neighbours. *)
Lemma neighbor_sum_count w h cell x y :
  (forall x' y', Rows.inside w h x' y' = true ->
     cell x' y' = 0 \/ cell x' y' = 1) ->
  Life.neighbor_sum w h cell x y = Life.live_neighbors w h cell x y.
Proof.
  intros Hbin. unfold Life.neighbor_sum, Life.live_neighbors.
  generalize (Life.moore x y). intros l.
  assert (forall a, foldl (fun acc p => acc + Life.clipped w h cell p) a l
    = a + Z.of_nat (length (List.filter
        (fun p => Rows.inside w h p.1 p.2 && (cell p.1 p.2 =? 1)) l))) as Hgen.
  { induction l as [|p l IH]; intros a; simpl; [lia|].
    rewrite IH. unfold Life.clipped.
    destruct (Rows.inside w h p.1 p.2) eqn:Hin; simpl; [|lia].
    destruct (Hbin _ _ Hin) as [->| ->]; simpl; lia. }
  rewrite Hgen. apply Z.add_0_l.
Qed.

End LifeFacts.

Section BitmaskStep.
Import GoInt Bitmask BitmaskShape.

Lemma bitmask_int_range g x y :
  wf g -> inside g x y = true ->
  is_int (x - 1) /\ is_int (x + 1) /\ is_int (y - 1) /\ is_int (y + 1).
Proof.
  intros (Hw & Hh & Hfit & _) Hin%inside_spec. unfold is_int. nia.
Qed.

Lemma bitmask_scan g x y :
  wf g -> inside g x y = true ->
  scanForLifeforms g x y
  = Some (Life.neighbor_sum (width g) (height g) (bit g) x y).
Proof.
  intros Hwf Hin.
  destruct (bitmask_int_range g x y Hwf Hin) as (? & ? & ? & ?).
  apply (around_scan (width g) (height g) (GetCell g) (bit g)); try done.
  intros nx ny _. split; [by apply GetCell_bit|].
  unfold is_byte. destruct (bit_binary g nx ny) as [-> | ->]; lia.
Qed.

Lemma bitmask_SetCell_fill g x y v :
  wf g -> Rows.inside (width g) (height g) x y = true -> v = 0 \/ v = 1 ->
  exists g', SetCell g x y v = Some g' /\ wf g' /\
    width g' = width g /\ height g' = height g /\ bit g' x y = v /\
    forall x' y', (x', y') <> (x, y) -> bit g' x' y' = bit g x' y'.
Proof.
  intros Hwf Hin Hv.
  destruct (SetCell_inside g x y v Hwf Hin) as (g' & ? & ? & ? & ? & Hb & ?).
  exists g'. split_and!; try done.
  rewrite Hb. by destruct Hv as [-> | ->].
Qed.

(** The next generation, cell by cell. *)
Lemma bitmask_BoldlyGo g :
  wf g ->
  exists g', BoldlyGo g = Some g' /\ wf g' /\
    width g' = width g /\ height g' = height g /\
    forall x y, inside g x y = true ->
      bit g' x y = Life.next_state (bit g x y)
        (Life.neighbor_sum (width g) (height g) (bit g) x y).
Proof.
  intros Hwf. unfold BoldlyGo.
  destruct Hwf as (Hw & Hh & Hfit & Hlen).
  destruct (NewGrid_wf (width g) (height g) Hw Hh Hfit)
    as (g0 & -> & Hwf0 & Hw0 & Hh0 & _).
  assert (wf g) as Hwf by done. simpl.
  set (f := fun x y => Life.next_state (bit g x y)
        (Life.neighbor_sum (width g) (height g) (bit g) x y)).
  rewrite (for_up_ext _ (fun y => Loop.for_up 0 (width g)
    (fun x u => SetCell u x y (f x y)))).
  2:{ intros y t Hy. apply for_up_ext. intros x u Hx.
      assert (inside g x y = true) as Hin by (apply inside_spec; lia).
      rewrite (bitmask_scan g x y Hwf Hin), (GetCell_bit g x y Hwf). simpl.
      unfold f, Life.next_state.
      by repeat case_match. }
  destruct (fill_grid width height wf bit SetCell bitmask_SetCell_fill
    f (width g) (height g) g0 Hwf0 Hw0 Hh0) as (g' & -> & ? & ? & ? & Hcells).
  { intros. apply next_state_binary. }
  exists g'. by split_and!.
Qed.

End BitmaskStep.

(** ** Rows of bytes *)

Section RowsFacts.
Import GoInt RowsShape.
Implicit Types (cells : list (list Z)).

Lemma rows_inside_spec w h x y :
  Rows.inside w h x y = true <-> 0 <= x < w /\ 0 <= y < h.
Proof. unfold Rows.inside. rewrite !andb_true_iff. lia. Qed.

Lemma rows_inside_false w h x y :
  Rows.inside w h x y = false <-> ~ (0 <= x < w /\ 0 <= y < h).
Proof. rewrite <-rows_inside_spec. by destruct (Rows.inside w h x y). Qed.

Lemma wf_row w h cells y row :
  wf w h cells -> cells !! y = Some row ->
  Slice.len row = w /\ Forall is_byte row.
Proof.
  intros [_ Hrows] Hy. rewrite Forall_lookup in Hrows. by eapply Hrows.
Qed.

Lemma read_inside w h cells x y :
  wf w h cells -> Rows.inside w h x y = true ->
  exists v, Rows.read cells x y = Some v /\ is_byte v.
Proof.
  intros Hwf Hin%rows_inside_spec. unfold Rows.read.
  destruct (index_in_range cells y) as [row Hrow].
  { destruct Hwf as [-> _]. lia. }
  rewrite Hrow. simpl. apply index_Some in Hrow as [_ Hrow].
  destruct (wf_row _ _ _ _ _ Hwf Hrow) as [Hlen Hbytes].
  destruct (index_in_range row x) as [v Hv]; [lia|].
  exists v. split; [done|]. apply index_Some in Hv as [_ Hv].
  rewrite Forall_lookup in Hbytes. by eapply Hbytes.
Qed.

Lemma read_value w h cells x y :
  wf w h cells -> Rows.inside w h x y = true ->
  Rows.read cells x y = Some (value w h cells x y) /\
  is_byte (value w h cells x y).
Proof.
  intros Hwf Hin. unfold value. rewrite Hin.
  by destruct (read_inside w h cells x y Hwf Hin) as (v & -> & ?).
Qed.

Lemma write_inside w h cells x y v :
  wf w h cells -> Rows.inside w h x y = true -> is_byte v ->
  exists cells', Rows.write cells x y v = Some cells' /\ wf w h cells' /\
    Rows.read cells' x y = Some v /\
    forall x' y', (x', y') <> (x, y) ->
      Rows.read cells' x' y' = Rows.read cells x' y'.
Proof.
  intros Hwf Hin%rows_inside_spec Hv. unfold Rows.write.
  destruct (index_in_range cells y) as [row Hrow].
  { destruct Hwf as [-> _]. lia. }
  rewrite Hrow. simpl. apply index_Some in Hrow as [_ Hrow].
  destruct (wf_row _ _ _ _ _ Hwf Hrow) as [Hlen Hbytes].
  rewrite assign_in_range by lia. simpl.
  assert (0 <= y < Slice.len cells) as Hy by (destruct Hwf as [-> _]; lia).
  rewrite assign_in_range by done.
  eexists. split; [done|]. split; [|split].
  - destruct Hwf as [Hh Hrows]. split; [by rewrite len_assign|].
    apply Forall_insert; [done|]. split; [by rewrite len_assign|].
    by apply Forall_insert.
  - unfold Rows.read. rewrite index_assign_eq by done. simpl.
    apply index_assign_eq. lia.
  - intros x' y' Hne. unfold Rows.read.
    destruct (decide (y' = y)) as [->|Hy'].
    + rewrite index_assign_eq by done. simpl.
      rewrite (index_lookup cells y), Hrow by lia. simpl.
      apply index_assign_ne; [lia|congruence].
    + by rewrite index_assign_ne by lia.
Qed.

Lemma value_write w h cells cells' x y :
  (forall x' y', (x', y') <> (x, y) ->
     Rows.read cells' x' y' = Rows.read cells x' y') ->
  forall x' y', (x', y') <> (x, y) ->
    value w h cells' x' y' = value w h cells x' y'.
Proof. intros Hrest x' y' Hne. unfold value. by rewrite Hrest. Qed.

(** Without a limit on memory, [alloc] returns exactly on a non-negative
    height and, when there is a row to make, a non-negative width. *)
Lemma alloc_Some w h cells :
  Rows.alloc w h = Some cells ->
  0 <= h /\ (0 < h -> 0 <= w) /\
  cells = replicate (Z.to_nat h) (replicate (Z.to_nat w) 0).
Proof.
  unfold Rows.alloc. destruct (decide (0 <= h)) as [Hh|Hh].
  2:{ rewrite (make_negative h) by lia. discriminate. }
  rewrite (make_nonneg h) by done. simpl.
  unfold Slice.len. rewrite length_replicate, Z2Nat.id by done.
  intros Hrun. split; [done|].
  destruct (decide (0 < h)) as [Hpos|Hzero].
  - destruct (decide (0 <= w)) as [Hw|Hw].
    + split; [done|].
      set (row := replicate (Z.to_nat w) 0) in *.
      destruct (for_up_invariant
        (fun i (c : list (list Z)) => length c = Z.to_nat h /\
           forall j : nat, (Z.of_nat j < i) -> c !! j = Some row)
        (fun i c => row ← Slice.make w 0; Slice.assign c i row)
        0 h (replicate (Z.to_nat h) [])) as (c & Hc & Hlen & Hall).
      * lia.
      * split; [by rewrite length_replicate|]. lia.
      * intros i c Hi [Hlen Hall]. rewrite make_nonneg by done. simpl.
        rewrite assign_in_range by (unfold Slice.len; lia).
        eexists. split; [done|]. split; [by rewrite length_insert|].
        intros j Hj. destruct (decide (j = Z.to_nat i)) as [->|Hne].
        -- apply list_lookup_insert_eq. lia.
        -- rewrite list_lookup_insert_ne by done. apply Hall. lia.
      * rewrite Hrun in Hc. injection Hc as ->.
        apply list_eq. intros j. destruct (decide (j < Z.to_nat h)%nat).
        -- rewrite Hall by lia. symmetry. by apply lookup_replicate_2.
        -- rewrite !lookup_ge_None_2; [done|rewrite length_replicate; lia|lia].
    + exfalso. rewrite for_up_first in Hrun by done.
      by rewrite (make_negative w) in Hrun by lia.
  - split; [lia|]. rewrite for_up_empty in Hrun by lia.
    injection Hrun as <-. by replace (Z.to_nat h) with O by lia.
Qed.

Lemma alloc_nonneg w h :
  0 <= h -> (0 < h -> 0 <= w) ->
  Rows.alloc w h = Some (replicate (Z.to_nat h) (replicate (Z.to_nat w) 0)).
Proof.
  intros Hh Hw. destruct (Rows.alloc w h) as [cells|] eqn:Hrun.
  { by apply alloc_Some in Hrun as (_ & _ & ->). }
  exfalso. revert Hrun. unfold Rows.alloc. rewrite (make_nonneg h) by done. simpl.
  unfold Slice.len. rewrite length_replicate, Z2Nat.id by done.
  destruct (for_up_invariant
    (fun i (c : list (list Z)) => length c = Z.to_nat h)
    (fun i c => row ← Slice.make w 0; Slice.assign c i row)
    0 h (replicate (Z.to_nat h) [])) as (c & -> & _); [lia| | |done].
  - by rewrite length_replicate.
  - intros i c Hi Hlen. rewrite make_nonneg by lia. simpl.
    rewrite assign_in_range by (unfold Slice.len; lia).
    eexists. split; [done|]. by rewrite length_insert.
Qed.

Lemma wf_alloc w h cells : Rows.alloc w h = Some cells -> wf w h cells.
Proof.
  intros (Hh & Hw & ->)%alloc_Some. split.
  - unfold Slice.len. rewrite length_replicate. lia.
  - destruct (decide (0 < h)).
    + apply Forall_replicate.
      split; [unfold Slice.len; rewrite length_replicate; lia|].
      apply Forall_replicate. unfold is_byte. lia.
    + replace (Z.to_nat h) with O by lia. constructor.
Qed.

End RowsFacts.

(** ** The uncached grid of byte rows *)

Section Bytes2DFacts.
Import GoInt Bytes2D Bytes2DShape.

Lemma bytes_GetCell_value g x y : wf g -> GetCell g x y = Some (value g x y).
Proof.
  intros (_ & _ & Hwf). unfold GetCell, value, inside, RowsShape.value.
  destruct (Rows.inside _ _ x y) eqn:Hin; [|done].
  by destruct (read_inside _ _ _ x y Hwf Hin) as (v & -> & _).
Qed.

Lemma bytes_value_byte g x y : wf g -> is_byte (value g x y).
Proof.
  intros (_ & _ & Hwf). unfold value, RowsShape.value.
  destruct (Rows.inside _ _ x y) eqn:Hin; [|unfold is_byte; lia].
  by destruct (read_inside _ _ _ x y Hwf Hin) as (v & -> & ?).
Qed.

Lemma bytes_SetCell_inside g x y v :
  wf g -> Rows.inside (width g) (height g) x y = true -> is_byte v ->
  exists g', SetCell g x y v = Some g' /\ wf g' /\
    width g' = width g /\ height g' = height g /\ value g' x y = v /\
    forall x' y', (x', y') <> (x, y) -> value g' x' y' = value g x' y'.
Proof.
  intros (Hw & Hh & Hwf) Hin Hv. unfold SetCell, inside. rewrite Hin.
  destruct (write_inside _ _ _ x y v Hwf Hin Hv)
    as (cells' & -> & Hwf' & Hread & Hrest).
  simpl. eexists. split; [done|]. split_and!; try done.
  - unfold value, RowsShape.value. simpl. by rewrite Hin, Hread.
  - intros x' y' Hne. unfold value. simpl. by eapply value_write.
Qed.

Lemma bytes_SetCell_fill g x y v :
  wf g -> Rows.inside (width g) (height g) x y = true -> v = 0 \/ v = 1 ->
  exists g', SetCell g x y v = Some g' /\ wf g' /\
    width g' = width g /\ height g' = height g /\ value g' x y = v /\
    forall x' y', (x', y') <> (x, y) -> value g' x' y' = value g x' y'.
Proof.
  intros Hwf Hin Hv. apply bytes_SetCell_inside; try done.
  unfold is_byte. lia.
Qed.

Lemma bytes_NewGrid_Some w h g :
  is_int w -> is_int h -> NewGrid w h = Some g ->
  wf g /\ width g = w /\ height g = h /\ forall x y, value g x y = 0.
Proof.
  intros Hw Hh. unfold NewGrid.
  destruct (Rows.alloc w h) as [cells|] eqn:Halloc; [|done].
  simpl. intros [= <-]. split_and!; try done.
  - split_and!; try done. by apply wf_alloc.
  - intros x y. unfold value, RowsShape.value. simpl.
    destruct (Rows.inside w h x y) eqn:Hin; [|done].
    apply rows_inside_spec in Hin.
    apply alloc_Some in Halloc as (_ & _ & ->).
    unfold Rows.read. rewrite index_lookup, lookup_replicate_2 by lia.
    simpl. rewrite index_lookup, lookup_replicate_2 by lia. done.
Qed.

Lemma bytes_nonneg_dims g :
  wf g -> 0 <= height g /\ (0 < height g -> 0 <= width g).
Proof.
  intros (_ & _ & Hlen & Hrows). unfold Slice.len in *. split; [lia|].
  intros Hpos. destruct (cells g) as [|row rows] eqn:Hc; simpl in *; [lia|].
  apply Forall_cons in Hrows as [[<- _] _]. lia.
Qed.

Lemma bytes_NewGrid_wf g :
  wf g ->
  exists g0, NewGrid (width g) (height g) = Some g0 /\ wf g0 /\
    width g0 = width g /\ height g0 = height g.
Proof.
  intros Hwf. destruct (bytes_nonneg_dims g Hwf) as [Hh Hw].
  destruct (NewGrid (width g) (height g)) as [g0|] eqn:Hnew.
  - destruct Hwf as (? & ? & _).
    apply bytes_NewGrid_Some in Hnew as (? & ? & ? & _); eauto.
  - unfold NewGrid in Hnew. by rewrite alloc_nonneg in Hnew.
Qed.

Lemma bytes_int_range g x y :
  wf g -> Rows.inside (width g) (height g) x y = true ->
  is_int (x - 1) /\ is_int (x + 1) /\ is_int (y - 1) /\ is_int (y + 1).
Proof.
  intros (Hw & Hh & _) Hin%rows_inside_spec. unfold is_int in *. lia.
Qed.

Lemma bytes_scan g x y :
  wf g -> Rows.inside (width g) (height g) x y = true ->
  scanForLifeforms g x y
  = Some (Life.neighbor_sum (width g) (height g) (value g) x y).
Proof.
  intros Hwf Hin.
  destruct (bytes_int_range g x y Hwf Hin) as (? & ? & ? & ?).
  apply (around_scan (width g) (height g) (Rows.read (cells g)) (value g));
    try done.
  intros nx ny Hn. destruct Hwf as (_ & _ & Hwf). by apply read_value.
Qed.

(** The next generation, cell by cell; the source may hold any bytes. *)
Lemma bytes_BoldlyGo g :
  wf g ->
  exists g', BoldlyGo g = Some g' /\ wf g' /\
    width g' = width g /\ height g' = height g /\
    forall x y, Rows.inside (width g) (height g) x y = true ->
      value g' x y = Life.next_state (value g x y)
        (Life.neighbor_sum (width g) (height g) (value g) x y).
Proof.
  intros Hwf. unfold BoldlyGo.
  destruct (bytes_NewGrid_wf g Hwf) as (g0 & -> & Hwf0 & Hw0 & Hh0).
  simpl.
  set (f := fun x y => Life.next_state (value g x y)
        (Life.neighbor_sum (width g) (height g) (value g) x y)).
  assert (Slice.len (cells g) = height g) as -> by apply Hwf.
  rewrite (for_up_ext _ (fun y => Loop.for_up 0 (width g)
    (fun x u => SetCell u x y (f x y)))).
  2:{ intros y t Hy.
      destruct (index_in_range (cells g) y) as [row Hrow].
      { by replace (Slice.len (cells g)) with (height g)
          by (symmetry; apply Hwf). }
      rewrite Hrow. simpl. apply index_Some in Hrow as [_ Hrow].
      destruct Hwf as (Hiw & Hih & Hrows).
      destruct (wf_row _ _ _ _ _ Hrows Hrow) as [-> _].
      apply for_up_ext. intros x u Hx.
      assert (Rows.inside (width g) (height g) x y = true) as Hin
        by (apply rows_inside_spec; lia).
      assert (wf g) as Hwf by done.
      rewrite (bytes_scan g x y Hwf Hin). simpl.
      destruct (read_value _ _ _ x y Hrows Hin) as [-> _]. simpl.
      unfold f, Life.next_state. fold (value g x y).
      by repeat case_match. }
  destruct (fill_grid width height wf value SetCell bytes_SetCell_fill
    f (width g) (height g) g0 Hwf0 Hw0 Hh0) as (g' & -> & ? & ? & ? & Hcells).
  { intros. apply next_state_binary. }
  exists g'. by split_and!.
Qed.

End Bytes2DFacts.

(** ** The blinker on the rules alone *)

(** Decides the comparisons of a goal one after the other, keeping the
    branch the hypotheses allow. *)
Ltac decide_tests :=
  repeat match goal with
  | |- context [?a >? ?b] => rewrite (Z.gtb_ltb a b)
  | |- context [?a =? ?b] =>
      destruct (Z.eqb_spec a b); try (exfalso; lia)
  | |- context [?a <=? ?b] =>
      destruct (Z.leb_spec a b); try (exfalso; lia)
  | |- context [?a <? ?b] =>
      destruct (Z.ltb_spec a b); try (exfalso; lia)
  end.

Section NeighborSum.

Lemma neighbor_sum_ext w h (c1 c2 : Z -> Z -> Z) x y :
  (forall x' y', Rows.inside w h x' y' = true -> c1 x' y' = c2 x' y') ->
  Life.neighbor_sum w h c1 x y = Life.neighbor_sum w h c2 x y.
Proof.
  intros Hext.
  assert (forall p, Life.clipped w h c1 p = Life.clipped w h c2 p) as Hp.
  { intros p. unfold Life.clipped.
    destruct (Rows.inside w h p.1 p.2) eqn:Hin; [by apply Hext|done]. }
  unfold Life.neighbor_sum. simpl. by rewrite !Hp.
Qed.

End NeighborSum.

Section Blinker.
Context (w h cx cy : Z).
Hypothesis Hcx : 1 <= cx <= w - 2.
Hypothesis Hcy : 1 <= cy <= h - 2.

Lemma clipped_horizontal p :
  Life.clipped w h (Life.horizontal cx cy) p = Life.horizontal cx cy p.1 p.2.
Proof.
  destruct p as [x y]. unfold Life.clipped, Life.horizontal, Rows.inside.
  simpl. decide_tests; done.
Qed.

Lemma clipped_vertical p :
  Life.clipped w h (Life.vertical cx cy) p = Life.vertical cx cy p.1 p.2.
Proof.
  destruct p as [x y]. unfold Life.clipped, Life.vertical, Rows.inside.
  simpl. decide_tests; done.
Qed.

Lemma horizontal_step x y :
  Life.next_state (Life.horizontal cx cy x y)
    (Life.neighbor_sum w h (Life.horizontal cx cy) x y)
  = Life.vertical cx cy x y.
Proof.
  unfold Life.neighbor_sum. simpl. rewrite !clipped_horizontal. simpl.
  unfold Life.horizontal, Life.vertical.
  decide_tests; reflexivity.
Qed.

Lemma vertical_step x y :
  Life.next_state (Life.vertical cx cy x y)
    (Life.neighbor_sum w h (Life.vertical cx cy) x y)
  = Life.horizontal cx cy x y.
Proof.
  unfold Life.neighbor_sum. simpl. rewrite !clipped_vertical. simpl.
  unfold Life.horizontal, Life.vertical.
  decide_tests; reflexivity.
Qed.

End Blinker.

(** ** The rules of [BoldlyGo] *)

Section Rules.
Import GoInt.

Lemma observe_bitmask g x y :
  BitmaskShape.wf g -> Observe.bitmask g x y = BitmaskShape.bit g x y.
Proof. intros Hwf. unfold Observe.bitmask. by rewrite GetCell_bit. Qed.

Lemma observe_bytes g x y :
  Bytes2DShape.wf g -> Observe.bytes g x y = Bytes2DShape.value g x y.
Proof. intros Hwf. unfold Observe.bytes. by rewrite bytes_GetCell_value. Qed.

Lemma next_state_alive cur n :
  cur = 0 \/ cur = 1 ->
  Life.next_state cur n = if decide (Observe.alive_next cur n) then 1 else 0.
Proof.
  intros Hcur. unfold Life.next_state, Observe.alive_next.
  case_decide as Hd; destruct Hcur as [-> | ->]; simpl;
    decide_tests; try done; exfalso; lia.
Qed.

Lemma live_neighbors_ext w h (c1 c2 : Z -> Z -> Z) x y :
  (forall x' y', Rows.inside w h x' y' = true -> c1 x' y' = c2 x' y') ->
  Life.live_neighbors w h c1 x y = Life.live_neighbors w h c2 x y.
Proof.
  intros Hext. unfold Life.live_neighbors. do 2 f_equal.
  apply List.filter_ext. intros p.
  destruct (Rows.inside w h p.1 p.2) eqn:Hin; [|done].
  by rewrite Hext.
Qed.

Lemma binary_value g x y :
  Bytes2DShape.wf g -> Observe.binary (Bytes2D.cells g) ->
  Bytes2DShape.value g x y = 0 \/ Bytes2DShape.value g x y = 1.
Proof.
  intros _ Hbin. unfold Bytes2DShape.value, RowsShape.value.
  destruct (Rows.inside _ _ x y); [|by left].
  unfold Rows.read.
  destruct (Slice.index (Bytes2D.cells g) y) as [row|] eqn:Hrow; [|by left].
  simpl. destruct (Slice.index row x) as [v|] eqn:Hv; [|by left].
  apply index_Some in Hrow as [_ Hrow]. apply index_Some in Hv as [_ Hv].
  unfold Observe.binary in Hbin. rewrite Forall_lookup in Hbin.
  specialize (Hbin _ _ Hrow). rewrite Forall_lookup in Hbin.
  by apply (Hbin _ _ Hv).
Qed.

End Rules.

(** C1. In the grid [BoldlyGo] returns, an in-bounds cell is alive
    exactly when the source cell is alive with two or three live
    neighbours or dead with exactly three, and dead otherwise; the live
    neighbours are counted among the in-bounds Moore neighbours of the
    source grid, without wrap-around.  Stated for the bit-packed grid
    [gm], whose cells are bits, and for the byte grid [gb] when all its
    bytes are 0 or 1. *)
Theorem boldlygo_applies_rules
    (gm : Bitmask.Grid) (gb : Bytes2D.Grid) (x y : Z) :
  BitmaskShape.wf gm -> Bitmask.inside gm x y = true ->
  Bytes2DShape.wf gb -> Observe.binary (Bytes2D.cells gb) ->
  Bytes2D.inside gb x y = true ->
  (exists gm',
     Bitmask.BoldlyGo gm = Some gm' /\
     Bitmask.GetCell gm' x y =
       Some (if decide (Observe.alive_next (Observe.bitmask gm x y)
                 (Life.live_neighbors (Bitmask.width gm) (Bitmask.height gm)
                    (Observe.bitmask gm) x y))
             then 1 else 0)) /\
  (exists gb',
     Bytes2D.BoldlyGo gb = Some gb' /\
     Bytes2D.GetCell gb' x y =
       Some (if decide (Observe.alive_next (Observe.bytes gb x y)
                 (Life.live_neighbors (Bytes2D.width gb) (Bytes2D.height gb)
                    (Observe.bytes gb) x y))
             then 1 else 0)).
Proof.
  intros Hwfm Hinm Hwfb Hbin Hinb. split.
  - destruct (bitmask_BoldlyGo gm Hwfm) as (gm' & Hgo & Hwf' & _ & _ & Hcells).
    exists gm'. split; [done|].
    rewrite (GetCell_bit gm' x y Hwf'), (Hcells x y Hinm).
    rewrite neighbor_sum_count by (intros; apply bit_binary).
    rewrite next_state_alive by apply bit_binary.
    rewrite (observe_bitmask gm x y Hwfm).
    rewrite (live_neighbors_ext _ _ (Observe.bitmask gm) (BitmaskShape.bit gm));
      [done|]. intros. by apply observe_bitmask.
  - destruct (bytes_BoldlyGo gb Hwfb) as (gb' & Hgo & Hwf' & _ & _ & Hcells).
    exists gb'. split; [done|].
    rewrite (bytes_GetCell_value gb' x y Hwf'), (Hcells x y Hinb).
    rewrite neighbor_sum_count by (intros; by apply binary_value).
    rewrite next_state_alive by (by apply binary_value).
    rewrite (observe_bytes gb x y Hwfb).
    rewrite (live_neighbors_ext _ _ (Observe.bytes gb) (Bytes2DShape.value gb));
      [done|]. intros. by apply observe_bytes.
Qed.

Lemma blinker_bits_wf : BitmaskShape.wf Examples.blinker_bits.
Proof. unfold BitmaskShape.wf. simpl. repeat split; lia. Defined.

Lemma blinker_rows_wf : RowsShape.wf 5 5 Examples.blinker_rows.
Proof.
  unfold RowsShape.wf, GoInt.is_byte. split; [reflexivity|].
  repeat (constructor; [split; [reflexivity|];
                        repeat (constructor; [lia|]); constructor|]).
  constructor.
Defined.

Lemma blinker_bytes_wf : Bytes2DShape.wf Examples.blinker_bytes.
Proof.
  unfold Bytes2DShape.wf, GoInt.is_int. simpl.
  split; [lia|]. split; [lia|]. apply blinker_rows_wf.
Defined.

Lemma blinker_rows_binary : Observe.binary Examples.blinker_rows.
Proof.
  unfold Observe.binary, Examples.blinker_rows.
  repeat (constructor; [repeat (constructor; [auto|]); constructor|]).
  constructor.
Defined.

Lemma boldlygo_applies_rules_witness :
  BitmaskShape.wf Examples.blinker_bits /\
  Bitmask.inside Examples.blinker_bits 2 1 = true /\
  Bytes2DShape.wf Examples.blinker_bytes /\
  Observe.binary (Bytes2D.cells Examples.blinker_bytes) /\
  Bytes2D.inside Examples.blinker_bytes 2 1 = true /\
  (exists gm', Bitmask.BoldlyGo Examples.blinker_bits = Some gm' /\
     Bitmask.GetCell gm' 2 1 = Some 1) /\
  (exists gb', Bytes2D.BoldlyGo Examples.blinker_bytes = Some gb' /\
     Bytes2D.GetCell gb' 2 1 = Some 1).
Proof.
  split; [apply blinker_bits_wf|]. split; [reflexivity|].
  split; [apply blinker_bytes_wf|]. split; [apply blinker_rows_binary|].
  split; [reflexivity|].
  apply (boldlygo_applies_rules
           Examples.blinker_bits Examples.blinker_bytes 2 1).
  - apply blinker_bits_wf.
  - reflexivity.
  - apply blinker_bytes_wf.
  - apply blinker_rows_binary.
  - reflexivity.
Defined.

(** ** Access outside of the grid *)

(** C3. At a coordinate outside of [0,width) x [0,height), [GetCell]
    returns 0 and [SetCell] returns the grid as it was, whatever the grid
    holds; neither panics.  For the grid of src/grid.go, the bit-packed
    grid, the byte grid and the cached grid. *)
Theorem out_of_bounds_is_tolerated
    (w h x y v : Z) (alive : bool) (rows : list (list Z)) (words : list Z)
    (counts : gmap string Z) (valid : gmap string bool) :
  ~ (0 <= x < w /\ 0 <= y < h) ->
  (Basic.GetCell (Basic.mkGrid w h rows) x y = Some 0 /\
   Basic.SetCell (Basic.mkGrid w h rows) x y alive
     = Some (Basic.mkGrid w h rows)) /\
  (Bitmask.GetCell (Bitmask.mkGrid w h words) x y = Some 0 /\
   Bitmask.SetCell (Bitmask.mkGrid w h words) x y v
     = Some (Bitmask.mkGrid w h words)) /\
  (Bytes2D.GetCell (Bytes2D.mkGrid w h rows) x y = Some 0 /\
   Bytes2D.SetCell (Bytes2D.mkGrid w h rows) x y v
     = Some (Bytes2D.mkGrid w h rows)) /\
  (Cached.GetCell (Cached.mkGrid w h rows counts valid) x y = Some 0 /\
   Cached.SetCell (Cached.mkGrid w h rows counts valid) x y v
     = Some (Cached.mkGrid w h rows counts valid)).
Proof.
  intros Hout%rows_inside_false.
  unfold Basic.GetCell, Basic.SetCell, Bitmask.GetCell, Bitmask.SetCell,
    Bytes2D.GetCell, Bytes2D.SetCell, Cached.GetCell, Cached.SetCell,
    Bitmask.inside, Bytes2D.inside, Cached.inside.
  simpl. fold (Rows.inside w h x y). by rewrite Hout.
Qed.

Lemma out_of_bounds_is_tolerated_witness :
  ~ (0 <= 5 < 5 /\ 0 <= -1 < 5) /\
  (Basic.GetCell (Basic.mkGrid 5 5 Examples.blinker_rows) 5 (-1) = Some 0 /\
   Basic.SetCell (Basic.mkGrid 5 5 Examples.blinker_rows) 5 (-1) true
     = Some (Basic.mkGrid 5 5 Examples.blinker_rows)) /\
  (Bitmask.GetCell (Bitmask.mkGrid 5 5 [14336]) 5 (-1) = Some 0 /\
   Bitmask.SetCell (Bitmask.mkGrid 5 5 [14336]) 5 (-1) 1
     = Some (Bitmask.mkGrid 5 5 [14336])) /\
  (Bytes2D.GetCell (Bytes2D.mkGrid 5 5 Examples.blinker_rows) 5 (-1) = Some 0 /\
   Bytes2D.SetCell (Bytes2D.mkGrid 5 5 Examples.blinker_rows) 5 (-1) 1
     = Some (Bytes2D.mkGrid 5 5 Examples.blinker_rows)) /\
  (Cached.GetCell (Cached.mkGrid 5 5 Examples.blinker_rows ∅ ∅) 5 (-1) = Some 0 /\
   Cached.SetCell (Cached.mkGrid 5 5 Examples.blinker_rows ∅ ∅) 5 (-1) 1
     = Some (Cached.mkGrid 5 5 Examples.blinker_rows ∅ ∅)).
Proof.
  split; [lia|].
  apply (out_of_bounds_is_tolerated 5 5 5 (-1) 1 true
           Examples.blinker_rows [14336] ∅ ∅).
  lia.
Defined.

(** ** The blinker *)

Section BlinkerOnBits.
Import Bitmask BitmaskShape.

Lemma bitmask_pattern_step g (c c' : Z -> Z -> Z) :
  wf g ->
  (forall x y, GetCell g x y = Some (c x y)) ->
  (forall x y, Life.next_state (c x y)
     (Life.neighbor_sum (width g) (height g) c x y) = c' x y) ->
  (forall x y, inside g x y = false -> c' x y = 0) ->
  exists g', BoldlyGo g = Some g' /\ wf g' /\
    width g' = width g /\ height g' = height g /\
    forall x y, GetCell g' x y = Some (c' x y).
Proof.
  intros Hwf Hc Hstep Hout.
  destruct (bitmask_BoldlyGo g Hwf) as (g' & Hgo & Hwf' & Hw & Hh & Hcells).
  exists g'. split_and!; try done. intros x y.
  assert (forall x y, bit g x y = c x y) as Hbit.
  { intros x' y'. specialize (Hc x' y'). rewrite GetCell_bit in Hc by done.
    congruence. }
  destruct (inside g x y) eqn:Hin.
  - rewrite GetCell_bit, Hcells by done. rewrite Hbit, <-Hstep.
    do 2 f_equal. apply neighbor_sum_ext. intros. apply Hbit.
  - rewrite GetCell_outside, Hout; [done..|].
    unfold inside in *. by rewrite Hw, Hh.
Qed.

End BlinkerOnBits.

(** C6. A grid that is empty except for three live cells in a horizontal
    row, the row and the column through its centre inside of the grid,
    becomes after one [BoldlyGo] the grid with exactly the vertical
    three-cell column alive, and after a second one the horizontal row
    again.  A grid of at least five by five with the row away from the
    border is such a grid. *)
Theorem blinker_has_period_two (g : Bitmask.Grid) (cx cy : Z) :
  BitmaskShape.wf g ->
  1 <= cx <= Bitmask.width g - 2 ->
  1 <= cy <= Bitmask.height g - 2 ->
  (forall x y, Bitmask.GetCell g x y = Some (Life.horizontal cx cy x y)) ->
  exists g1 g2,
    Bitmask.BoldlyGo g = Some g1 /\
    (forall x y, Bitmask.GetCell g1 x y = Some (Life.vertical cx cy x y)) /\
    Bitmask.BoldlyGo g1 = Some g2 /\
    (forall x y, Bitmask.GetCell g2 x y = Some (Life.horizontal cx cy x y)).
Proof.
  intros Hwf Hcx Hcy Hg.
  destruct (bitmask_pattern_step g (Life.horizontal cx cy)
    (Life.vertical cx cy) Hwf Hg) as (g1 & Hgo1 & Hwf1 & Hw1 & Hh1 & Hg1).
  { intros. by apply horizontal_step. }
  { intros x y Hout%inside_false. unfold Life.vertical.
    decide_tests; done. }
  destruct (bitmask_pattern_step g1 (Life.vertical cx cy)
    (Life.horizontal cx cy) Hwf1 Hg1) as (g2 & Hgo2 & _ & _ & _ & Hg2).
  { intros. apply vertical_step; by rewrite ?Hw1, ?Hh1. }
  { intros x y Hout%inside_false. rewrite Hw1, Hh1 in Hout.
    unfold Life.horizontal. decide_tests; done. }
  by exists g1, g2.
Qed.

Lemma blinker_bits_horizontal x y :
  Bitmask.GetCell Examples.blinker_bits x y = Some (Life.horizontal 2 2 x y).
Proof.
  destruct (Bitmask.inside Examples.blinker_bits x y) eqn:Hin.
  - apply inside_spec in Hin. simpl in Hin.
    assert (x = 0 \/ x = 1 \/ x = 2 \/ x = 3 \/ x = 4) as Hx by lia.
    assert (y = 0 \/ y = 1 \/ y = 2 \/ y = 3 \/ y = 4) as Hy by lia.
    destruct Hx as [->|[->|[->|[->| ->]]]];
      destruct Hy as [->|[->|[->|[->| ->]]]]; reflexivity.
  - rewrite GetCell_outside by done. apply inside_false in Hin.
    simpl in Hin. unfold Life.horizontal. decide_tests; done.
Defined.

Lemma blinker_has_period_two_witness :
  BitmaskShape.wf Examples.blinker_bits /\
  1 <= 2 <= Bitmask.width Examples.blinker_bits - 2 /\
  1 <= 2 <= Bitmask.height Examples.blinker_bits - 2 /\
  (forall x y, Bitmask.GetCell Examples.blinker_bits x y
               = Some (Life.horizontal 2 2 x y)) /\
  exists g1 g2,
    Bitmask.BoldlyGo Examples.blinker_bits = Some g1 /\
    (forall x y, Bitmask.GetCell g1 x y = Some (Life.vertical 2 2 x y)) /\
    Bitmask.BoldlyGo g1 = Some g2 /\
    (forall x y, Bitmask.GetCell g2 x y = Some (Life.horizontal 2 2 x y)).
Proof.
  split; [apply blinker_bits_wf|]. split; [simpl; lia|].
  split; [simpl; lia|]. split; [apply blinker_bits_horizontal|].
  apply (blinker_has_period_two Examples.blinker_bits 2 2).
  - apply blinker_bits_wf.
  - simpl; lia.
  - simpl; lia.
  - apply blinker_bits_horizontal.
Defined.

(** ** The two representations agree *)

Section Representations.
Import GoInt.


Lemma same_cells_GetCell gm gb x y :
  same_cells gm gb -> Bitmask.GetCell gm x y = Bytes2D.GetCell gb x y.
Proof.
  intros (Hm & Hb & _ & _ & Hcells).
  by rewrite GetCell_bit, bytes_GetCell_value, Hcells.
Qed.

Lemma same_cells_NewGrid w h :
  0 <= w < 2 ^ 63 -> 0 <= h < 2 ^ 63 -> w * h + 63 < 2 ^ 63 ->
  exists gm gb, Bitmask.NewGrid w h = Some gm /\
    Bytes2D.NewGrid w h = Some gb /\ same_cells gm gb.
Proof.
  intros Hw Hh Hfit.
  destruct (NewGrid_wf w h) as (gm & Hgm & Hwfm & Hwm & Hhm & Hbits);
    [lia..|].
  assert (is_int w /\ is_int h) as [Hiw Hih] by (unfold is_int; lia).
  destruct (Bytes2D.NewGrid w h) as [gb|] eqn:Hgb.
  2:{ unfold Bytes2D.NewGrid in Hgb. by rewrite alloc_nonneg in Hgb by lia. }
  destruct (bytes_NewGrid_Some w h gb Hiw Hih Hgb) as (Hwfb & Hwb & Hhb & Hval).
  exists gm, gb. unfold same_cells. split_and!; try done; try congruence;
    intros x y; by rewrite Hbits, Hval.
Qed.

Lemma same_cells_SetCell gm gb x y v :
  same_cells gm gb -> v = 0 \/ v = 1 ->
  exists gm' gb', Bitmask.SetCell gm x y v = Some gm' /\
    Bytes2D.SetCell gb x y v = Some gb' /\ same_cells gm' gb'.
Proof.
  intros (Hm & Hb & Hw & Hh & Hcells) Hv.
  destruct (Bitmask.inside gm x y) eqn:Hin.
  - destruct (bitmask_SetCell_fill gm x y v Hm Hin Hv)
      as (gm' & -> & ? & Hwm & Hhm & Hxy & Hrest).
    assert (Rows.inside (Bytes2D.width gb) (Bytes2D.height gb) x y = true)
      as Hinb by (by rewrite <-Hw, <-Hh).
    destruct (bytes_SetCell_fill gb x y v Hb Hinb Hv)
      as (gb' & -> & ? & Hwb & Hhb & Hxy' & Hrest').
    exists gm', gb'. unfold same_cells. split_and!; try done; try congruence.
    intros x' y'. destruct (decide ((x', y') = (x, y))) as [[= -> ->]|Hne].
    + congruence.
    + by rewrite Hrest, Hrest', Hcells.
  - rewrite SetCell_outside by done.
    assert (Bytes2D.inside gb x y = false) as Hinb.
    { unfold Bytes2D.inside. by rewrite <-Hw, <-Hh. }
    unfold Bytes2D.SetCell. rewrite Hinb.
    exists gm, gb. by split_and!.
Qed.

Lemma same_cells_setCells calls gm gb :
  same_cells gm gb ->
  Forall (fun c => c.2 = 0 \/ c.2 = 1) calls ->
  exists gm' gb',
    Observe.setCells Bitmask.SetCell calls gm = Some gm' /\
    Observe.setCells Bytes2D.SetCell calls gb = Some gb' /\
    same_cells gm' gb'.
Proof.
  revert gm gb. induction calls as [|[[x y] v] calls IH]; intros gm gb Hsame Hv.
  - exists gm, gb. by split_and!.
  - apply Forall_cons in Hv as [Hv Hvs]. simpl in Hv.
    destruct (same_cells_SetCell gm gb x y v Hsame Hv)
      as (gm1 & gb1 & Hm1 & Hb1 & Hsame1).
    destruct (IH gm1 gb1 Hsame1 Hvs) as (gm' & gb' & ? & ? & ?).
    exists gm', gb'. simpl. rewrite Hm1, Hb1. by split_and!.
Qed.

Lemma same_cells_BoldlyGo gm gb :
  same_cells gm gb ->
  exists gm' gb', Bitmask.BoldlyGo gm = Some gm' /\
    Bytes2D.BoldlyGo gb = Some gb' /\ same_cells gm' gb'.
Proof.
  intros (Hm & Hb & Hw & Hh & Hcells).
  destruct (bitmask_BoldlyGo gm Hm) as (gm' & -> & Hm' & Hwm & Hhm & Hnext).
  destruct (bytes_BoldlyGo gb Hb) as (gb' & -> & Hb' & Hwb & Hhb & Hnext').
  exists gm', gb'. unfold same_cells. split_and!; try done; try congruence.
  intros x y. destruct (Bitmask.inside gm x y) eqn:Hin.
  - rewrite Hnext, Hnext' by (by rewrite <-?Hw, <-?Hh).
    rewrite Hcells, <-Hw, <-Hh. f_equal.
    apply neighbor_sum_ext. intros. apply Hcells.
  - unfold BitmaskShape.bit, Bytes2DShape.value, RowsShape.value.
    unfold Bitmask.inside in *. rewrite Hwm, Hhm, Hwb, Hhb, <-Hw, <-Hh.
    fold (Rows.inside (Bitmask.width gm) (Bitmask.height gm) x y).
    unfold Rows.inside. by rewrite Hin.
Qed.

End Representations.

(** C9. The bit-packed grid and the byte grid are observationally
    equivalent: when [NewGrid] has returned both for the same dimensions
    (non-negative, the number of cells within [int]), the same [SetCell]
    calls with values 0 or 1 never panic on either and leave grids that
    answer every [GetCell] alike; [BoldlyGo] returns on both, and the
    grids it returns answer every [GetCell] alike too. *)
Theorem representations_agree (w h : Z) (calls : list (Z * Z * Z))
    (gm0 : Bitmask.Grid) (gb0 : Bytes2D.Grid) :
  0 <= w < 2 ^ 63 -> 0 <= h < 2 ^ 63 -> w * h + 63 < 2 ^ 63 ->
  Bitmask.NewGrid w h = Some gm0 ->
  Bytes2D.NewGrid w h = Some gb0 ->
  Forall (fun c => c.2 = 0 \/ c.2 = 1) calls ->
  exists gm gb gm' gb',
    Observe.setCells Bitmask.SetCell calls gm0 = Some gm /\
    Observe.setCells Bytes2D.SetCell calls gb0 = Some gb /\
    (forall x y, Bitmask.GetCell gm x y = Bytes2D.GetCell gb x y) /\
    Bitmask.BoldlyGo gm = Some gm' /\
    Bytes2D.BoldlyGo gb = Some gb' /\
    (forall x y, Bitmask.GetCell gm' x y = Bytes2D.GetCell gb' x y).
Proof.
  intros Hw Hh Hfit Hnewm Hnewb Hv.
  assert (same_cells gm0 gb0) as Hsame0.
  { destruct (same_cells_NewGrid w h Hw Hh Hfit)
      as (gm1 & gb1 & Hm & Hb & Hsame0).
    rewrite Hnewm in Hm. rewrite Hnewb in Hb.
    injection Hm as <-. by injection Hb as <-. }
  destruct (same_cells_setCells calls gm0 gb0 Hsame0 Hv)
    as (gm & gb & ? & ? & Hsame).
  destruct (same_cells_BoldlyGo gm gb Hsame) as (gm' & gb' & ? & ? & Hsame').
  exists gm, gb, gm', gb'. split_and!; try done.
  - intros. by apply same_cells_GetCell.
  - intros. by apply same_cells_GetCell.
Qed.

Lemma representations_agree_witness :
  0 <= 5 < 2 ^ 63 /\ 0 <= 5 < 2 ^ 63 /\ 5 * 5 + 63 < 2 ^ 63 /\
  Bitmask.NewGrid 5 5 = Some (Bitmask.mkGrid 5 5 [0]) /\
  Bytes2D.NewGrid 5 5
    = Some (Bytes2D.mkGrid 5 5 (replicate 5 (replicate 5 0))) /\
  Forall (fun c : Z * Z * Z => c.2 = 0 \/ c.2 = 1)
    [(1, 2, 1); (2, 2, 1); (3, 2, 1); (7, 7, 1); (4, 4, 1); (4, 4, 0)] /\
  exists gm gb gm' gb',
    Observe.setCells Bitmask.SetCell
      [(1, 2, 1); (2, 2, 1); (3, 2, 1); (7, 7, 1); (4, 4, 1); (4, 4, 0)]
      (Bitmask.mkGrid 5 5 [0]) = Some gm /\
    Observe.setCells Bytes2D.SetCell
      [(1, 2, 1); (2, 2, 1); (3, 2, 1); (7, 7, 1); (4, 4, 1); (4, 4, 0)]
      (Bytes2D.mkGrid 5 5 (replicate 5 (replicate 5 0))) = Some gb /\
    (forall x y, Bitmask.GetCell gm x y = Bytes2D.GetCell gb x y) /\
    Bitmask.BoldlyGo gm = Some gm' /\
    Bytes2D.BoldlyGo gb = Some gb' /\
    (forall x y, Bitmask.GetCell gm' x y = Bytes2D.GetCell gb' x y).
Proof.
  assert (Forall (fun c : Z * Z * Z => c.2 = 0 \/ c.2 = 1)
    [(1, 2, 1); (2, 2, 1); (3, 2, 1); (7, 7, 1); (4, 4, 1); (4, 4, 0)]) as Hv.
  { repeat (constructor; [simpl; auto|]). constructor. }
  assert (Bitmask.NewGrid 5 5 = Some (Bitmask.mkGrid 5 5 [0])) as Hm
    by reflexivity.
  assert (Bytes2D.NewGrid 5 5
          = Some (Bytes2D.mkGrid 5 5 (replicate 5 (replicate 5 0)))) as Hb
    by reflexivity.
  split; [lia|]. split; [lia|]. split; [lia|].
  split; [exact Hm|]. split; [exact Hb|]. split; [exact Hv|].
  apply (representations_agree 5 5 _ _ _); [lia|lia|lia|exact Hm|exact Hb|exact Hv].
Defined.

(** ** Rendering *)

Section RenderFacts.
Import Screen.

Lemma append_cons a s t : String a s +:+ t = String a (s +:+ t).
Proof. reflexivity. Qed.

Lemma append_empty_l t : "" +:+ t = t.
Proof. reflexivity. Qed.

Lemma append_empty_r s : s +:+ "" = s.
Proof. induction s as [|a s IH]; [done|]. by rewrite append_cons, IH. Qed.

Lemma append_assoc s t u : (s +:+ t) +:+ u = s +:+ (t +:+ u).
Proof. induction s as [|a s IH]; [done|]. by rewrite !append_cons, IH. Qed.

Lemma mentions_append c s t :
  mentions c (s +:+ t) = mentions c s || mentions c t.
Proof.
  induction s as [|a s IH]; [done|].
  rewrite append_cons. simpl. by rewrite IH, orb_assoc.
Qed.

Lemma mentions_times c n s : mentions c s = false -> mentions c (times n s) = false.
Proof.
  intros Hs. induction n as [|n IH]; [done|].
  simpl. by rewrite mentions_append, Hs, IH.
Qed.

(** A string that contains [t] mentions the first character of [t]
    where [t] starts. *)
Lemma contains_after_first c t a s :
  contains (String c t) (String a s) ->
  (a = c /\ begins_with t s) \/ mentions c s = true.
Proof.
  intros (before & after & Heq). destruct before as [|b before].
  - rewrite append_empty_l, append_cons in Heq. injection Heq as -> ->.
    left. split; [done|]. by exists after.
  - right. rewrite append_cons in Heq. injection Heq as -> ->.
    rewrite mentions_append, append_cons. simpl.
    rewrite bool_decide_eq_true_2 by done. by rewrite orb_true_r.
Qed.

Lemma iter_prints k i (s : string) (out : string) :
  Loop.iter k i (fun (_ : Z) out => Some (out +:+ s)) out
  = Some (out +:+ times k s).
Proof.
  revert i out. induction k as [|k IH]; intros i out; simpl.
  - by rewrite append_empty_r.
  - by rewrite IH, append_assoc.
Qed.

Lemma dashes_prints w out :
  Render.dashes w out
  = Some (out +:+ times (Z.to_nat (GoInt.add (GoInt.mul w 2) 1)) "─").
Proof.
  unfold Render.dashes, Loop.for_up. rewrite Z.sub_0_r.
  apply iter_prints.
Qed.

(** Whatever the cells, a frame is [first] followed by text without an
    escape character; it is printed whenever every cell can be read. *)
Lemma frame_prints first w h cell :
  (forall x y, 0 <= x < w -> 0 <= y < h -> is_Some (cell x y)) ->
  exists rest, Render.frame first w h cell = Some (first +:+ rest) /\
    mentions Render.ESC rest = false.
Proof.
  intros Hcell. unfold Render.frame.
  set (P := fun out : string =>
    exists rest, out = first +:+ rest /\ mentions Render.ESC rest = false).
  assert (forall out s, P out -> mentions Render.ESC s = false -> P (out +:+ s))
    as Hprint.
  { intros out s (rest & -> & Hrest) Hs. exists (rest +:+ s).
    split; [by rewrite append_assoc|]. by rewrite mentions_append, Hrest, Hs. }
  assert (forall out, P out -> exists out',
    Render.dashes w out = Some out' /\ P out') as Hdashes.
  { intros out Hout. rewrite dashes_prints. eexists. split; [done|].
    apply Hprint; [done|]. by apply mentions_times. }
  assert (P (first +:+ "┌")) as Htop.
  { exists "┌". by split. }
  destruct (Hdashes _ Htop) as (out1 & -> & Hout1). simpl.
  destruct (for_up_invariant_max (fun _ => P)
    (fun y out =>
       out ← Loop.for_up 0 w (fun x out =>
         c ← cell x y;
         Some ((if c =? 1 then out +:+ "█" else out +:+ " ") +:+ " "))
         (out +:+ "│ ");
       Some (out +:+ "│" +:+ Render.NL))
    0 h (out1 +:+ "┐" +:+ Render.NL)) as (out2 & -> & Hout2).
  { by apply Hprint. }
  { intros y out Hy Hout.
    destruct (for_up_invariant_max (fun _ => P)
      (fun x out =>
         c ← cell x y;
         Some ((if c =? 1 then out +:+ "█" else out +:+ " ") +:+ " "))
      0 w (out +:+ "│ ")) as (out' & -> & Hout').
    - by apply Hprint.
    - intros x o Hx Ho. destruct (Hcell x y Hx Hy) as [c ->]. simpl.
      eexists. split; [done|].
      apply Hprint; [|done]. destruct (c =? 1); by apply Hprint.
    - simpl. eexists. split; [done|]. by apply Hprint. }
  simpl.
  assert (P (out2 +:+ "└")) as Hbot by (by apply Hprint).
  destruct (Hdashes _ Hbot) as (out3 & -> & Hout3). simpl.
  assert (P (out3 +:+ "┘" +:+ Render.NL)) as (rest & -> & Hrest)
    by (by apply Hprint).
  by exists rest.
Qed.

Lemma home_without_clear rest :
  mentions Render.ESC rest = false ->
  begins_with Render.home (Render.home +:+ rest) /\
  ~ contains Render.clear (Render.home +:+ rest).
Proof.
  intros Hrest. split; [by exists rest|].
  unfold Render.home, Render.clear. rewrite append_cons.
  intros [[_ (r & Hr)]|Hm]%contains_after_first.
  - discriminate Hr.
  - rewrite mentions_append, Hrest in Hm. discriminate Hm.
Qed.

End RenderFacts.

(** ** Cache keys *)

Section Keys.
Import Screen.

Lemma digit_not_comma (x : N) : pretty_N_char x <> ","%char.
Proof. unfold pretty_N_char. by repeat case_match. Qed.

Lemma pretty_N_go_no_comma (x : N) s :
  mentions "," s = false -> mentions "," (pretty_N_go x s) = false.
Proof.
  revert s. induction (N.lt_wf_0 x) as [x _ IH]; intros s Hs.
  assert (x = 0 \/ 0 < x)%N as [->|Hpos] by lia.
  - by rewrite pretty_N_go_0.
  - rewrite pretty_N_go_step by done. apply IH.
    + by apply N.div_lt.
    + simpl. rewrite Hs, orb_false_r.
      apply bool_decide_eq_false_2, digit_not_comma.
Qed.

Lemma pretty_N_no_comma (x : N) : mentions "," (pretty x) = false.
Proof.
  unfold pretty, pretty_N. case_decide; [done|].
  by apply pretty_N_go_no_comma.
Qed.

Lemma pretty_Z_no_comma (z : Z) : mentions "," (pretty z) = false.
Proof.
  destruct z as [|p|p]; [done|..].
  - apply pretty_N_no_comma.
  - change (pretty (Z.neg p)) with ("-" +:+ pretty (N.pos p)).
    rewrite mentions_append, pretty_N_no_comma. done.
Qed.

(** Two texts without a comma that agree up to and after a comma. *)
Lemma split_at_comma s1 s2 t1 t2 :
  mentions "," s1 = false -> mentions "," s2 = false ->
  s1 +:+ "," +:+ t1 = s2 +:+ "," +:+ t2 -> s1 = s2 /\ t1 = t2.
Proof.
  revert s2. induction s1 as [|a s1 IH]; intros [|b s2] H1 H2 Heq.
  - rewrite !append_empty_l in Heq. by injection Heq.
  - rewrite append_empty_l, !append_cons in Heq.
    apply orb_false_elim in H2 as [H2%bool_decide_eq_false _].
    by injection Heq as ? _.
  - rewrite append_empty_l, !append_cons in Heq.
    apply orb_false_elim in H1 as [H1%bool_decide_eq_false _].
    by injection Heq as ? _.
  - rewrite !append_cons in Heq. injection Heq as -> Heq.
    simpl in H1, H2. apply orb_false_elim in H1 as [_ H1].
    apply orb_false_elim in H2 as [_ H2].
    destruct (IH s2 H1 H2 Heq) as [-> ->]. done.
Qed.

(** [getCacheKey] tells cells apart. *)
Lemma getCacheKey_inj x y x' y' :
  Cached.getCacheKey x y = Cached.getCacheKey x' y' -> x = x' /\ y = y'.
Proof.
  unfold Cached.getCacheKey. intros Heq.
  apply split_at_comma in Heq as [Hx Hy]; try apply pretty_Z_no_comma.
  split; by apply (inj pretty).
Qed.

End Keys.

(** ** The cached grid *)

Section CachedFacts.
Import GoInt Cached CachedShape.

Lemma cached_inside_spec g x y :
  inside g x y = true <-> 0 <= x < width g /\ 0 <= y < height g.
Proof. apply rows_inside_spec. Qed.

Lemma cached_int_range g x y :
  wf g -> inside g x y = true ->
  is_int (x - 1) /\ is_int (x + 1) /\ is_int (y - 1) /\ is_int (y + 1).
Proof.
  intros (Hw & Hh & _) Hin%cached_inside_spec. unfold is_int in *. lia.
Qed.

Lemma cached_GetCell_value g x y : wf g -> GetCell g x y = Some (value g x y).
Proof.
  intros (_ & _ & Hwf). unfold GetCell, value, inside, RowsShape.value.
  destruct (Rows.inside _ _ x y) eqn:Hin; [|done].
  by destruct (read_inside _ _ _ x y Hwf Hin) as (v & -> & _).
Qed.

(** *** Invalidation *)

Lemma drop_all_true w h l valid k :
  foldl (drop w h) valid l !! k = Some true -> valid !! k = Some true.
Proof.
  revert valid. induction l as [|p l IH]; intros valid; simpl; [done|].
  intros Hk%IH. unfold drop in Hk.
  destruct (Rows.inside w h p.1 p.2); [|done].
  destruct (decide (getCacheKey p.1 p.2 = k)) as [<-|Hne].
  - by rewrite lookup_insert_eq in Hk.
  - by rewrite lookup_insert_ne in Hk.
Qed.

Lemma drop_all_keeps_false w h l valid k :
  valid !! k = Some false -> foldl (drop w h) valid l !! k = Some false.
Proof.
  revert valid. induction l as [|p l IH]; intros valid Hk; simpl; [done|].
  apply IH. unfold drop. destruct (Rows.inside w h p.1 p.2); [|done].
  destruct (decide (getCacheKey p.1 p.2 = k)) as [<-|Hne].
  - by rewrite lookup_insert_eq.
  - by rewrite lookup_insert_ne.
Qed.

Lemma drop_all_false w h l valid p :
  p ∈ l -> Rows.inside w h p.1 p.2 = true ->
  foldl (drop w h) valid l !! getCacheKey p.1 p.2 = Some false.
Proof.
  revert valid. induction l as [|q l IH]; intros valid Hp Hin.
  { by apply elem_of_nil in Hp. }
  apply elem_of_cons in Hp as [->|Hp]; simpl.
  - apply drop_all_keeps_false. unfold drop. rewrite Hin.
    apply lookup_insert_eq.
  - by apply IH.
Qed.

Lemma drop_all_other w h l valid k :
  (forall p, p ∈ l -> Rows.inside w h p.1 p.2 = true ->
     getCacheKey p.1 p.2 <> k) ->
  foldl (drop w h) valid l !! k = valid !! k.
Proof.
  revert valid. induction l as [|q l IH]; intros valid Hk; simpl; [done|].
  rewrite IH by (intros; apply Hk; [apply elem_of_cons; by right|done]).
  unfold drop. destruct (Rows.inside w h q.1 q.2) eqn:Hin; [|done].
  apply lookup_insert_ne. apply Hk; [apply elem_of_cons; by left|done].
Qed.

Lemma invalidate_flags g x y :
  is_int (x - 1) -> is_int (x + 1) -> is_int (y - 1) -> is_int (y + 1) ->
  invalidateNeighborCache g x y
  = Some (mkGrid (width g) (height g) (cells g) (neighborCache g)
            (foldl (drop (width g) (height g)) (cacheValid g) (block x y))).
Proof.
  intros Hx1 Hx2 Hy1 Hy2.
  assert (is_int x /\ is_int y) as [Hx Hy] by (unfold is_int in *; lia).
  unfold invalidateNeighborCache.
  assert (forall dx dy g', -1 <= dx <= 1 -> -1 <= dy <= 1 ->
    (let newX := add x dx in
     let newY := add y dy in
     if inside g' newX newY then
       let key := getCacheKey newX newY in
       Some (mkGrid (width g') (height g') (cells g')
               (neighborCache g') (<[key := false]> (cacheValid g')))
     else Some g')
    = Some (mkGrid (width g') (height g') (cells g') (neighborCache g')
              (drop (width g') (height g') (cacheValid g') (x + dx, y + dy))))
    as Hstep.
  { intros dx dy g' Hdx Hdy. cbn zeta.
    rewrite !add_small by (unfold is_int in *; lia).
    unfold drop, inside. simpl.
    destruct (Rows.inside _ _ (x + dx) (y + dy)); [done|by destruct g']. }
  rewrite around_unfold.
  repeat (rewrite Hstep by lia; simpl).
  rewrite !Z.add_0_r. done.
Qed.

End CachedFacts.

Section CachedCells.
Import GoInt Cached CachedShape.

(** The sum looks at the Moore neighbours only. *)
Lemma neighbor_sum_moore w h (c1 c2 : Z -> Z -> Z) x y :
  (forall p, p ∈ Life.moore x y -> Rows.inside w h p.1 p.2 = true ->
     c1 p.1 p.2 = c2 p.1 p.2) ->
  Life.neighbor_sum w h c1 x y = Life.neighbor_sum w h c2 x y.
Proof.
  intros Hext. unfold Life.neighbor_sum.
  generalize 0. revert Hext. generalize (Life.moore x y).
  intros l. induction l as [|p l IH]; intros Hext a; simpl; [done|].
  rewrite IH by (intros; apply Hext; [apply elem_of_cons; by right|done]).
  do 2 f_equal. unfold Life.clipped.
  destruct (Rows.inside w h p.1 p.2) eqn:Hin; [|done].
  apply Hext; [apply elem_of_cons; by left|done].
Qed.

Lemma moore_block x y x' y' :
  (x, y) ∈ Life.moore x' y' -> (x', y') ∈ block x y.
Proof.
  unfold Life.moore, block. rewrite !elem_of_cons, !elem_of_nil.
  intros H.
  repeat (destruct H as [[= -> ->]|H];
    [repeat (first [left; f_equal; lia | right])|]).
  done.
Qed.

Lemma moore_in_block x y p : p ∈ Life.moore x y -> p ∈ block x y.
Proof.
  unfold Life.moore, block. rewrite !elem_of_cons, !elem_of_nil. tauto.
Qed.

Lemma block_near x y p :
  p ∈ block x y <-> x - 1 <= p.1 <= x + 1 /\ y - 1 <= p.2 <= y + 1.
Proof.
  destruct p as [a b]. unfold block. rewrite !elem_of_cons, !elem_of_nil.
  simpl. split.
  - intros H. repeat (destruct H as [[= -> ->]|H]; [lia|]). done.
  - intros [Ha Hb].
    assert (a = x - 1 \/ a = x \/ a = x + 1) as Ha' by lia.
    assert (b = y - 1 \/ b = y \/ b = y + 1) as Hb' by lia.
    destruct Ha' as [->|[->| ->]]; destruct Hb' as [->|[->| ->]]; tauto.
Qed.

Lemma cached_fresh_ext g g' x y :
  width g' = width g -> height g' = height g ->
  (forall p, p ∈ Life.moore x y -> value g' p.1 p.2 = value g p.1 p.2) ->
  fresh g' x y = fresh g x y.
Proof.
  intros Hw Hh Hext. unfold fresh. rewrite Hw, Hh.
  apply neighbor_sum_moore. intros. by apply Hext.
Qed.

Lemma cached_uncached_scan g x y :
  wf g -> inside g x y = true ->
  Bytes2D.scanForLifeforms (uncached g) x y = Some (fresh g x y).
Proof. intros Hwf Hin. by apply (bytes_scan (uncached g)). Qed.

Lemma cached_SetCell g x y v :
  wf g -> cache_ok g -> is_byte v ->
  exists g', SetCell g x y v = Some g' /\ wf g' /\ cache_ok g' /\
    width g' = width g /\ height g' = height g.
Proof.
  intros Hwf Hok Hv. unfold SetCell.
  destruct (inside g x y) eqn:Hin; [|by exists g].
  destruct Hwf as (Hiw & Hih & Hrows).
  destruct (read_value _ _ _ x y Hrows Hin) as [-> _]. simpl.
  destruct (write_inside _ _ _ x y v Hrows Hin Hv)
    as (cells' & -> & Hrows' & Hread & Hrest). simpl.
  set (g1 := mkGrid (width g) (height g) cells' (neighborCache g) (cacheValid g)).
  assert (wf g1) as Hwf1 by done.
  assert (forall a b, (a, b) <> (x, y) -> value g1 a b = value g a b) as Hval.
  { intros a b Hne. by apply (value_write _ _ _ _ x y). }
  fold (value g x y).
  destruct (Z.eqb_spec (value g x y) v) as [Heq|Hne]; simpl.
  - exists g1. split_and!; try done.
    assert (forall a b, value g1 a b = value g a b) as Hsame.
    { intros a b. destruct (decide ((a, b) = (x, y))) as [[= -> ->]|?];
        [|by apply Hval].
      rewrite Heq. unfold value, RowsShape.value. simpl.
      unfold inside in Hin. by rewrite Hin, Hread. }
    intros a b Hab. destruct (Hok a b Hab) as [Hina Hcache].
    split; [done|]. simpl. rewrite Hcache. symmetry.
    apply cached_fresh_ext; try done; intros; apply Hsame.
  - destruct (cached_int_range g x y ltac:(done) Hin) as (? & ? & ? & ?).
    rewrite invalidate_flags by done.
    eexists. split; [done|]. split_and!; try done.
    intros a b Hab. cbn [cacheValid neighborCache width height cells g1] in *.
    pose proof (drop_all_true _ _ _ _ _ Hab) as Hab'.
    destruct (Hok a b Hab') as [Hina Hcache].
    split; [done|]. rewrite Hcache. symmetry.
    apply (cached_fresh_ext g g1); try done.
    intros [p q] Hp. simpl. apply Hval. intros [= -> ->].
    apply moore_block in Hp.
    rewrite (drop_all_false _ _ _ _ (a, b) Hp Hina) in Hab. done.
Qed.

Lemma cached_scan g x y :
  wf g -> inside g x y = true ->
  exists g' n, scanForLifeforms g x y = Some (g', n) /\
    width g' = width g /\ height g' = height g /\ cells g' = cells g /\
    (cache_ok g -> cache_ok g' /\ n = fresh g x y).
Proof.
  intros Hwf Hin. unfold scanForLifeforms. case_decide as Hvalid.
  - exists g. eexists. split_and!; try done.
    intros Hok. split; [done|]. by destruct (Hok x y Hvalid) as [_ ->].
  - destruct (cached_int_range g x y Hwf Hin) as (? & ? & ? & ?).
    match goal with
    | |- context [Loop.around ?body 0] =>
        replace (Loop.around body 0) with (Some (fresh g x y))
    end.
    2:{ symmetry.
        apply (around_scan (width g) (height g) (Rows.read (cells g)) (value g));
          try done.
        intros; apply read_value; [apply Hwf|done]. }
    simpl. eexists _, _. split_and!; try done.
    intros Hok. split; [|done].
    intros a b Hab. simpl in *.
    destruct (decide (getCacheKey x y = getCacheKey a b)) as [Hk|Hk].
    + apply getCacheKey_inj in Hk as [<- <-]. split; [done|].
      by rewrite lookup_insert_eq.
    + rewrite lookup_insert_ne in Hab by done.
      rewrite lookup_insert_ne by done. by apply Hok.
Qed.

End CachedCells.

(** *** The two passes of [BoldlyGo] *)

Section CachedPasses.
Import GoInt Cached CachedShape CachedPass.

Lemma cached_same_cells g g' :
  width g' = width g -> height g' = height g -> cells g' = cells g ->
  (wf g -> wf g') /\ (forall x y, value g' x y = value g x y) /\
  (forall x y, fresh g' x y = fresh g x y) /\
  (forall x y, inside g' x y = inside g x y).
Proof.
  intros Hw Hh Hc. unfold wf, value, fresh, inside. rewrite Hw, Hh, Hc.
  split_and!; try done.
  intros x y. apply neighbor_sum_ext. intros. unfold value.
  by rewrite Hw, Hh, Hc.
Qed.

Lemma nextState_byte cur n : is_byte cur -> is_byte (nextState cur n).
Proof.
  unfold nextState, is_byte. intros. repeat case_match; lia.
Qed.

Lemma rulePass_progress g ng0 :
  wf g -> wf ng0 -> width ng0 = width g -> height ng0 = height g ->
  neighborCache ng0 = ∅ -> cacheValid ng0 = ∅ ->
  exists p, rulePass (mkPass g ng0 ∅) = Some p /\
    rule_progress g (height g) 0 p.
Proof.
  intros Hwf Hwf0 Hw0 Hh0 Hn0 Hv0. unfold rulePass. simpl.
  assert (Slice.len (cells g) = height g) as -> by apply Hwf.
  destruct (for_up_invariant_max (fun y => rule_progress g y 0)
    (fun y p =>
       row ← Slice.index (cells (source p)) y;
       Loop.for_up 0 (Slice.len row) (fun x p =>
         '(grid, lifeformCount) ← scanForLifeforms (source p) x y;
         currentState ← Rows.read (cells grid) x y;
         let newState := nextState currentState lifeformCount in
         cells' ← Rows.write (cells (target p)) x y newState;
         let nextGen := mkGrid (width (target p)) (height (target p)) cells'
                          (neighborCache (target p)) (cacheValid (target p)) in
         let changedCells :=
           if negb (currentState =? newState)
           then <[getCacheKey x y := true]> (changed p)
           else changed p in
         Some (mkPass grid nextGen changedCells)) p)
    0 (height g) (mkPass g ng0 ∅)) as (p & Hrun & Hp).
  - split_and!; try done. intros Hok. split; [done|].
    intros x' y' Hin%cached_inside_spec. lia.
  - intros y p Hy ((Hsw & Hsh & Hsc) & Htarget & Hcache).
    rewrite Hsc.
    destruct (index_in_range (cells g) y) as [row Hrow].
    { by replace (Slice.len (cells g)) with (height g)
        by (symmetry; apply Hwf). }
    rewrite Hrow. simpl. apply index_Some in Hrow as [_ Hrow].
    destruct (wf_row _ _ _ _ _ (proj2 (proj2 Hwf)) Hrow) as [-> _].
    destruct (for_up_invariant_max (rule_progress g y)
      (fun x p =>
         '(grid, lifeformCount) ← scanForLifeforms (source p) x y;
         currentState ← Rows.read (cells grid) x y;
         let newState := nextState currentState lifeformCount in
         cells' ← Rows.write (cells (target p)) x y newState;
         let nextGen := mkGrid (width (target p)) (height (target p)) cells'
                          (neighborCache (target p)) (cacheValid (target p)) in
         let changedCells :=
           if negb (currentState =? newState)
           then <[getCacheKey x y := true]> (changed p)
           else changed p in
         Some (mkPass grid nextGen changedCells))
      0 (width g) p) as (p' & Hrun & Hp').
    + done.
    + clear p Hsw Hsh Hsc Htarget Hcache.
      intros x p Hx ((Hsw & Hsh & Hsc) & (Hwt & Htw & Hth & Htn & Htv) & Hcache).
      assert (inside g x y = true) as Hin by (apply cached_inside_spec; lia).
      destruct (cached_same_cells g (source p) Hsw Hsh Hsc)
        as (Hswf & Hsval & Hsfresh & Hsin).
      destruct (cached_scan (source p) x y (Hswf Hwf))
        as (grid & n & -> & Hgw & Hgh & Hgc & Hgok);
        [by rewrite Hsin|]. simpl.
      rewrite Hgc, Hsc.
      destruct (read_value _ _ _ x y (proj2 (proj2 Hwf)) Hin) as [-> Hbyte].
      fold (value g x y). simpl.
      assert (Rows.inside (width (target p)) (height (target p)) x y = true)
        as Hint by (by rewrite Htw, Hth).
      destruct (write_inside _ _ _ x y (nextState (value g x y) n)
        (proj2 (proj2 Hwt)) Hint (nextState_byte _ n Hbyte))
        as (cells' & -> & Hrows' & Hread & Hrest). simpl.
      eexists. split; [done|]. unfold rule_progress. simpl.
      split; [split_and!; congruence|].
      split.
      { split_and!; try done. destruct Hwt as (? & ? & ?).
        unfold wf. simpl. by split_and!. }
      intros Hok. destruct (Hcache Hok) as [Hsok Hdone].
      destruct (Hgok Hsok) as [Hgok' ->]. split; [done|].
      rewrite Hsfresh in *.
      intros x' y' Hin' Hbefore.
      destruct (decide ((x', y') = (x, y))) as [[= -> ->]|Hne].
      * split.
        -- unfold value at 1, RowsShape.value.
           cbn [width height cells]. by rewrite Hint, Hread.
        -- intros Hch. destruct (Z.eqb_spec (value g x y)
             (nextState (value g x y) (fresh g x y))) as [Heq|_]; [congruence|].
           simpl. apply lookup_insert_eq.
      * assert (y' < y \/ y' = y /\ x' < x) as Hb.
        { destruct Hbefore as [?|[-> ?]]; [by left|right].
          split; [done|]. assert (x' <> x) by congruence. lia. }
        destruct (Hdone x' y' Hin' Hb) as [Hv Hc]. split.
        -- rewrite <-Hv. unfold value. simpl. by apply (value_write _ _ _ _ x y).
        -- intros Hch. specialize (Hc Hch).
           destruct (negb _); [|done].
           destruct (decide (getCacheKey x y = getCacheKey x' y')) as [->|?].
           ++ apply lookup_insert_eq.
           ++ by rewrite lookup_insert_ne.
    + exists p'. split; [done|].
      destruct Hp' as (? & ? & Hc). split; [done|]. split; [done|].
      intros Hok. destruct (Hc Hok) as [? Hdone]. split; [done|].
      intros x' y' Hin' Hb. apply Hdone; [done|].
      apply cached_inside_spec in Hin'. lia.
  - exists p. split; [done|].
    destruct Hp as (? & ? & Hc). split; [done|]. split; [done|].
    intros Hok. destruct (Hc Hok) as [? Hdone]. split; [done|].
    intros x' y' Hin' Hb. apply Hdone; [done|].
    apply cached_inside_spec in Hin'. lia.
Qed.

End CachedPasses.

Section CachedCarry.
Import GoInt Cached CachedShape CachedPass.

Lemma hasChangedNeighbor_false changedCells x y :
  is_int (x - 1) -> is_int (x + 1) -> is_int (y - 1) -> is_int (y + 1) ->
  hasChangedNeighbor changedCells x y = false ->
  forall p, p ∈ Life.moore x y ->
    changedCells !! getCacheKey p.1 p.2 <> Some true.
Proof.
  intros Hx1 Hx2 Hy1 Hy2.
  assert (is_int x /\ is_int y) as [Hx Hy] by (unfold is_int in *; lia).
  unfold hasChangedNeighbor. simpl.
  rewrite !(add_small x), !(add_small y) by (by rewrite ?Z.add_0_r).
  rewrite !Z.add_0_r, !orb_false_r.
  change (x + -1) with (x - 1). change (y + -1) with (y - 1).
  intros H p Hp.
  rewrite !orb_false_iff in H. destruct_and!.
  unfold Life.moore in Hp. rewrite !elem_of_cons, elem_of_nil in Hp.
  intros Hch.
  repeat (destruct Hp as [->|Hp]; [simpl in Hch; rewrite Hch in *; done|]).
  done.
Qed.

Lemma carryPass_keeps g grid changedCells ng0 :
  wf g -> wf ng0 -> width ng0 = width g -> height ng0 = height g ->
  width grid = width g -> height grid = height g -> cells grid = cells g ->
  neighborCache ng0 = ∅ -> cacheValid ng0 = ∅ ->
  exists ng, carryPass grid changedCells ng0 = Some ng /\
    width ng = width g /\ height ng = height g /\ cells ng = cells ng0 /\
    (cache_ok grid ->
     (forall x y, inside g x y = true ->
        value ng0 x y <> value g x y ->
        changedCells !! getCacheKey x y = Some true) ->
     cache_ok ng).
Proof.
  intros Hwf Hwf0 Hw0 Hh0 Hgw Hgh Hgc Hn0 Hv0. unfold carryPass.
  rewrite Hgw, Hgh.
  set (K := fun ng : Grid =>
    width ng = width g /\ height ng = height g /\ cells ng = cells ng0 /\
    (cache_ok grid ->
     (forall x y, inside g x y = true ->
        value ng0 x y <> value g x y ->
        changedCells !! getCacheKey x y = Some true) ->
     cache_ok ng)).
  destruct (cached_same_cells g grid Hgw Hgh Hgc) as (_ & _ & Hgfresh & _).
  destruct (for_up_invariant_max (fun _ => K)
    (fun y => Loop.for_up 0 (width g) (fun x nextGen =>
       let key := getCacheKey x y in
       if negb (hasChangedNeighbor changedCells x y)
          && default false (cacheValid grid !! key) then
         Some (mkGrid (width nextGen) (height nextGen) (cells nextGen)
                 (<[key := default 0 (neighborCache grid !! key)]>
                    (neighborCache nextGen))
                 (<[key := true]> (cacheValid nextGen)))
       else Some nextGen))
    0 (height g) ng0) as (ng & Hrun & Hng).
  - unfold K. split_and!; try done. intros _ _ x y Hxy.
    by rewrite Hv0, lookup_empty in Hxy.
  - intros y ng Hy Hng.
    apply (for_up_invariant_max (fun _ => K)); [done|].
    clear ng Hng. intros x ng Hx (Hw & Hh & Hc & Hok).
    assert (inside g x y = true) as Hin by (apply cached_inside_spec; lia).
    cbn zeta.
    destruct (negb (hasChangedNeighbor changedCells x y)) eqn:Hnb; simpl;
      [|by exists ng].
    destruct (cacheValid grid !! getCacheKey x y) as [[|]|] eqn:Hvalid; simpl;
      try (by exists ng).
    eexists. split; [done|]. unfold K. simpl. split_and!; try done.
    intros Hgok Hchanged a b Hab.
    destruct (decide (getCacheKey x y = getCacheKey a b)) as [Hk|Hk].
    + apply getCacheKey_inj in Hk as [<- <-].
      split; [unfold inside; simpl; by rewrite Hw, Hh|].
      cbn [neighborCache]. rewrite lookup_insert_eq.
      cbn [default from_option id].
      destruct (Hgok x y Hvalid) as [_ ->]. rewrite Hgfresh.
      symmetry. apply cached_fresh_ext; try done.
      intros p Hp.
      match goal with
      | |- value ?new _ _ = _ =>
          destruct (cached_same_cells ng0 new) as (_ & -> & _);
            [simpl; congruence..|]
      end.
      destruct (decide (value ng0 p.1 p.2 = value g p.1 p.2)) as [|Hne];
        [done|].
      exfalso.
      destruct (cached_int_range g x y Hwf Hin) as (? & ? & ? & ?).
      apply negb_true_iff in Hnb.
      apply (hasChangedNeighbor_false changedCells x y) with (p := p); try done.
      apply Hchanged; [|done].
      destruct (inside g p.1 p.2) eqn:Hinp; [done|]. exfalso. apply Hne.
      unfold value, RowsShape.value. rewrite Hw0, Hh0.
      unfold inside in Hinp. by rewrite Hinp.
    + cbn [cacheValid] in Hab. rewrite lookup_insert_ne in Hab by done.
      destruct (Hok Hgok Hchanged a b Hab) as [Hina Hcache].
      split; [done|]. cbn [neighborCache].
      rewrite lookup_insert_ne by done. rewrite Hcache.
      apply cached_fresh_ext; done.
  - exists ng. split; [done|]. apply Hng.
Qed.

(** Both grids [BoldlyGo] leaves behind. *)
Lemma cached_BoldlyGo g :
  wf g ->
  exists g1 g2, BoldlyGo g = Some (g1, g2) /\
    (width g1 = width g /\ height g1 = height g /\ cells g1 = cells g) /\
    (wf g2 /\ width g2 = width g /\ height g2 = height g) /\
    (cache_ok g ->
     cache_ok g1 /\ cache_ok g2 /\
     forall x y, inside g x y = true ->
       value g2 x y = nextState (value g x y) (fresh g x y)).
Proof.
  intros Hwf. unfold BoldlyGo.
  destruct (bytes_NewGrid_wf (uncached g) Hwf) as (b0 & Hb0 & Hbwf & Hbw & Hbh).
  unfold Bytes2D.NewGrid in Hb0. unfold NewGrid. simpl in *.
  destruct (Rows.alloc (width g) (height g)) as [rows|]; [|done].
  simpl in *. injection Hb0 as <-. simpl in *.
  set (ng0 := mkGrid (width g) (height g) rows ∅ ∅).
  destruct (rulePass_progress g ng0) as (p & -> & Hs & Ht & Hc); try done.
  simpl. destruct Hs as (Hsw & Hsh & Hsc).
  destruct Ht as (Hwt & Htw & Hth & Htn & Htv).
  destruct (carryPass_keeps g (source p) (changed p) (target p))
    as (ng & -> & Hnw & Hnh & Hnc & Hnok); try done.
  simpl. eexists _, _. split; [done|]. split; [done|].
  destruct (cached_same_cells (target p) ng) as (Hnwf & Hnval & _ & _);
    try congruence.
  split; [split_and!; try done; by apply Hnwf|].
  intros Hok. destruct (Hc Hok) as [Hsok Hdone].
  assert (forall x y, inside g x y = true ->
    value (target p) x y = nextState (value g x y) (fresh g x y) /\
    (nextState (value g x y) (fresh g x y) <> value g x y ->
     changed p !! getCacheKey x y = Some true)) as Hall.
  { intros x y Hin. apply Hdone; [done|].
    apply cached_inside_spec in Hin. lia. }
  split_and!; try done.
  - apply Hnok; [done|]. intros x y Hin Hne.
    destruct (Hall x y Hin) as [Hv Hch]. apply Hch. by rewrite <-Hv.
  - intros x y Hin. rewrite Hnval. by apply Hall.
Qed.

End CachedCarry.

(** ** The cache *)

Section CacheClaims.
Import GoInt Cached CachedShape.

Lemma cached_NewGrid_Some w h g :
  is_int w -> is_int h -> NewGrid w h = Some g ->
  wf g /\ cache_ok g /\ width g = w /\ height g = h.
Proof.
  intros Hw Hh. unfold NewGrid.
  destruct (Rows.alloc w h) as [rows|] eqn:Halloc; [|done].
  simpl. intros [= <-]. split; [|split; [|done]].
  - unfold wf. simpl. split_and!; try done. by apply wf_alloc.
  - intros x y Hxy. simpl in Hxy. by rewrite lookup_empty in Hxy.
Qed.

(** Every grid a program can hold is well-formed, with a sound cache. *)
Lemma reachable_sound g : reachable g -> wf g /\ cache_ok g.
Proof.
  induction 1 as [w h g Hw Hh Hnew
                 |g x y v g' _ [Hwf Hok] _ _ Hv Hset
                 |g g1 g2 _ [Hwf Hok] Hgo
                 |g g1 g2 _ [Hwf Hok] Hgo].
  - by destruct (cached_NewGrid_Some w h g Hw Hh Hnew) as (? & ? & _).
  - destruct (cached_SetCell g x y v Hwf Hok Hv) as (g'' & Hset' & ? & ? & _).
    by simplify_eq.
  - destruct (cached_BoldlyGo g Hwf)
      as (g1' & g2' & Hgo' & (Hw1 & Hh1 & Hc1) & _ & Hcache).
    simplify_eq. destruct (Hcache Hok) as (? & _).
    split; [|done]. by apply (cached_same_cells g g1).
  - destruct (cached_BoldlyGo g Hwf)
      as (g1' & g2' & Hgo' & _ & (? & _) & Hcache).
    simplify_eq. by destruct (Hcache Hok) as (_ & ? & _).
Qed.

End CacheClaims.

(** C2. In every grid reachable by [NewGrid] followed by [SetCell] and
    [BoldlyGo] calls (as the receiver or as the next generation, whose
    cache holds the entries carried forward), at every in-bounds
    coordinate [scanForLifeforms] returns the count that the uncached
    scan of the current cells returns; where the entry is valid, that
    count is the cached one. *)
Theorem cached_scan_equals_fresh_scan (g : Cached.Grid) (x y : Z) :
  CachedShape.reachable g -> Cached.inside g x y = true ->
  exists g' n,
    Cached.scanForLifeforms g x y = Some (g', n) /\
    Bytes2D.scanForLifeforms (CachedShape.uncached g) x y = Some n /\
    (Cached.cacheValid g !! Cached.getCacheKey x y = Some true ->
     n = default 0 (Cached.neighborCache g !! Cached.getCacheKey x y)).
Proof.
  intros [Hwf Hok]%reachable_sound Hin.
  destruct (cached_scan g x y Hwf Hin) as (g' & n & Hscan & _ & _ & _ & Hn).
  destruct (Hn Hok) as [_ ->].
  exists g', (CachedShape.fresh g x y). split_and!; try done.
  - by apply cached_uncached_scan.
  - intros Hvalid. by destruct (Hok x y Hvalid) as [_ ->].
Qed.

Lemma second_step_reachable :
  CachedShape.reachable CachedExamples.second_step.2.
Proof.
  assert (GoInt.is_int 1 /\ GoInt.is_int 2 /\
          GoInt.is_int 3 /\ GoInt.is_int 5 /\ GoInt.is_byte 1)
    as (? & ? & ? & ? & ?) by (unfold GoInt.is_int, GoInt.is_byte; lia).
  assert (CachedShape.reachable CachedExamples.board) as R0.
  { apply (CachedShape.reach_NewGrid 5 5); [assumption..|].
    vm_compute. reflexivity. }
  assert (CachedShape.reachable CachedExamples.one) as R1.
  { apply (CachedShape.reach_SetCell CachedExamples.board 1 2 1);
      [assumption..|]. vm_compute. reflexivity. }
  assert (CachedShape.reachable CachedExamples.two) as R2.
  { apply (CachedShape.reach_SetCell CachedExamples.one 2 2 1);
      [assumption..|]. vm_compute. reflexivity. }
  assert (CachedShape.reachable CachedExamples.blinker) as R3.
  { apply (CachedShape.reach_SetCell CachedExamples.two 3 2 1);
      [assumption..|]. vm_compute. reflexivity. }
  assert (CachedShape.reachable CachedExamples.first_step.2) as R4.
  { apply (CachedShape.reach_nextGen CachedExamples.blinker
             CachedExamples.first_step.1); [assumption|].
    vm_compute. reflexivity. }
  apply (CachedShape.reach_nextGen CachedExamples.first_step.2
           CachedExamples.second_step.1); [assumption|].
  vm_compute. reflexivity.
Defined.

Lemma cached_scan_equals_fresh_scan_witness :
  CachedShape.reachable CachedExamples.second_step.2 /\
  Cached.inside CachedExamples.second_step.2 0 0 = true /\
  exists g' n,
    Cached.scanForLifeforms CachedExamples.second_step.2 0 0 = Some (g', n) /\
    Bytes2D.scanForLifeforms
      (CachedShape.uncached CachedExamples.second_step.2) 0 0 = Some n /\
    (Cached.cacheValid CachedExamples.second_step.2
       !! Cached.getCacheKey 0 0 = Some true ->
     n = default 0 (Cached.neighborCache CachedExamples.second_step.2
                      !! Cached.getCacheKey 0 0)).
Proof.
  split; [apply second_step_reachable|].
  split; [vm_compute; reflexivity|].
  apply (cached_scan_equals_fresh_scan CachedExamples.second_step.2 0 0).
  - apply second_step_reachable.
  - vm_compute; reflexivity.
Defined.

(** C4. [BoldlyGo] leaves the cells of its receiver as they were: the
    receiver after the call has the width, the height and the cells it
    had before, only its caches may have been filled; the next
    generation is a grid of its own. *)
Theorem boldlygo_keeps_source_cells (g : Cached.Grid) :
  CachedShape.wf g ->
  exists g1 g2,
    Cached.BoldlyGo g = Some (g1, g2) /\
    Cached.width g1 = Cached.width g /\
    Cached.height g1 = Cached.height g /\
    Cached.cells g1 = Cached.cells g /\
    forall x y, Cached.GetCell g1 x y = Cached.GetCell g x y.
Proof.
  intros Hwf.
  destruct (cached_BoldlyGo g Hwf) as (g1 & g2 & Hgo & (Hw & Hh & Hc) & _).
  exists g1, g2. split_and!; try done.
  intros x y. unfold Cached.GetCell, Cached.inside. by rewrite Hw, Hh, Hc.
Qed.

Lemma blinker_cached_wf :
  CachedShape.wf (Cached.mkGrid 5 5 Examples.blinker_rows ∅ ∅).
Proof.
  unfold CachedShape.wf, GoInt.is_int. simpl.
  split; [lia|]. split; [lia|]. apply blinker_rows_wf.
Defined.

Lemma boldlygo_keeps_source_cells_witness :
  CachedShape.wf (Cached.mkGrid 5 5 Examples.blinker_rows ∅ ∅) /\
  exists g1 g2,
    Cached.BoldlyGo (Cached.mkGrid 5 5 Examples.blinker_rows ∅ ∅)
      = Some (g1, g2) /\
    Cached.width g1 = 5 /\ Cached.height g1 = 5 /\
    Cached.cells g1 = Examples.blinker_rows /\
    forall x y, Cached.GetCell g1 x y
      = Cached.GetCell (Cached.mkGrid 5 5 Examples.blinker_rows ∅ ∅) x y.
Proof.
  split; [apply blinker_cached_wf|].
  apply (boldlygo_keeps_source_cells
           (Cached.mkGrid 5 5 Examples.blinker_rows ∅ ∅)).
  apply blinker_cached_wf.
Defined.

(** C5. [SetCell] at an in-bounds coordinate: writing the value the cell
    already holds leaves every validity flag as it was; writing another
    value sets the flag of the cell and of each of its in-bounds Moore
    neighbours to invalid. *)
Theorem setcell_invalidates_on_change (g : Cached.Grid) (x y v : Z) :
  CachedShape.wf g -> Cached.inside g x y = true -> GoInt.is_byte v ->
  exists old g',
    Cached.GetCell g x y = Some old /\
    Cached.SetCell g x y v = Some g' /\
    (v = old -> Cached.cacheValid g' = Cached.cacheValid g) /\
    (v <> old ->
     forall p, p ∈ CachedShape.block x y ->
       Cached.inside g p.1 p.2 = true ->
       Cached.cacheValid g' !! Cached.getCacheKey p.1 p.2 = Some false).
Proof.
  intros Hwf Hin Hv. exists (CachedShape.value g x y).
  rewrite cached_GetCell_value by done.
  unfold Cached.SetCell. rewrite Hin.
  destruct (read_value _ _ _ x y (proj2 (proj2 Hwf)) Hin) as [-> _].
  fold (CachedShape.value g x y). simpl.
  destruct (write_inside _ _ _ x y v (proj2 (proj2 Hwf)) Hin Hv)
    as (cells' & -> & _ & _ & _). simpl.
  destruct (Z.eqb_spec (CachedShape.value g x y) v) as [Heq|Hne]; simpl.
  - eexists. split_and!; try done; congruence.
  - destruct (cached_int_range g x y Hwf Hin) as (? & ? & ? & ?).
    rewrite invalidate_flags by done.
    eexists. split_and!; try done.
    intros _ p Hp Hinp. cbn [Cached.cacheValid Cached.width Cached.height].
    by apply drop_all_false.
Qed.

Lemma setcell_invalidates_on_change_witness :
  CachedShape.wf (Cached.mkGrid 5 5 Examples.blinker_rows ∅ ∅) /\
  Cached.inside (Cached.mkGrid 5 5 Examples.blinker_rows ∅ ∅) 0 2 = true /\
  GoInt.is_byte 1 /\
  exists old g',
    Cached.GetCell (Cached.mkGrid 5 5 Examples.blinker_rows ∅ ∅) 0 2
      = Some old /\
    Cached.SetCell (Cached.mkGrid 5 5 Examples.blinker_rows ∅ ∅) 0 2 1
      = Some g' /\
    (1 = old -> Cached.cacheValid g' = ∅) /\
    (1 <> old ->
     forall p, p ∈ CachedShape.block 0 2 ->
       Cached.inside (Cached.mkGrid 5 5 Examples.blinker_rows ∅ ∅) p.1 p.2
         = true ->
       Cached.cacheValid g' !! Cached.getCacheKey p.1 p.2 = Some false).
Proof.
  assert (GoInt.is_byte 1) as Hb by (unfold GoInt.is_byte; lia).
  split; [apply blinker_cached_wf|]. split; [reflexivity|].
  split; [exact Hb|].
  apply (setcell_invalidates_on_change
           (Cached.mkGrid 5 5 Examples.blinker_rows ∅ ∅) 0 2 1).
  - apply blinker_cached_wf.
  - reflexivity.
  - exact Hb.
Defined.

(** ** The bytes of the next generation *)

Section NextBytes.
Import GoInt.

(** The uncached [BoldlyGo] writes 0 or 1 into every cell, whatever
    bytes the source holds. *)
Lemma bytes_BoldlyGo_binary (g : Bytes2D.Grid) :
  Bytes2DShape.wf g ->
  exists g', Bytes2D.BoldlyGo g = Some g' /\
    Bytes2D.width g' = Bytes2D.width g /\
    Bytes2D.height g' = Bytes2D.height g /\
    Observe.binary (Bytes2D.cells g').
Proof.
  intros Hwf.
  destruct (bytes_BoldlyGo g Hwf) as (g' & Hgo & Hwf' & Hw & Hh & Hcells).
  exists g'. split_and!; try done.
  unfold Observe.binary. apply Forall_lookup. intros j row Hrow.
  apply Forall_lookup. intros i v Hv.
  destruct Hwf' as (_ & _ & Hlen & Hrows).
  destruct (wf_row _ _ _ _ _ (conj Hlen Hrows) Hrow) as [Hlenr _].
  apply lookup_lt_Some in Hrow as Hj. apply lookup_lt_Some in Hv as Hi.
  unfold Slice.len in *.
  assert (Rows.inside (Bytes2D.width g) (Bytes2D.height g)
            (Z.of_nat i) (Z.of_nat j) = true) as Hin.
  { apply rows_inside_spec. lia. }
  specialize (Hcells _ _ Hin).
  assert (Bytes2DShape.value g' (Z.of_nat i) (Z.of_nat j) = v) as Hval.
  { unfold Bytes2DShape.value, RowsShape.value.
    rewrite Hw, Hh, Hin. unfold Rows.read.
    rewrite index_lookup, Nat2Z.id, Hrow by lia. simpl.
    by rewrite index_lookup, Nat2Z.id, Hv by lia. }
  rewrite <-Hval, Hcells. apply next_state_binary.
Qed.

End NextBytes.

(** C10. The grid [BoldlyGo] returns has the dimensions of the source
    and, whatever bytes the source holds, only cells that are 0 or 1.
    The cached [BoldlyGo] does not do so: on the one-cell grid holding
    the byte 2 (made by [NewGrid(1, 1)] and [SetCell(0, 0, 2)]) it
    returns a grid whose cell is 2, where the uncached [BoldlyGo]
    returns a grid whose cell is 0. *)
Theorem cached_boldlygo_keeps_stray_byte :
  Cached.NewGrid 1 1 = Some CachedExamples.cell /\
  Cached.SetCell CachedExamples.cell 0 0 2 = Some CachedExamples.stray /\
  (exists g1 g2,
     Cached.BoldlyGo CachedExamples.stray = Some (g1, g2) /\
     Cached.GetCell g2 0 0 = Some 2) /\
  (exists g',
     Bytes2D.BoldlyGo (CachedShape.uncached CachedExamples.stray) = Some g' /\
     Bytes2D.GetCell g' 0 0 = Some 0).
Proof.
  split; [vm_compute; reflexivity|]. split; [vm_compute; reflexivity|].
  split.
  - eexists _, _. split; vm_compute; reflexivity.
  - eexists. split; vm_compute; reflexivity.
Qed.

(** ** Frames *)

Section Frames.
Import GoInt Screen.

Lemma for_up_skip {S} lo hi (s : S) :
  Loop.for_up lo hi (fun _ s => Some s) s = Some s.
Proof.
  unfold Loop.for_up. generalize (Z.to_nat (hi - lo)). intros k. revert lo.
  induction k as [|k IH]; intros lo; [done|]. simpl. apply IH.
Qed.

(** Without a cell to print, the frame is the empty box. *)
Lemma frame_empty first w h cell :
  w = 0 \/ h = 0 ->
  Render.frame first w h cell = Some (empty_box first w h).
Proof.
  intros Hempty. unfold Render.frame, empty_box.
  rewrite dashes_prints. simpl.
  rewrite (for_up_ext _
    (fun _ out => Some (out +:+ ("│ " +:+ "│" +:+ Render.NL)))).
  2:{ intros y out Hy. assert (w = 0) as -> by lia.
      rewrite for_up_empty by lia. simpl. by rewrite append_assoc. }
  unfold Loop.for_up. rewrite Z.sub_0_r, iter_prints. simpl.
  rewrite dashes_prints. simpl. f_equal.
  by rewrite !append_assoc.
Qed.

End Frames.

(** ** The escape sequences of the renderers *)

Section Escapes.
Import Screen.

Lemma rows_readable w h cells x y :
  RowsShape.wf w h cells -> 0 <= x < w -> 0 <= y < h ->
  is_Some (Rows.read cells x y).
Proof.
  intros Hwf Hx Hy.
  destruct (read_inside w h cells x y Hwf) as (v & -> & _); [|done].
  apply rows_inside_spec. lia.
Qed.

Lemma frame_home w h cell :
  (forall x y, 0 <= x < w -> 0 <= y < h -> is_Some (cell x y)) ->
  exists out, Render.frame Render.home w h cell = Some out /\
    FrameSpec.repositions_only out.
Proof.
  intros Hcell.
  destruct (frame_prints Render.home w h cell Hcell) as (rest & -> & Hrest).
  eexists. split; [done|]. by apply home_without_clear.
Qed.

End Escapes.

(** C8, as the code has it. [MakeItSo], the renderer of the bit-packed,
    the byte and the cached grid, prints a frame that begins with the
    cursor-home sequence and contains no clear-screen sequence;
    [Display], the renderer of src/grid.go, prints a frame that begins
    with the cursor-home sequence followed by the clear-screen
    sequence. *)
Theorem makeitso_homes_display_clears
    (gm : Bitmask.Grid) (gb : Bytes2D.Grid) (gc : Cached.Grid)
    (g : Basic.Grid) :
  BitmaskShape.wf gm -> Bytes2DShape.wf gb -> CachedShape.wf gc ->
  RowsShape.wf (Basic.width g) (Basic.height g) (Basic.cells g) ->
  (exists out, BitmaskRender.MakeItSo gm = Some out /\
     FrameSpec.repositions_only out) /\
  (exists out, Bytes2D.MakeItSo gb = Some out /\
     FrameSpec.repositions_only out) /\
  (exists out, Cached.MakeItSo gc = Some out /\
     FrameSpec.repositions_only out) /\
  (exists out, Basic.Display g = Some out /\
     Screen.begins_with (Render.home +:+ Render.clear) out).
Proof.
  intros Hm Hb Hc Hg. split_and!.
  - apply frame_home. intros x y _ _. by rewrite GetCell_bit.
  - apply frame_home. intros x y Hx Hy.
    eapply rows_readable; [apply Hb|done..].
  - apply frame_home. intros x y Hx Hy.
    eapply rows_readable; [apply Hc|done..].
  - destruct (frame_prints (Render.home +:+ Render.clear)
      (Basic.width g) (Basic.height g) (Rows.read (Basic.cells g)))
      as (rest & Hout & _).
    { intros x y Hx Hy. by eapply rows_readable. }
    eexists. split; [exact Hout|]. by exists rest.
Qed.

Lemma makeitso_homes_display_clears_witness :
  BitmaskShape.wf Examples.blinker_bits /\
  Bytes2DShape.wf Examples.blinker_bytes /\
  CachedShape.wf (Cached.mkGrid 5 5 Examples.blinker_rows ∅ ∅) /\
  RowsShape.wf 5 5 Examples.blinker_rows /\
  (exists out, BitmaskRender.MakeItSo Examples.blinker_bits = Some out /\
     FrameSpec.repositions_only out) /\
  (exists out, Bytes2D.MakeItSo Examples.blinker_bytes = Some out /\
     FrameSpec.repositions_only out) /\
  (exists out,
     Cached.MakeItSo (Cached.mkGrid 5 5 Examples.blinker_rows ∅ ∅)
       = Some out /\
     FrameSpec.repositions_only out) /\
  (exists out,
     Basic.Display (Basic.mkGrid 5 5 Examples.blinker_rows) = Some out /\
     Screen.begins_with (Render.home +:+ Render.clear) out).
Proof.
  split; [apply blinker_bits_wf|]. split; [apply blinker_bytes_wf|].
  split; [apply blinker_cached_wf|]. split; [apply blinker_rows_wf|].
  apply (makeitso_homes_display_clears Examples.blinker_bits
           Examples.blinker_bytes
           (Cached.mkGrid 5 5 Examples.blinker_rows ∅ ∅)
           (Basic.mkGrid 5 5 Examples.blinker_rows)).
  - apply blinker_bits_wf.
  - apply blinker_bytes_wf.
  - apply blinker_cached_wf.
  - apply blinker_rows_wf.
Defined.

(** C8, as stated, fails for [Display]: the frame of a one-cell grid
    erases the screen. *)
Lemma display_clears_the_screen :
  exists out,
    Basic.Display (Basic.mkGrid 1 1 [[1]]) = Some out /\
    ~ FrameSpec.repositions_only out.
Proof.
  eexists. split; [vm_compute; reflexivity|].
  intros [_ Hclear]. apply Hclear.
  exists Render.home. eexists. vm_compute. reflexivity.
Qed.

(** ** Grids without cells *)

Section EmptyGrids.
Import GoInt Screen.

Lemma empty_inside w h x y : w = 0 \/ h = 0 -> Rows.inside w h x y = false.
Proof. intros Hempty. apply rows_inside_false. lia. Qed.

Lemma empty_basic w h g :
  w = 0 \/ h = 0 -> Basic.NewGrid w h = Some g ->
  (forall x y, Basic.GetCell g x y = Some 0) /\
  (forall x y alive, Basic.SetCell g x y alive = Some g) /\
  Basic.Display g = Some (empty_box (Render.home +:+ Render.clear) w h).
Proof.
  intros Hempty. unfold Basic.NewGrid.
  destruct (Rows.alloc w h) as [rows|]; [|done]. simpl. intros [= <-].
  unfold Basic.GetCell, Basic.SetCell, Basic.Display. simpl.
  split_and!; intros; rewrite ?empty_inside by done; try done.
  by apply frame_empty.
Qed.

Lemma empty_bitmask w h g :
  w = 0 \/ h = 0 -> Bitmask.NewGrid w h = Some g ->
  (forall x y, Bitmask.GetCell g x y = Some 0) /\
  (forall x y v, Bitmask.SetCell g x y v = Some g) /\
  Bitmask.BoldlyGo g = Some g /\
  BitmaskRender.MakeItSo g = Some (empty_box Render.home w h).
Proof.
  intros Hempty Hnew. pose proof Hnew as Hnew'. revert Hnew'.
  unfold Bitmask.NewGrid at 1.
  assert (mul w h = 0) as -> by (destruct Hempty as [-> | ->];
    unfold mul; by rewrite ?Z.mul_0_l, ?Z.mul_0_r).
  change (div (add 0 63) 64) with 0. simpl. intros [= <-].
  assert (forall x y, Bitmask.inside (Bitmask.mkGrid w h []) x y = false)
    as Hout by (intros; by apply empty_inside).
  split_and!.
  - intros. by apply GetCell_outside.
  - intros. by apply SetCell_outside.
  - unfold Bitmask.BoldlyGo. simpl. rewrite Hnew. simpl.
    rewrite (for_up_ext _ (fun _ s => Some s)); [apply for_up_skip|].
    intros y s Hy. assert (w = 0) as -> by lia. by apply for_up_empty.
  - by apply frame_empty.
Qed.

Lemma empty_bytes w h g :
  w = 0 \/ h = 0 -> Bytes2D.NewGrid w h = Some g ->
  (forall x y, Bytes2D.GetCell g x y = Some 0) /\
  (forall x y v, Bytes2D.SetCell g x y v = Some g) /\
  Bytes2D.BoldlyGo g = Some g /\
  Bytes2D.MakeItSo g = Some (empty_box Render.home w h).
Proof.
  intros Hempty Hnew. pose proof Hnew as Hnew'. revert Hnew'.
  unfold Bytes2D.NewGrid at 1.
  destruct (Rows.alloc w h) as [rows|] eqn:Halloc; [|done].
  simpl. intros [= <-].
  unfold Bytes2D.GetCell, Bytes2D.SetCell, Bytes2D.MakeItSo, Bytes2D.inside.
  simpl. split_and!; intros; rewrite ?empty_inside by done; try done.
  - unfold Bytes2D.BoldlyGo. simpl. rewrite Hnew. simpl.
    apply alloc_Some in Halloc as (Hh & _ & ->).
    unfold Slice.len. rewrite length_replicate, Z2Nat.id by done.
    rewrite (for_up_ext _ (fun _ s => Some s)); [apply for_up_skip|].
    intros y s Hy. assert (w = 0) as -> by lia.
    rewrite index_lookup, lookup_replicate_2 by lia. simpl.
    by apply for_up_empty.
  - by apply frame_empty.
Qed.

Lemma empty_cached w h g :
  w = 0 \/ h = 0 -> Cached.NewGrid w h = Some g ->
  (forall x y, Cached.GetCell g x y = Some 0) /\
  (forall x y v, Cached.SetCell g x y v = Some g) /\
  Cached.BoldlyGo g = Some (g, g) /\
  Cached.MakeItSo g = Some (empty_box Render.home w h).
Proof.
  intros Hempty Hnew. pose proof Hnew as Hnew'. revert Hnew'.
  unfold Cached.NewGrid at 1.
  destruct (Rows.alloc w h) as [rows|] eqn:Halloc; [|done].
  simpl. intros [= <-].
  unfold Cached.GetCell, Cached.SetCell, Cached.MakeItSo, Cached.inside.
  simpl. split_and!; intros; rewrite ?empty_inside by done; try done.
  - unfold Cached.BoldlyGo. simpl. rewrite Hnew. simpl.
    apply alloc_Some in Halloc as (Hh & _ & ->).
    set (p0 := Cached.mkPass _ _ _).
    assert (Cached.rulePass p0 = Some p0) as ->.
    { unfold Cached.rulePass.
      destruct (for_up_invariant_max (fun _ p => p = p0)
        (fun y p =>
           row ← Slice.index (Cached.cells (Cached.source p)) y;
           Loop.for_up 0 (Slice.len row) (fun x p =>
             '(grid, lifeformCount) ← Cached.scanForLifeforms (Cached.source p) x y;
             currentState ← Rows.read (Cached.cells grid) x y;
             let newState := Cached.nextState currentState lifeformCount in
             cells' ← Rows.write (Cached.cells (Cached.target p)) x y newState;
             let nextGen :=
               Cached.mkGrid (Cached.width (Cached.target p))
                 (Cached.height (Cached.target p)) cells'
                 (Cached.neighborCache (Cached.target p))
                 (Cached.cacheValid (Cached.target p)) in
             let changedCells :=
               if negb (currentState =? newState)
               then <[Cached.getCacheKey x y := true]> (Cached.changed p)
               else Cached.changed p in
             Some (Cached.mkPass grid nextGen changedCells)) p)
        0 (Slice.len (Cached.cells (Cached.source p0))) p0)
        as (p & Hrun & ->); [done| |exact Hrun].
      intros y p Hy ->. exists p0. split; [|done]. simpl in *.
      unfold Slice.len in Hy. rewrite length_replicate in Hy.
      assert (w = 0) as -> by lia.
      rewrite index_lookup, lookup_replicate_2 by lia. simpl.
      by apply for_up_empty. }
    simpl. unfold Cached.carryPass. simpl.
    rewrite (for_up_ext _ (fun _ s => Some s)), for_up_skip.
    2:{ intros y s Hy. assert (w = 0) as -> by lia. by apply for_up_empty. }
    done.
  - by apply frame_empty.
Qed.

End EmptyGrids.

(** C7. A grid created with width 0 or height 0 never panics
    afterwards: [GetCell] returns 0 at every coordinate, [SetCell]
    returns the grid as it is, [BoldlyGo] returns that same grid without
    cells (and leaves its receiver as it is), and the renderer prints the
    empty box: the top border, one line of the two side borders per row
    (none when the height is 0) and the bottom border, without any cell.
    As every call returns the grid it was given, this holds after any
    number of calls.  For the grid of src/grid.go, which has no
    [BoldlyGo], the bit-packed, the byte and the cached grid. *)
Theorem empty_grids_do_not_crash (w h : Z) :
  w = 0 \/ h = 0 ->
  (forall g, Basic.NewGrid w h = Some g ->
     (forall x y, Basic.GetCell g x y = Some 0) /\
     (forall x y alive, Basic.SetCell g x y alive = Some g) /\
     Basic.Display g
       = Some (Screen.empty_box (Render.home +:+ Render.clear) w h)) /\
  (forall g, Bitmask.NewGrid w h = Some g ->
     (forall x y, Bitmask.GetCell g x y = Some 0) /\
     (forall x y v, Bitmask.SetCell g x y v = Some g) /\
     Bitmask.BoldlyGo g = Some g /\
     BitmaskRender.MakeItSo g = Some (Screen.empty_box Render.home w h)) /\
  (forall g, Bytes2D.NewGrid w h = Some g ->
     (forall x y, Bytes2D.GetCell g x y = Some 0) /\
     (forall x y v, Bytes2D.SetCell g x y v = Some g) /\
     Bytes2D.BoldlyGo g = Some g /\
     Bytes2D.MakeItSo g = Some (Screen.empty_box Render.home w h)) /\
  (forall g, Cached.NewGrid w h = Some g ->
     (forall x y, Cached.GetCell g x y = Some 0) /\
     (forall x y v, Cached.SetCell g x y v = Some g) /\
     Cached.BoldlyGo g = Some (g, g) /\
     Cached.MakeItSo g = Some (Screen.empty_box Render.home w h)).
Proof.
  intros Hempty. split_and!; intros g Hnew.
  - by apply empty_basic.
  - by apply empty_bitmask.
  - by apply empty_bytes.
  - by apply empty_cached.
Qed.

Lemma empty_grids_do_not_crash_witness :
  (0 = 0 \/ 3 = 0) /\
  Basic.NewGrid 0 3 = Some (Basic.mkGrid 0 3 [[]; []; []]) /\
  Bitmask.NewGrid 0 3 = Some (Bitmask.mkGrid 0 3 []) /\
  Bytes2D.NewGrid 0 3 = Some (Bytes2D.mkGrid 0 3 [[]; []; []]) /\
  Cached.NewGrid 0 3 = Some (Cached.mkGrid 0 3 [[]; []; []] ∅ ∅) /\
  Basic.Display (Basic.mkGrid 0 3 [[]; []; []])
    = Some (Screen.empty_box (Render.home +:+ Render.clear) 0 3) /\
  Bitmask.BoldlyGo (Bitmask.mkGrid 0 3 []) = Some (Bitmask.mkGrid 0 3 []) /\
  Bytes2D.BoldlyGo (Bytes2D.mkGrid 0 3 [[]; []; []])
    = Some (Bytes2D.mkGrid 0 3 [[]; []; []]) /\
  Cached.BoldlyGo (Cached.mkGrid 0 3 [[]; []; []] ∅ ∅)
    = Some (Cached.mkGrid 0 3 [[]; []; []] ∅ ∅,
            Cached.mkGrid 0 3 [[]; []; []] ∅ ∅) /\
  Cached.MakeItSo (Cached.mkGrid 0 3 [[]; []; []] ∅ ∅)
    = Some (Screen.empty_box Render.home 0 3).
Proof.
  assert (Basic.NewGrid 0 3 = Some (Basic.mkGrid 0 3 [[]; []; []])) as HB
    by reflexivity.
  assert (Bitmask.NewGrid 0 3 = Some (Bitmask.mkGrid 0 3 [])) as HM
    by reflexivity.
  assert (Bytes2D.NewGrid 0 3 = Some (Bytes2D.mkGrid 0 3 [[]; []; []])) as Hb
    by reflexivity.
  assert (Cached.NewGrid 0 3 = Some (Cached.mkGrid 0 3 [[]; []; []] ∅ ∅))
    as HC by reflexivity.
  destruct (empty_grids_do_not_crash 0 3 (or_introl eq_refl))
    as (EB & EM & Eb & EC).
  split; [by left|]. split; [exact HB|]. split; [exact HM|].
  split; [exact Hb|]. split; [exact HC|].
  split; [apply (EB _ HB)|]. split; [apply (EM _ HM)|].
  split; [apply (Eb _ Hb)|]. split; apply (EC _ HC).
Defined.

(** * Further properties of the code *)

(** ** Cells of the bit-packed grid *)

(** X1. [getBitIndex] addresses one bit per cell: for an in-bounds cell
    of a well-formed grid the word index lies within [cells], the bit
    position is below 64, the two recombine to [y*width + x], and two
    in-bounds cells with the same word and bit are the same cell. *)
Theorem getBitIndex_addresses_one_bit
    (g : Bitmask.Grid) (x y x' y' : Z) :
  BitmaskShape.wf g ->
  Bitmask.inside g x y = true -> Bitmask.inside g x' y' = true ->
  0 <= (Bitmask.getBitIndex g x y).1 < Slice.len (Bitmask.cells g) /\
  0 <= (Bitmask.getBitIndex g x y).2 < 64 /\
  64 * (Bitmask.getBitIndex g x y).1 + (Bitmask.getBitIndex g x y).2
    = y * Bitmask.width g + x /\
  (Bitmask.getBitIndex g x y = Bitmask.getBitIndex g x' y' ->
   x = x' /\ y = y').
Proof.
  intros Hwf Hin Hin'.
  destruct (getBitIndex_inside g x y Hwf Hin) as (Hidx & Hword & Hbit).
  destruct (getBitIndex_inside g x' y' Hwf Hin') as (Hidx' & _ & _).
  rewrite Hidx, Hidx'. simpl. split; [done|]. split; [done|]. split.
  - unfold BitmaskShape.linear.
    pose proof (Z.div_mod (y * Bitmask.width g + x) 64). lia.
  - intros [= Hq Hr]. apply (linear_inj g); try done.
    rewrite (Z.div_mod (BitmaskShape.linear g x y) 64),
            (Z.div_mod (BitmaskShape.linear g x' y') 64) by lia.
    by rewrite Hq, Hr.
Qed.

Lemma getBitIndex_addresses_one_bit_witness :
  BitmaskShape.wf Examples.blinker_bits /\
  Bitmask.inside Examples.blinker_bits 3 4 = true /\
  Bitmask.inside Examples.blinker_bits 4 3 = true /\
  0 <= (Bitmask.getBitIndex Examples.blinker_bits 3 4).1
    < Slice.len (Bitmask.cells Examples.blinker_bits) /\
  0 <= (Bitmask.getBitIndex Examples.blinker_bits 3 4).2 < 64 /\
  64 * (Bitmask.getBitIndex Examples.blinker_bits 3 4).1
    + (Bitmask.getBitIndex Examples.blinker_bits 3 4).2
    = 4 * Bitmask.width Examples.blinker_bits + 3 /\
  (Bitmask.getBitIndex Examples.blinker_bits 3 4
     = Bitmask.getBitIndex Examples.blinker_bits 4 3 ->
   3 = 4 /\ 4 = 3).
Proof.
  split; [apply blinker_bits_wf|]. split; [reflexivity|].
  split; [reflexivity|].
  apply (getBitIndex_addresses_one_bit Examples.blinker_bits 3 4 4 3).
  - apply blinker_bits_wf.
  - reflexivity.
  - reflexivity.
Defined.

(** X2. On the bit-packed grid, [GetCell] after an in-bounds [SetCell]
    returns 1 when the value written is 1 and 0 for every other value;
    every other cell reads as before and the dimensions are kept. *)
Theorem bitmask_set_then_get (g : Bitmask.Grid) (x y v : Z) :
  BitmaskShape.wf g -> Bitmask.inside g x y = true ->
  exists g',
    Bitmask.SetCell g x y v = Some g' /\
    BitmaskShape.wf g' /\
    Bitmask.width g' = Bitmask.width g /\
    Bitmask.height g' = Bitmask.height g /\
    Bitmask.GetCell g' x y = Some (if v =? 1 then 1 else 0) /\
    forall x' y', (x', y') <> (x, y) ->
      Bitmask.GetCell g' x' y' = Bitmask.GetCell g x' y'.
Proof.
  intros Hwf Hin.
  destruct (SetCell_inside g x y v Hwf Hin)
    as (g' & Hset & Hwf' & Hw & Hh & Hxy & Hrest).
  exists g'. split_and!; try done.
  - by rewrite GetCell_bit, Hxy.
  - intros x' y' Hne. by rewrite !GetCell_bit, Hrest.
Qed.

Lemma bitmask_set_then_get_witness :
  BitmaskShape.wf Examples.blinker_bits /\
  Bitmask.inside Examples.blinker_bits 2 2 = true /\
  exists g',
    Bitmask.SetCell Examples.blinker_bits 2 2 7 = Some g' /\
    BitmaskShape.wf g' /\
    Bitmask.width g' = 5 /\ Bitmask.height g' = 5 /\
    Bitmask.GetCell g' 2 2 = Some 0 /\
    forall x' y', (x', y') <> (2, 2) ->
      Bitmask.GetCell g' x' y' = Bitmask.GetCell Examples.blinker_bits x' y'.
Proof.
  split; [apply blinker_bits_wf|]. split; [reflexivity|].
  apply (bitmask_set_then_get Examples.blinker_bits 2 2 7).
  - apply blinker_bits_wf.
  - reflexivity.
Defined.

(** X3. When the number of cells wraps around to 0 in [int], the
    bit-packed [NewGrid] returns a grid without any word although its
    width and height are positive; the first in-bounds [SetCell] or
    [GetCell] then indexes out of range and panics. *)
Theorem bitmask_wrapped_size_panics (w h : Z) :
  0 < w < 2 ^ 63 -> 0 < h < 2 ^ 63 -> (w * h) `mod` 2 ^ 64 = 0 ->
  exists g,
    Bitmask.NewGrid w h = Some g /\
    Bitmask.cells g = [] /\
    Bitmask.inside g 0 0 = true /\
    (forall v, Bitmask.SetCell g 0 0 v = None) /\
    Bitmask.GetCell g 0 0 = None.
Proof.
  intros Hw Hh Hwrap. unfold Bitmask.NewGrid.
  assert (GoInt.mul w h = 0) as ->.
  { unfold GoInt.mul, GoInt.wrap.
    rewrite <-Zplus_mod_idemp_l, Hwrap. reflexivity. }
  change (GoInt.div (GoInt.add 0 63) 64) with 0. simpl.
  eexists. split; [done|]. split; [done|].
  assert (Bitmask.inside (Bitmask.mkGrid w h []) 0 0 = true) as Hin
    by (apply inside_spec; simpl; lia).
  split; [done|].
  unfold Bitmask.SetCell, Bitmask.GetCell. rewrite Hin.
  assert (forall i, Slice.index (A:=Z) [] i = None) as Hnil.
  { intros i. unfold Slice.index. by case_decide. }
  split; [intros v|]; destruct (Bitmask.getBitIndex _ 0 0) as [i b];
    simpl; by rewrite Hnil.
Qed.

Lemma bitmask_wrapped_size_panics_witness :
  0 < 2 ^ 32 < 2 ^ 63 /\ 0 < 2 ^ 32 < 2 ^ 63 /\
  (2 ^ 32 * 2 ^ 32) `mod` 2 ^ 64 = 0 /\
  exists g,
    Bitmask.NewGrid (2 ^ 32) (2 ^ 32) = Some g /\
    Bitmask.cells g = [] /\
    Bitmask.inside g 0 0 = true /\
    (forall v, Bitmask.SetCell g 0 0 v = None) /\
    Bitmask.GetCell g 0 0 = None.
Proof.
  split; [lia|]. split; [lia|]. split; [reflexivity|].
  apply (bitmask_wrapped_size_panics (2 ^ 32) (2 ^ 32)); [lia|lia|reflexivity].
Defined.

(** ** Cells of the byte grids *)

Section ByteCells.
Import GoInt.
Implicit Types (cells : list (list Z)).

(** The rows after [cells[y][x] = v]. *)
Lemma write_rows w h cells x y v :
  RowsShape.wf w h cells -> Rows.inside w h x y = true ->
  exists row, cells !! Z.to_nat y = Some row /\
    Slice.len row = w /\
    Rows.write cells x y v
    = Some (<[Z.to_nat y := <[Z.to_nat x := v]> row]> cells).
Proof.
  intros Hwf Hin%rows_inside_spec. unfold Rows.write.
  destruct (index_in_range cells y) as [row Hrow].
  { destruct Hwf as [-> _]. lia. }
  rewrite Hrow. simpl. apply index_Some in Hrow as [_ Hrow].
  destruct (wf_row _ _ _ _ _ Hwf Hrow) as [Hlen _].
  exists row. split; [done|]. split; [done|].
  rewrite assign_in_range by lia. simpl.
  apply assign_in_range. destruct Hwf as [-> _]. lia.
Qed.

Lemma rows_shape_write w h cells x y v :
  RowsShape.wf w h cells -> Rows.inside w h x y = true -> is_byte v ->
  forall cells', Rows.write cells x y v = Some cells' ->
    RowsShape.wf w h cells'.
Proof.
  intros Hwf Hin Hv cells' Hw.
  destruct (write_inside w h cells x y v Hwf Hin Hv) as (c & Hc & ? & _).
  congruence.
Qed.

(** Two writes into well-formed rows: the later one wins on the same
    cell, and the order does not matter on two cells. *)
Lemma write_write w h cells x y v x' y' v' :
  RowsShape.wf w h cells -> is_byte v -> is_byte v' ->
  Rows.inside w h x y = true -> Rows.inside w h x' y' = true ->
  (Rows.write cells x y v ≫= fun c => Rows.write c x' y' v')
  = if decide ((x, y) = (x', y')) then Rows.write cells x' y' v'
    else Rows.write cells x' y' v' ≫= fun c => Rows.write c x y v.
Proof.
  intros Hwf Hv Hv' Hin Hin'.
  destruct (write_rows w h cells x y v Hwf Hin) as (row & Hrow & Hlen & Hw1).
  destruct (write_rows w h cells x' y' v' Hwf Hin') as (row' & Hrow' & Hlen' & Hw2).
  pose proof (rows_shape_write _ _ _ _ _ _ Hwf Hin Hv _ Hw1) as Hwf1.
  pose proof (rows_shape_write _ _ _ _ _ _ Hwf Hin' Hv' _ Hw2) as Hwf2.
  destruct (write_rows w h _ x' y' v' Hwf1 Hin') as (r1 & Hr1 & _ & Hw12).
  destruct (write_rows w h _ x y v Hwf2 Hin) as (r2 & Hr2 & _ & Hw21).
  rewrite Hw1, Hw2. simpl. rewrite Hw12.
  apply rows_inside_spec in Hin, Hin'.
  assert (Z.to_nat y < length cells)%nat as Hy by (by eapply lookup_lt_Some).
  assert (Z.to_nat y' < length cells)%nat as Hy' by (by eapply lookup_lt_Some).
  case_decide as Hsame.
  - injection Hsame as <- <-.
    rewrite list_lookup_insert_eq in Hr1 by done. injection Hr1 as <-.
    rewrite !list_insert_insert_eq. congruence.
  - rewrite Hw21. f_equal.
    destruct (decide (y = y')) as [<-|Hyy].
    + rewrite list_lookup_insert_eq in Hr1, Hr2 by done.
      injection Hr1 as <-. injection Hr2 as <-.
      rewrite !list_insert_insert_eq. f_equal.
      assert (row' = row) as -> by congruence.
      apply list_insert_insert_ne. intros ?. apply Hsame. f_equal. lia.
    + rewrite list_lookup_insert_ne in Hr1, Hr2 by lia.
      assert (r1 = row') as -> by congruence.
      assert (r2 = row) as -> by congruence.
      apply list_insert_insert_ne. lia.
Qed.

End ByteCells.

(** X4. On the grid of src/grid.go, [GetCell] after an in-bounds
    [SetCell] returns 1 for [true] and 0 for [false]; every other cell
    reads as before, and the grid keeps its shape. *)
Theorem basic_set_then_get (g : Basic.Grid) (x y : Z) (alive : bool) :
  RowsShape.wf (Basic.width g) (Basic.height g) (Basic.cells g) ->
  Rows.inside (Basic.width g) (Basic.height g) x y = true ->
  exists g',
    Basic.SetCell g x y alive = Some g' /\
    Basic.width g' = Basic.width g /\ Basic.height g' = Basic.height g /\
    RowsShape.wf (Basic.width g) (Basic.height g) (Basic.cells g') /\
    Basic.GetCell g' x y = Some (if alive then 1 else 0) /\
    forall x' y', (x', y') <> (x, y) ->
      Basic.GetCell g' x' y' = Basic.GetCell g x' y'.
Proof.
  intros Hwf Hin. unfold Basic.SetCell, Basic.GetCell. rewrite Hin.
  assert (GoInt.is_byte (if alive then 1 else 0)) as Hv
    by (unfold GoInt.is_byte; destruct alive; lia).
  destruct (write_inside _ _ _ x y _ Hwf Hin Hv)
    as (cells' & Hw & Hwf' & Hread & Hrest).
  exists (Basic.mkGrid (Basic.width g) (Basic.height g) cells').
  split.
  { destruct alive; by rewrite Hw. }
  simpl. rewrite Hin. split_and!; try done.
  intros x' y' Hne. by rewrite Hrest.
Qed.

Lemma basic_set_then_get_witness :
  RowsShape.wf 5 5 Examples.blinker_rows /\
  Rows.inside 5 5 0 0 = true /\
  exists g',
    Basic.SetCell (Basic.mkGrid 5 5 Examples.blinker_rows) 0 0 true
      = Some g' /\
    Basic.width g' = 5 /\ Basic.height g' = 5 /\
    RowsShape.wf 5 5 (Basic.cells g') /\
    Basic.GetCell g' 0 0 = Some 1 /\
    forall x' y', (x', y') <> (0, 0) ->
      Basic.GetCell g' x' y'
      = Basic.GetCell (Basic.mkGrid 5 5 Examples.blinker_rows) x' y'.
Proof.
  split; [apply blinker_rows_wf|]. split; [reflexivity|].
  apply (basic_set_then_get (Basic.mkGrid 5 5 Examples.blinker_rows) 0 0 true).
  - apply blinker_rows_wf.
  - reflexivity.
Defined.

(** X5. On the byte grid, [GetCell] after an in-bounds [SetCell]
    returns the byte written, whatever it is; every other cell reads as
    before and the grid keeps its shape. *)
Theorem bytes_set_then_get (g : Bytes2D.Grid) (x y v : Z) :
  Bytes2DShape.wf g -> Bytes2D.inside g x y = true -> GoInt.is_byte v ->
  exists g',
    Bytes2D.SetCell g x y v = Some g' /\
    Bytes2DShape.wf g' /\
    Bytes2D.width g' = Bytes2D.width g /\
    Bytes2D.height g' = Bytes2D.height g /\
    Bytes2D.GetCell g' x y = Some v /\
    forall x' y', (x', y') <> (x, y) ->
      Bytes2D.GetCell g' x' y' = Bytes2D.GetCell g x' y'.
Proof.
  intros Hwf Hin Hv.
  destruct (bytes_SetCell_inside g x y v Hwf Hin Hv)
    as (g' & Hset & Hwf' & Hw & Hh & Hxy & Hrest).
  exists g'. split_and!; try done.
  - by rewrite bytes_GetCell_value, Hxy.
  - intros x' y' Hne. by rewrite !bytes_GetCell_value, Hrest.
Qed.

Lemma bytes_set_then_get_witness :
  Bytes2DShape.wf Examples.blinker_bytes /\
  Bytes2D.inside Examples.blinker_bytes 4 0 = true /\
  GoInt.is_byte 200 /\
  exists g',
    Bytes2D.SetCell Examples.blinker_bytes 4 0 200 = Some g' /\
    Bytes2DShape.wf g' /\
    Bytes2D.width g' = 5 /\ Bytes2D.height g' = 5 /\
    Bytes2D.GetCell g' 4 0 = Some 200 /\
    forall x' y', (x', y') <> (4, 0) ->
      Bytes2D.GetCell g' x' y' = Bytes2D.GetCell Examples.blinker_bytes x' y'.
Proof.
  assert (GoInt.is_byte 200) as Hb by (unfold GoInt.is_byte; lia).
  split; [apply blinker_bytes_wf|]. split; [reflexivity|].
  split; [exact Hb|].
  apply (bytes_set_then_get Examples.blinker_bytes 4 0 200).
  - apply blinker_bytes_wf.
  - reflexivity.
  - exact Hb.
Defined.

(** X6. Two in-bounds [SetCell] calls on the byte grid compose: on the
    same cell the second value replaces the first, and on two different
    cells both orders give the same grid. *)
Theorem bytes_setcell_composes
    (g : Bytes2D.Grid) (x y v x' y' v' : Z) :
  Bytes2DShape.wf g -> GoInt.is_byte v -> GoInt.is_byte v' ->
  Bytes2D.inside g x y = true -> Bytes2D.inside g x' y' = true ->
  (Bytes2D.SetCell g x y v ≫= fun g => Bytes2D.SetCell g x' y' v')
  = if decide ((x, y) = (x', y')) then Bytes2D.SetCell g x' y' v'
    else Bytes2D.SetCell g x' y' v' ≫= fun g => Bytes2D.SetCell g x y v.
Proof.
  intros (_ & _ & Hwf) Hv Hv' Hin Hin'.
  pose proof (write_write _ _ _ x y v x' y' v' Hwf Hv Hv' Hin Hin') as Hww.
  unfold Bytes2D.inside in *. unfold Bytes2D.SetCell, Bytes2D.inside.
  rewrite Hin, Hin'.
  destruct (write_inside _ _ _ x y v Hwf Hin Hv) as (c1 & H1 & _).
  destruct (write_inside _ _ _ x' y' v' Hwf Hin' Hv') as (c2 & H2 & _).
  rewrite H1, H2 in *. simpl in *. rewrite Hin', Hww.
  case_decide; [done|]. simpl. by rewrite Hin.
Qed.

Lemma bytes_setcell_composes_witness :
  Bytes2DShape.wf Examples.blinker_bytes /\
  GoInt.is_byte 1 /\ GoInt.is_byte 9 /\
  Bytes2D.inside Examples.blinker_bytes 0 0 = true /\
  Bytes2D.inside Examples.blinker_bytes 4 0 = true /\
  (Bytes2D.SetCell Examples.blinker_bytes 0 0 1
     ≫= fun g => Bytes2D.SetCell g 4 0 9)
  = if decide ((0, 0) = (4, 0))
    then Bytes2D.SetCell Examples.blinker_bytes 4 0 9
    else Bytes2D.SetCell Examples.blinker_bytes 4 0 9
           ≫= fun g => Bytes2D.SetCell g 0 0 1.
Proof.
  assert (GoInt.is_byte 1 /\ GoInt.is_byte 9) as [H1 H9]
    by (unfold GoInt.is_byte; lia).
  split; [apply blinker_bytes_wf|]. split; [exact H1|]. split; [exact H9|].
  split; [reflexivity|]. split; [reflexivity|].
  apply (bytes_setcell_composes Examples.blinker_bytes 0 0 1 4 0 9).
  - apply blinker_bytes_wf.
  - exact H1.
  - exact H9.
  - reflexivity.
  - reflexivity.
Defined.

(** ** Allocation *)

(** X7. [NewGrid] of the byte grids panics on a negative height and,
    with at least one row to make, on a negative width.  Whenever it
    returns, the grid has [height] rows of [width] zero bytes (no row at
    all for height 0, whatever the width), [GetCell] is 0 everywhere,
    and the caches of the cached grid are empty. *)
Theorem newgrid_allocates_dead_rows (w h : Z) :
  (h < 0 \/ (0 < h /\ w < 0) ->
   Basic.NewGrid w h = None /\ Cached.NewGrid w h = None) /\
  (forall g, Basic.NewGrid w h = Some g ->
     g = Basic.mkGrid w h (replicate (Z.to_nat h) (replicate (Z.to_nat w) 0)) /\
     forall x y, Basic.GetCell g x y = Some 0) /\
  (forall g, Cached.NewGrid w h = Some g ->
     g = Cached.mkGrid w h
           (replicate (Z.to_nat h) (replicate (Z.to_nat w) 0)) ∅ ∅ /\
     forall x y, Cached.GetCell g x y = Some 0).
Proof.
  assert (h < 0 \/ (0 < h /\ w < 0) -> Rows.alloc w h = None) as Hnone.
  { intros Hneg. destruct (Rows.alloc w h) as [rows|] eqn:Halloc; [|done].
    apply alloc_Some in Halloc. lia. }
  assert (forall rows x y, Rows.alloc w h = Some rows ->
    rows = replicate (Z.to_nat h) (replicate (Z.to_nat w) 0) /\
    (if Rows.inside w h x y then Rows.read rows x y else Some 0) = Some 0)
    as Hsome.
  { intros rows x y Halloc. apply alloc_Some in Halloc as (Hh & Hw & ->).
    split; [done|]. destruct (Rows.inside w h x y) eqn:Hin; [|done].
    apply rows_inside_spec in Hin. unfold Rows.read.
    rewrite index_lookup, lookup_replicate_2 by lia. simpl.
    by rewrite index_lookup, lookup_replicate_2 by lia. }
  unfold Basic.NewGrid, Cached.NewGrid, Basic.GetCell, Cached.GetCell,
    Cached.inside.
  destruct (Rows.alloc w h) as [rows|] eqn:Halloc; simpl.
  - split; [intros Hneg; by apply Hnone in Hneg|]. split.
    + intros g [= <-]. simpl. split; [by destruct (Hsome rows 0 0) as [-> _]|].
      intros x y. by destruct (Hsome rows x y).
    + intros g [= <-]. simpl. split; [by destruct (Hsome rows 0 0) as [-> _]|].
      intros x y. by destruct (Hsome rows x y).
  - done.
Qed.

(** ** Frames, line by line *)

Section FrameLines.
Import GoInt Screen Layout.

Lemma join_app l1 l2 : join (l1 ++ l2) = join l1 +:+ join l2.
Proof.
  induction l1 as [|s l1 IH]; [done|].
  simpl. unfold join in *. simpl. by rewrite IH, append_assoc.
Qed.



(** A loop that prints one text per iteration prints them in order. *)
Lemma iter_prints_each (text : Z -> string) body k i (out : string) :
  (forall j o, i <= j < i + Z.of_nat k -> body j o = Some (o +:+ text j)) ->
  Loop.iter k i body out
  = Some (out +:+ join (text <$> seqZ i (Z.of_nat k))).
Proof.
  revert i out. induction k as [|k IH]; intros i out Hbody.
  - simpl. by rewrite append_empty_r.
  - simpl. rewrite Hbody by lia. simpl. rewrite IH by (intros; apply Hbody; lia).
    rewrite (seqZ_cons i) by lia.
    replace (Z.pred (Z.of_nat (S k))) with (Z.of_nat k) by lia.
    rewrite fmap_cons. unfold join. simpl. by rewrite append_assoc.
Qed.

Lemma for_up_prints_each (text : Z -> string) body n (out : string) :
  (forall j o, 0 <= j < n -> body j o = Some (o +:+ text j)) ->
  Loop.for_up 0 n body out = Some (out +:+ join (text <$> seqZ 0 n)).
Proof.
  intros Hbody. unfold Loop.for_up. rewrite Z.sub_0_r.
  rewrite (iter_prints_each text) by (intros; apply Hbody; lia).
  destruct (decide (0 <= n)).
  - by rewrite Z2Nat.id.
  - replace (Z.to_nat n) with O by lia. by rewrite (seqZ_nil 0 n) by lia.
Qed.

(** The frame of a table of cells, as long as twice the width fits an
    [int]. *)
Lemma frame_lines first w h cell (value : Z -> Z -> Z) :
  - 2 ^ 62 <= w < 2 ^ 62 ->
  (forall x y, 0 <= x < w -> 0 <= y < h -> cell x y = Some (value x y)) ->
  Render.frame first w h cell
  = Some (first +:+ join (lines w (table w h value))).
Proof.
  intros Hw Hcell. unfold Render.frame. rewrite dashes_prints.
  rewrite mul_small, add_small by (unfold is_int; lia).
  replace (w * 2 + 1) with (2 * w + 1) by lia. simpl.
  rewrite (for_up_prints_each
    (fun y => rowLine ((fun x => value x y) <$> seqZ 0 w))).
  2:{ intros y o Hy.
      rewrite (for_up_prints_each (fun x => glyph (value x y) +:+ " ")).
      2:{ intros x o' Hx. rewrite Hcell by done. simpl. f_equal.
          unfold glyph. destruct (value x y =? 1); by rewrite append_assoc. }
      simpl. f_equal. unfold rowLine.
      rewrite <-list_fmap_compose, !append_assoc. done. }
  simpl. rewrite dashes_prints.
  rewrite mul_small, add_small by (unfold is_int; lia).
  replace (w * 2 + 1) with (2 * w + 1) by lia. simpl. f_equal.
  unfold lines, table, borderLine.
  rewrite <-list_fmap_compose.
  change (join (?a :: ?l)) with (a +:+ join l).
  rewrite join_app. unfold join at 2. simpl.
  rewrite !append_assoc, append_empty_r. done.
Qed.

(** Well-formed rows are the table of their own cells. *)
Lemma table_rows w h cells :
  RowsShape.wf w h cells -> table w h (RowsShape.value w h cells) = cells.
Proof.
  intros [Hlen Hrows]. unfold table, Slice.len in *.
  apply list_eq. intros j. rewrite list_lookup_fmap.
  destruct (decide (Z.of_nat j < h)) as [Hj|Hj].
  - rewrite lookup_seqZ_lt by done. simpl.
    destruct (lookup_lt_is_Some_2 cells j) as [row Hrow]; [lia|].
    rewrite Hrow. f_equal.
    rewrite Forall_lookup in Hrows. destruct (Hrows _ _ Hrow) as [Hlr _].
    apply list_eq. intros i. rewrite list_lookup_fmap.
    destruct (decide (Z.of_nat i < w)) as [Hi|Hi].
    + rewrite lookup_seqZ_lt by done. simpl.
      destruct (lookup_lt_is_Some_2 row i) as [v Hv]; [lia|].
      rewrite Hv. f_equal. unfold RowsShape.value.
      rewrite !Z.add_0_l.
      rewrite (proj2 (rows_inside_spec w h _ _)) by lia.
      unfold Rows.read.
      rewrite index_lookup, Nat2Z.id, Hrow by lia.
      simpl. by rewrite index_lookup, Nat2Z.id, Hv by lia.
    + rewrite lookup_seqZ_ge by lia. simpl. symmetry.
      apply lookup_ge_None. lia.
  - rewrite lookup_seqZ_ge by lia. simpl. symmetry.
    apply lookup_ge_None. lia.
Qed.

Lemma rows_frame_lines first w h cells :
  - 2 ^ 62 <= w < 2 ^ 62 -> RowsShape.wf w h cells ->
  Render.frame first w h (Rows.read cells)
  = Some (first +:+ join (lines w cells)).
Proof.
  intros Hw Hwf.
  rewrite (frame_lines first w h _ (RowsShape.value w h cells)).
  - by rewrite table_rows.
  - done.
  - intros. apply read_value; [done|]. apply rows_inside_spec. lia.
Qed.



End FrameLines.

(** X8. What the renderers print for a well-formed grid, as long as
    twice the width fits an [int]: the escape sequences ([Display] also
    clears the screen), the top border, one line per row of cells with a
    full block for a cell equal to 1 and a space for any other byte, and
    the bottom border.  [Display] of src/grid.go and [MakeItSo] of the
    byte, the cached and the double-buffered grid print the same lines
    for the same cells; the buffer is never shown. *)
Theorem renderers_print_the_rows
    (w h : Z) (cells : list (list Z))
    (counts : gmap string Z) (valid : gmap string bool)
    (buffer : list (list Z)) (counts' : gmap Z Z) (valid' : gmap Z bool) :
  - 2 ^ 62 <= w < 2 ^ 62 -> RowsShape.wf w h cells ->
  Basic.Display (Basic.mkGrid w h cells)
    = Some (Render.home +:+ Render.clear
            +:+ Layout.join (Layout.lines w cells)) /\
  Bytes2D.MakeItSo (Bytes2D.mkGrid w h cells)
    = Some (Render.home +:+ Layout.join (Layout.lines w cells)) /\
  Cached.MakeItSo (Cached.mkGrid w h cells counts valid)
    = Some (Render.home +:+ Layout.join (Layout.lines w cells)) /\
  Buffered.MakeItSo (Buffered.mkGrid w h cells buffer counts' valid')
    = Some (Render.home +:+ Layout.join (Layout.lines w cells)).
Proof.
  intros Hw Hwf.
  unfold Basic.Display, Bytes2D.MakeItSo, Cached.MakeItSo,
    Buffered.MakeItSo. simpl.
  rewrite !rows_frame_lines by done. by rewrite append_assoc.
Qed.

Lemma renderers_print_the_rows_witness :
  - 2 ^ 62 <= 5 < 2 ^ 62 /\ RowsShape.wf 5 5 Examples.blinker_rows /\
  Basic.Display (Basic.mkGrid 5 5 Examples.blinker_rows)
    = Some (Render.home +:+ Render.clear
            +:+ Layout.join (Layout.lines 5 Examples.blinker_rows)) /\
  Bytes2D.MakeItSo (Bytes2D.mkGrid 5 5 Examples.blinker_rows)
    = Some (Render.home
            +:+ Layout.join (Layout.lines 5 Examples.blinker_rows)) /\
  Cached.MakeItSo (Cached.mkGrid 5 5 Examples.blinker_rows ∅ ∅)
    = Some (Render.home
            +:+ Layout.join (Layout.lines 5 Examples.blinker_rows)) /\
  Buffered.MakeItSo (Buffered.mkGrid 5 5 Examples.blinker_rows [] ∅ ∅)
    = Some (Render.home
            +:+ Layout.join (Layout.lines 5 Examples.blinker_rows)).
Proof.
  split; [lia|]. split; [apply blinker_rows_wf|].
  apply (renderers_print_the_rows 5 5 Examples.blinker_rows ∅ ∅ [] ∅ ∅);
    [lia|apply blinker_rows_wf].
Defined.



(** ** Scans and generations *)

(** X10. [scanForLifeforms] never panics at an in-bounds cell of a
    well-formed grid.  On the byte grid it returns the sum of the bytes
    of the in-bounds Moore neighbours, at most 8 * 255, which is the
    number of live neighbours when every byte is 0 or 1; on the
    bit-packed grid it returns the number of live neighbours, at most
    8. *)
Theorem scan_adds_the_neighbours
    (gm : Bitmask.Grid) (gb : Bytes2D.Grid) (x y : Z) :
  BitmaskShape.wf gm -> Bitmask.inside gm x y = true ->
  Bytes2DShape.wf gb -> Bytes2D.inside gb x y = true ->
  (exists n,
     Bitmask.scanForLifeforms gm x y = Some n /\ 0 <= n <= 8 /\
     n = Life.live_neighbors (Bitmask.width gm) (Bitmask.height gm)
           (Observe.bitmask gm) x y) /\
  (exists n,
     Bytes2D.scanForLifeforms gb x y = Some n /\ 0 <= n <= 8 * 255 /\
     n = Life.neighbor_sum (Bytes2D.width gb) (Bytes2D.height gb)
           (Observe.bytes gb) x y /\
     (Observe.binary (Bytes2D.cells gb) ->
      n = Life.live_neighbors (Bytes2D.width gb) (Bytes2D.height gb)
            (Observe.bytes gb) x y)).
Proof.
  intros Hwfm Hinm Hwfb Hinb.
  assert (forall w h c m, (forall p, 0 <= Life.clipped w h c p <= m) ->
    0 <= Life.neighbor_sum w h c x y <= 8 * m) as Hbound.
  { intros w h c m Hc. unfold Life.neighbor_sum. simpl.
    pose proof (Hc (x - 1, y - 1)). pose proof (Hc (x, y - 1)).
    pose proof (Hc (x + 1, y - 1)). pose proof (Hc (x - 1, y)).
    pose proof (Hc (x + 1, y)). pose proof (Hc (x - 1, y + 1)).
    pose proof (Hc (x, y + 1)). pose proof (Hc (x + 1, y + 1)).
    lia. }
  split.
  - eexists. split; [by apply bitmask_scan|].
    assert (forall p, 0 <= Life.clipped (Bitmask.width gm) (Bitmask.height gm)
              (BitmaskShape.bit gm) p <= 1) as Hc.
    { intros p. unfold Life.clipped. destruct (Rows.inside _ _ _ _); [|lia].
      destruct (bit_binary gm p.1 p.2) as [-> | ->]; lia. }
    split; [apply (Hbound _ _ _ 1 Hc)|].
    rewrite neighbor_sum_count by (intros; apply bit_binary).
    apply live_neighbors_ext. intros. symmetry. by apply observe_bitmask.
  - eexists. split; [by apply bytes_scan|].
    assert (forall p, 0 <= Life.clipped (Bytes2D.width gb) (Bytes2D.height gb)
              (Bytes2DShape.value gb) p <= 255) as Hc.
    { intros p. unfold Life.clipped. destruct (Rows.inside _ _ _ _); [|lia].
      pose proof (bytes_value_byte gb p.1 p.2 Hwfb) as Hb.
      unfold GoInt.is_byte in Hb. lia. }
    split; [apply (Hbound _ _ _ 255 Hc)|].
    split.
    + apply neighbor_sum_ext. intros. symmetry. by apply observe_bytes.
    + intros Hbin.
      rewrite neighbor_sum_count by (intros; by apply binary_value).
      apply live_neighbors_ext. intros. symmetry. by apply observe_bytes.
Qed.

Lemma scan_adds_the_neighbours_witness :
  BitmaskShape.wf Examples.blinker_bits /\
  Bitmask.inside Examples.blinker_bits 2 1 = true /\
  Bytes2DShape.wf Examples.blinker_bytes /\
  Bytes2D.inside Examples.blinker_bytes 2 1 = true /\
  (exists n,
     Bitmask.scanForLifeforms Examples.blinker_bits 2 1 = Some n /\
     0 <= n <= 8 /\
     n = Life.live_neighbors 5 5 (Observe.bitmask Examples.blinker_bits) 2 1) /\
  (exists n,
     Bytes2D.scanForLifeforms Examples.blinker_bytes 2 1 = Some n /\
     0 <= n <= 8 * 255 /\
     n = Life.neighbor_sum 5 5 (Observe.bytes Examples.blinker_bytes) 2 1 /\
     (Observe.binary (Bytes2D.cells Examples.blinker_bytes) ->
      n = Life.live_neighbors 5 5
            (Observe.bytes Examples.blinker_bytes) 2 1)).
Proof.
  split; [apply blinker_bits_wf|]. split; [reflexivity|].
  split; [apply blinker_bytes_wf|]. split; [reflexivity|].
  apply (scan_adds_the_neighbours
           Examples.blinker_bits Examples.blinker_bytes 2 1).
  - apply blinker_bits_wf.
  - reflexivity.
  - apply blinker_bytes_wf.
  - reflexivity.
Defined.

(** X11. The uncached [BoldlyGo] accepts any bytes: it never panics on
    a well-formed grid, returns a well-formed grid of the same size
    whose bytes are all 0 or 1, and treats every byte other than 1 as a
    dead cell, with the neighbour count being the sum of the neighbour
    bytes. *)
Theorem uncached_boldlygo_normalises (g : Bytes2D.Grid) :
  Bytes2DShape.wf g ->
  exists g',
    Bytes2D.BoldlyGo g = Some g' /\
    Bytes2DShape.wf g' /\
    Bytes2D.width g' = Bytes2D.width g /\
    Bytes2D.height g' = Bytes2D.height g /\
    Observe.binary (Bytes2D.cells g') /\
    forall x y, Bytes2D.inside g x y = true ->
      Bytes2D.GetCell g' x y
      = Some (Life.next_state (Observe.bytes g x y)
                (Life.neighbor_sum (Bytes2D.width g) (Bytes2D.height g)
                   (Observe.bytes g) x y)).
Proof.
  intros Hwf.
  destruct (bytes_BoldlyGo g Hwf) as (g' & Hgo & Hwf' & Hw & Hh & Hcells).
  destruct (bytes_BoldlyGo_binary g Hwf) as (g'' & Hgo' & _ & _ & Hbin).
  assert (g'' = g') as -> by congruence.
  exists g'. split_and!; try done.
  intros x y Hin. rewrite bytes_GetCell_value, Hcells, observe_bytes by done.
  do 2 f_equal. apply neighbor_sum_ext. intros. symmetry.
  by apply observe_bytes.
Qed.

Lemma uncached_boldlygo_normalises_witness :
  Bytes2DShape.wf (Bytes2D.mkGrid 2 1 [[7; 3]]) /\
  exists g',
    Bytes2D.BoldlyGo (Bytes2D.mkGrid 2 1 [[7; 3]]) = Some g' /\
    Bytes2DShape.wf g' /\
    Bytes2D.width g' = 2 /\ Bytes2D.height g' = 1 /\
    Observe.binary (Bytes2D.cells g') /\
    forall x y, Bytes2D.inside (Bytes2D.mkGrid 2 1 [[7; 3]]) x y = true ->
      Bytes2D.GetCell g' x y
      = Some (Life.next_state (Observe.bytes (Bytes2D.mkGrid 2 1 [[7; 3]]) x y)
                (Life.neighbor_sum 2 1
                   (Observe.bytes (Bytes2D.mkGrid 2 1 [[7; 3]])) x y)).
Proof.
  assert (Bytes2DShape.wf (Bytes2D.mkGrid 2 1 [[7; 3]])) as Hwf.
  { unfold Bytes2DShape.wf, RowsShape.wf, GoInt.is_int, GoInt.is_byte. simpl.
    split; [lia|]. split; [lia|]. split; [reflexivity|].
    constructor; [|constructor]. split; [reflexivity|].
    constructor; [lia|]. constructor; [lia|]. constructor. }
  split; [exact Hwf|].
  apply (uncached_boldlygo_normalises (Bytes2D.mkGrid 2 1 [[7; 3]])).
  exact Hwf.
Defined.

Section Still.
Import Generations.

Lemma clipped_square w h cx cy p :
  0 <= cx <= w - 2 -> 0 <= cy <= h - 2 ->
  Life.clipped w h (square cx cy) p = square cx cy p.1 p.2.
Proof.
  intros Hcx Hcy. destruct p as [x y].
  unfold Life.clipped, square, Rows.inside. simpl. decide_tests; done.
Qed.

Lemma square_step w h cx cy x y :
  0 <= cx <= w - 2 -> 0 <= cy <= h - 2 ->
  Life.next_state (square cx cy x y)
    (Life.neighbor_sum w h (square cx cy) x y)
  = square cx cy x y.
Proof.
  intros Hcx Hcy. unfold Life.neighbor_sum. simpl.
  rewrite !clipped_square by done. simpl. unfold square.
  decide_tests; reflexivity.
Qed.

Lemma advance_wf n (g : Bitmask.Grid) :
  BitmaskShape.wf g ->
  exists g', advance Bitmask.BoldlyGo n g = Some g' /\
    BitmaskShape.wf g' /\
    Bitmask.width g' = Bitmask.width g /\
    Bitmask.height g' = Bitmask.height g.
Proof.
  revert g. induction n as [|n IH]; intros g Hwf; [by exists g|].
  destruct (bitmask_BoldlyGo g Hwf) as (g1 & Hgo & Hwf1 & Hw1 & Hh1 & _).
  destruct (IH g1 Hwf1) as (g' & Hrun & ? & ? & ?).
  exists g'. simpl. rewrite Hgo. simpl. split_and!; try done; congruence.
Qed.

End Still.

(** X12. [BoldlyGo] can be repeated without end: after any number of
    generations of a well-formed bit-packed or byte grid no call has
    panicked and the grid is well-formed with the width and the height
    it started with. *)
Theorem generations_never_panic
    (n : nat) (gm : Bitmask.Grid) (gb : Bytes2D.Grid) :
  BitmaskShape.wf gm -> Bytes2DShape.wf gb ->
  (exists g', Generations.advance Bitmask.BoldlyGo n gm = Some g' /\
     BitmaskShape.wf g' /\
     Bitmask.width g' = Bitmask.width gm /\
     Bitmask.height g' = Bitmask.height gm) /\
  (exists g', Generations.advance Bytes2D.BoldlyGo n gb = Some g' /\
     Bytes2DShape.wf g' /\
     Bytes2D.width g' = Bytes2D.width gb /\
     Bytes2D.height g' = Bytes2D.height gb).
Proof.
  intros Hwfm Hwfb. split; [by apply advance_wf|].
  revert gb Hwfb. induction n as [|n IH]; intros g Hwf; [by exists g|].
  destruct (bytes_BoldlyGo g Hwf) as (g1 & Hgo & Hwf1 & Hw1 & Hh1 & _).
  destruct (IH g1 Hwf1) as (g' & Hrun & ? & ? & ?).
  exists g'. simpl. rewrite Hgo. simpl. split_and!; try done; congruence.
Qed.

Lemma generations_never_panic_witness :
  BitmaskShape.wf Examples.blinker_bits /\
  Bytes2DShape.wf Examples.blinker_bytes /\
  (exists g',
     Generations.advance Bitmask.BoldlyGo 7 Examples.blinker_bits = Some g' /\
     BitmaskShape.wf g' /\
     Bitmask.width g' = 5 /\ Bitmask.height g' = 5) /\
  (exists g',
     Generations.advance Bytes2D.BoldlyGo 7 Examples.blinker_bytes = Some g' /\
     Bytes2DShape.wf g' /\
     Bytes2D.width g' = 5 /\ Bytes2D.height g' = 5).
Proof.
  split; [apply blinker_bits_wf|]. split; [apply blinker_bytes_wf|].
  apply (generations_never_panic 7
           Examples.blinker_bits Examples.blinker_bytes).
  - apply blinker_bits_wf.
  - apply blinker_bytes_wf.
Defined.

(** X13. The two by two block is a still life wherever it lies inside
    the grid, the border included: a bit-packed grid that holds exactly
    the block holds exactly the block after any number of
    generations. *)
Theorem block_is_a_still_life (g : Bitmask.Grid) (cx cy : Z) (n : nat) :
  BitmaskShape.wf g ->
  0 <= cx <= Bitmask.width g - 2 ->
  0 <= cy <= Bitmask.height g - 2 ->
  (forall x y, Bitmask.GetCell g x y = Some (Generations.square cx cy x y)) ->
  exists g',
    Generations.advance Bitmask.BoldlyGo n g = Some g' /\
    forall x y, Bitmask.GetCell g' x y = Some (Generations.square cx cy x y).
Proof.
  revert g. induction n as [|n IH]; intros g Hwf Hcx Hcy Hg; [by exists g|].
  destruct (bitmask_pattern_step g (Generations.square cx cy)
    (Generations.square cx cy) Hwf Hg) as (g1 & Hgo & Hwf1 & Hw1 & Hh1 & Hg1).
  { intros. by apply square_step. }
  { intros x y Hout%inside_false. unfold Generations.square.
    decide_tests; done. }
  destruct (IH g1 Hwf1) as (g' & Hrun & Hg'); [by rewrite Hw1|by rewrite Hh1|done|].
  exists g'. simpl. by rewrite Hgo.
Qed.

Lemma corner_block_square x y :
  Bitmask.GetCell Generations.corner_block x y
  = Some (Generations.square 0 0 x y).
Proof.
  destruct (Bitmask.inside Generations.corner_block x y) eqn:Hin.
  - apply inside_spec in Hin. simpl in Hin.
    assert (x = 0 \/ x = 1 \/ x = 2 \/ x = 3 \/ x = 4) as Hx by lia.
    assert (y = 0 \/ y = 1 \/ y = 2 \/ y = 3 \/ y = 4) as Hy by lia.
    destruct Hx as [->|[->|[->|[->| ->]]]];
      destruct Hy as [->|[->|[->|[->| ->]]]]; reflexivity.
  - rewrite GetCell_outside by done. apply inside_false in Hin.
    simpl in Hin. unfold Generations.square. decide_tests; done.
Defined.

Lemma corner_block_wf : BitmaskShape.wf Generations.corner_block.
Proof. unfold BitmaskShape.wf. simpl. repeat split; lia. Defined.

Lemma block_is_a_still_life_witness :
  BitmaskShape.wf Generations.corner_block /\
  0 <= 0 <= Bitmask.width Generations.corner_block - 2 /\
  0 <= 0 <= Bitmask.height Generations.corner_block - 2 /\
  (forall x y, Bitmask.GetCell Generations.corner_block x y
               = Some (Generations.square 0 0 x y)) /\
  exists g',
    Generations.advance Bitmask.BoldlyGo 3 Generations.corner_block
      = Some g' /\
    forall x y, Bitmask.GetCell g' x y = Some (Generations.square 0 0 x y).
Proof.
  split; [apply corner_block_wf|]. split; [simpl; lia|].
  split; [simpl; lia|]. split; [apply corner_block_square|].
  apply (block_is_a_still_life Generations.corner_block 0 0 3).
  - apply corner_block_wf.
  - simpl; lia.
  - simpl; lia.
  - apply corner_block_square.
Defined.

(** X14. The blinker keeps oscillating: a bit-packed grid that holds
    exactly a horizontal blinker, its row and centre column inside the
    grid, holds after [n] generations exactly the horizontal blinker
    when [n] is even and exactly the vertical one when [n] is odd. *)
Theorem blinker_oscillates (g : Bitmask.Grid) (cx cy : Z) (n : nat) :
  BitmaskShape.wf g ->
  1 <= cx <= Bitmask.width g - 2 ->
  1 <= cy <= Bitmask.height g - 2 ->
  (forall x y, Bitmask.GetCell g x y = Some (Life.horizontal cx cy x y)) ->
  exists g',
    Generations.advance Bitmask.BoldlyGo n g = Some g' /\
    forall x y,
      Bitmask.GetCell g' x y = Some (Generations.blinker cx cy n x y).
Proof.
  intros Hwf Hcx Hcy Hg.
  assert (forall m g0, BitmaskShape.wf g0 ->
    Bitmask.width g0 = Bitmask.width g ->
    Bitmask.height g0 = Bitmask.height g ->
    forall k,
    (forall x y, Bitmask.GetCell g0 x y
                 = Some (Generations.blinker cx cy k x y)) ->
    exists g', Generations.advance Bitmask.BoldlyGo m g0 = Some g' /\
      forall x y, Bitmask.GetCell g' x y
                  = Some (Generations.blinker cx cy (m + k) x y)) as Hgen.
  { induction m as [|m IH]; intros g0 Hwf0 Hw0 Hh0 k Hg0; [by exists g0|].
    destruct (bitmask_pattern_step g0 (Generations.blinker cx cy k)
      (Generations.blinker cx cy (S k)) Hwf0 Hg0)
      as (g1 & Hgo & Hwf1 & Hw1 & Hh1 & Hg1).
    { intros x y. unfold Generations.blinker. rewrite Nat.even_succ.
      rewrite <-Nat.negb_even. rewrite Hw0, Hh0.
      destruct (Nat.even k); simpl;
        [by apply horizontal_step|by apply vertical_step]. }
    { intros x y Hout%inside_false. rewrite Hw0, Hh0 in Hout.
      unfold Generations.blinker, Life.horizontal, Life.vertical.
      destruct (Nat.even (S k)); decide_tests; done. }
    destruct (IH g1 Hwf1 ltac:(congruence) ltac:(congruence) (S k) Hg1)
      as (g' & Hrun & Hg').
    exists g'. simpl. rewrite Hgo. simpl. split; [done|].
    intros x y. rewrite Hg'. by replace (m + S k)%nat with (S (m + k)) by lia. }
  destruct (Hgen n g Hwf eq_refl eq_refl O) as (g' & Hrun & Hg'); [done|].
  exists g'. split; [done|]. intros x y. rewrite Hg'.
  by rewrite Nat.add_0_r.
Qed.

Lemma blinker_oscillates_witness :
  BitmaskShape.wf Examples.blinker_bits /\
  1 <= 2 <= Bitmask.width Examples.blinker_bits - 2 /\
  1 <= 2 <= Bitmask.height Examples.blinker_bits - 2 /\
  (forall x y, Bitmask.GetCell Examples.blinker_bits x y
               = Some (Life.horizontal 2 2 x y)) /\
  exists g',
    Generations.advance Bitmask.BoldlyGo 5 Examples.blinker_bits = Some g' /\
    forall x y,
      Bitmask.GetCell g' x y = Some (Generations.blinker 2 2 5 x y).
Proof.
  split; [apply blinker_bits_wf|]. split; [simpl; lia|].
  split; [simpl; lia|]. split; [apply blinker_bits_horizontal|].
  apply (blinker_oscillates Examples.blinker_bits 2 2 5).
  - apply blinker_bits_wf.
  - simpl; lia.
  - simpl; lia.
  - apply blinker_bits_horizontal.
Defined.

(** ** The cache and the rules *)

Section CacheAndRules.
Import GoInt Cached CachedShape.

Lemma table_ext w h (f g : Z -> Z -> Z) :
  (forall x y, Rows.inside w h x y = true -> f x y = g x y) ->
  Layout.table w h f = Layout.table w h g.
Proof.
  intros Hext. unfold Layout.table.
  apply Forall_fmap_ext, Forall_seqZ. intros y Hy.
  apply Forall_fmap_ext, Forall_seqZ. intros x Hx.
  apply Hext, rows_inside_spec. lia.
Qed.

Lemma nextState_binary cur n :
  cur = 0 \/ cur = 1 -> nextState cur n = Life.next_state cur n.
Proof.
  intros [-> | ->]; unfold nextState, Life.next_state; simpl;
    by repeat case_match.
Qed.

Lemma blinker_reachable : reachable CachedExamples.blinker.
Proof.
  assert (is_int 1 /\ is_int 2 /\ is_int 3 /\ is_int 5 /\ is_byte 1)
    as (? & ? & ? & ? & ?) by (unfold is_int, is_byte; lia).
  assert (reachable CachedExamples.board) as R0.
  { apply (reach_NewGrid 5 5); [assumption..|]. vm_compute. reflexivity. }
  assert (reachable CachedExamples.one) as R1.
  { apply (reach_SetCell CachedExamples.board 1 2 1); [assumption..|].
    vm_compute. reflexivity. }
  assert (reachable CachedExamples.two) as R2.
  { apply (reach_SetCell CachedExamples.one 2 2 1); [assumption..|].
    vm_compute. reflexivity. }
  apply (reach_SetCell CachedExamples.two 3 2 1); [assumption..|].
  vm_compute. reflexivity.
Defined.

Lemma blinker_cells :
  cells CachedExamples.blinker = Examples.blinker_rows.
Proof. vm_compute. reflexivity. Defined.

End CacheAndRules.

(** X15. The cache does not change the result: on a reachable cached
    grid whose bytes are all 0 or 1, the next generation the cached
    [BoldlyGo] returns has the width, the height and the cells of the
    grid the uncached [BoldlyGo] returns for the same cells, and its
    bytes are again all 0 or 1. *)
Theorem cached_boldlygo_agrees_with_uncached (g : Cached.Grid) :
  CachedShape.reachable g -> Observe.binary (Cached.cells g) ->
  exists g1 g2 gb,
    Cached.BoldlyGo g = Some (g1, g2) /\
    Bytes2D.BoldlyGo (CachedShape.uncached g) = Some gb /\
    CachedShape.uncached g2 = gb /\
    Observe.binary (Cached.cells g2).
Proof.
  intros [Hwf Hok]%reachable_sound Hbin.
  destruct (cached_BoldlyGo g Hwf)
    as (g1 & g2 & Hgo & _ & (Hwf2 & Hw2 & Hh2) & Hcache).
  destruct (Hcache Hok) as (_ & _ & Hnext).
  destruct (bytes_BoldlyGo (CachedShape.uncached g) Hwf)
    as (gb & Hgob & Hwfb & Hwb & Hhb & Hnextb).
  destruct (bytes_BoldlyGo_binary (CachedShape.uncached g) Hwf)
    as (gb' & Hgob' & _ & _ & Hbinb).
  assert (gb' = gb) as -> by congruence.
  assert (Cached.cells g2 = Bytes2D.cells gb) as Hcells.
  { rewrite <-(table_rows _ _ _ (proj2 (proj2 Hwf2))).
    rewrite <-(table_rows _ _ _ (proj2 (proj2 Hwfb))).
    simpl in *. rewrite Hw2, Hh2, Hwb, Hhb.
    apply table_ext. intros x y Hin.
    pose proof (Hnext x y Hin) as Hc. pose proof (Hnextb x y Hin) as Hb.
    unfold CachedShape.value in Hc at 1.
    unfold Bytes2DShape.value in Hb at 1.
    simpl in Hb. rewrite Hw2, Hh2 in Hc. rewrite Hwb, Hhb in Hb.
    rewrite Hc, Hb. apply nextState_binary.
    by apply (binary_value (CachedShape.uncached g)). }
  exists g1, g2, gb. split_and!; try done.
  - unfold CachedShape.uncached. rewrite Hcells, Hw2, Hh2.
    simpl in *. rewrite <-Hwb, <-Hhb. by destruct gb.
  - by rewrite Hcells.
Qed.

Lemma cached_boldlygo_agrees_with_uncached_witness :
  CachedShape.reachable CachedExamples.blinker /\
  Observe.binary (Cached.cells CachedExamples.blinker) /\
  exists g1 g2 gb,
    Cached.BoldlyGo CachedExamples.blinker = Some (g1, g2) /\
    Bytes2D.BoldlyGo (CachedShape.uncached CachedExamples.blinker)
      = Some gb /\
    CachedShape.uncached g2 = gb /\
    Observe.binary (Cached.cells g2).
Proof.
  assert (Observe.binary (Cached.cells CachedExamples.blinker)) as Hbin.
  { rewrite blinker_cells. apply blinker_rows_binary. }
  split; [apply blinker_reachable|]. split; [exact Hbin|].
  apply (cached_boldlygo_agrees_with_uncached CachedExamples.blinker).
  - apply blinker_reachable.
  - exact Hbin.
Defined.

(** X16. An in-bounds [SetCell] on the cached grid never touches the
    cached counts, never marks an entry valid, and leaves the validity
    flag of every cell outside of the three by three block around
    [(x, y)] as it was. *)
Theorem setcell_spares_the_rest_of_the_cache
    (g : Cached.Grid) (x y v : Z) :
  CachedShape.wf g -> Cached.inside g x y = true -> GoInt.is_byte v ->
  exists g',
    Cached.SetCell g x y v = Some g' /\
    Cached.neighborCache g' = Cached.neighborCache g /\
    (forall k, Cached.cacheValid g' !! k = Some true ->
               Cached.cacheValid g !! k = Some true) /\
    (forall x' y', ~ (x - 1 <= x' <= x + 1 /\ y - 1 <= y' <= y + 1) ->
       Cached.cacheValid g' !! Cached.getCacheKey x' y'
       = Cached.cacheValid g !! Cached.getCacheKey x' y').
Proof.
  intros Hwf Hin Hv. unfold Cached.SetCell. rewrite Hin.
  destruct (read_value _ _ _ x y (proj2 (proj2 Hwf)) Hin) as [-> _].
  destruct (write_inside _ _ _ x y v (proj2 (proj2 Hwf)) Hin Hv)
    as (cells' & -> & _ & _ & _). simpl.
  destruct (negb _).
  - destruct (cached_int_range g x y Hwf Hin) as (? & ? & ? & ?).
    rewrite invalidate_flags by done.
    eexists. split; [done|]. split; [done|].
    cbn [Cached.cacheValid Cached.width Cached.height]. split.
    + intros k. apply drop_all_true.
    + intros x' y' Hfar. apply drop_all_other.
      intros p Hp%block_near _ [Hx Hy]%getCacheKey_inj. lia.
  - eexists. by split_and!.
Qed.

Lemma setcell_spares_the_rest_of_the_cache_witness :
  CachedShape.wf (Cached.mkGrid 5 5 Examples.blinker_rows ∅ ∅) /\
  Cached.inside (Cached.mkGrid 5 5 Examples.blinker_rows ∅ ∅) 0 2 = true /\
  GoInt.is_byte 1 /\
  exists g',
    Cached.SetCell (Cached.mkGrid 5 5 Examples.blinker_rows ∅ ∅) 0 2 1
      = Some g' /\
    Cached.neighborCache g' = ∅ /\
    (forall k, Cached.cacheValid g' !! k = Some true ->
               (∅ : gmap string bool) !! k = Some true) /\
    (forall x' y', ~ (0 - 1 <= x' <= 0 + 1 /\ 2 - 1 <= y' <= 2 + 1) ->
       Cached.cacheValid g' !! Cached.getCacheKey x' y'
       = (∅ : gmap string bool) !! Cached.getCacheKey x' y').
Proof.
  assert (GoInt.is_byte 1) as Hb by (unfold GoInt.is_byte; lia).
  split; [apply blinker_cached_wf|]. split; [reflexivity|].
  split; [exact Hb|].
  apply (setcell_spares_the_rest_of_the_cache
           (Cached.mkGrid 5 5 Examples.blinker_rows ∅ ∅) 0 2 1).
  - apply blinker_cached_wf.
  - reflexivity.
  - exact Hb.
Defined.

(** X17. [getCacheKey] gives two coordinates the same key exactly when
    they are the same coordinate, negative ones included: no two cells
    share a cache entry. *)
Theorem cache_keys_do_not_collide (x y x' y' : Z) :
  Cached.getCacheKey x y = Cached.getCacheKey x' y' <-> x = x' /\ y = y'.
Proof.
  split; [apply getCacheKey_inj|]. by intros [-> ->].
Qed.

(** ** Seeding *)

Section Seeding.
Import GoInt Main.

Lemma basic_SetCell_alive g x y w h :
  RowsShape.wf w h (Basic.cells g) ->
  Basic.width g = w -> Basic.height g = h ->
  Rows.inside w h x y = true ->
  exists g1, Basic.SetCell g x y true = Some g1 /\
    RowsShape.wf w h (Basic.cells g1) /\
    Basic.width g1 = w /\ Basic.height g1 = h /\
    forall x' y', Basic.GetCell g1 x' y'
      = if Rows.inside w h x' y' && bool_decide ([x'; y'] = [x; y])
        then Some 1 else Basic.GetCell g x' y'.
Proof.
  intros Hwf <- <- Hin. unfold Basic.SetCell, Basic.GetCell. rewrite Hin.
  assert (is_byte 1) as Hv by (unfold is_byte; lia).
  destruct (write_inside _ _ _ x y 1 Hwf Hin Hv)
    as (cells' & -> & Hwf' & Hread & Hrest).
  simpl. eexists. split; [done|]. simpl. split_and!; try done.
  intros x' y'. destruct (Rows.inside _ _ x' y') eqn:Hin'; [|done]. simpl.
  case_bool_decide as Heq.
  - injection Heq as -> ->. done.
  - apply Hrest. congruence.
Qed.

Lemma seed_skips w h coords g out :
  RowsShape.wf w h (Basic.cells g) ->
  Basic.width g = w -> Basic.height g = h ->
  exists g',
    seed w h coords (g, out)
    = Some (g', out +:+ Layout.join (warnings w h coords)) /\
    RowsShape.wf w h (Basic.cells g') /\
    Basic.width g' = w /\ Basic.height g' = h /\
    forall x y,
      Basic.GetCell g' x y
      = if Rows.inside w h x y && listed coords x y then Some 1
        else Basic.GetCell g x y.
Proof.
  revert g out. induction coords as [|coord coords IH]; intros g out Hwf Hw Hh.
  - exists g. simpl. rewrite append_empty_r. split_and!; try done.
    intros x y. unfold listed.
    rewrite bool_decide_eq_false_2 by apply not_elem_of_nil.
    by rewrite andb_false_r.
  - assert (forall g1 out1,
      RowsShape.wf w h (Basic.cells g1) ->
      Basic.width g1 = w -> Basic.height g1 = h ->
      (forall x y, Basic.GetCell g1 x y
         = if Rows.inside w h x y && bool_decide ([x; y] = coord)
           then Some 1 else Basic.GetCell g x y) ->
      exists g',
        seed w h coords (g1, out1)
        = Some (g', out1 +:+ Layout.join (warnings w h coords)) /\
        RowsShape.wf w h (Basic.cells g') /\
        Basic.width g' = w /\ Basic.height g' = h /\
        forall x y,
          Basic.GetCell g' x y
          = if Rows.inside w h x y && listed (coord :: coords) x y
            then Some 1 else Basic.GetCell g x y) as Hrest.
    { intros g1 out1 Hwf1 Hw1 Hh1 Hg1.
      destruct (IH g1 out1 Hwf1 Hw1 Hh1) as (g' & Hrun & ? & ? & ? & Hg').
      exists g'. split_and!; try done. intros x y. rewrite Hg', Hg1.
      unfold listed. destruct (Rows.inside w h x y); [|done]. simpl.
      destruct (decide ([x; y] = coord)) as [Heq|Hne].
      - rewrite (bool_decide_eq_true_2 ([x; y] = coord)) by done.
        rewrite (bool_decide_eq_true_2 ([x; y] ∈ coord :: coords))
          by (rewrite Heq; apply elem_of_cons; by left).
        by destruct (bool_decide _).
      - rewrite (bool_decide_eq_false_2 ([x; y] = coord)) by done.
        destruct (decide ([x; y] ∈ coords)) as [Hel|Hel].
        + rewrite !bool_decide_eq_true_2;
            [done|apply elem_of_cons; by right|done].
        + rewrite !bool_decide_eq_false_2; [done| |done].
          rewrite elem_of_cons. tauto. }
    assert (forall x y, Basic.GetCell g x y
         = if Rows.inside w h x y && false
           then Some 1 else Basic.GetCell g x y) as Hsame
      by (intros; by rewrite andb_false_r).
    destruct coord as [|x [|y [|z coord]]]; cbn [seed].
    + change (Slice.len (A:=Z) [] =? 2) with false. cbn iota.
      destruct (Hrest g out Hwf Hw Hh) as (g' & ? & ?).
      { intros x' y'. rewrite bool_decide_eq_false_2 by discriminate.
        apply Hsame. }
      exists g'. by split.
    + change (Slice.len [x] =? 2) with false. cbn iota.
      destruct (Hrest g out Hwf Hw Hh) as (g' & ? & ?).
      { intros x' y'. rewrite bool_decide_eq_false_2 by discriminate.
        apply Hsame. }
      exists g'. by split.
    + change (Slice.len [x; y] =? 2) with true. cbn iota.
      change (Slice.index [x; y] 0) with (Some x).
      change (Slice.index [x; y] 1) with (Some y). simpl.
      rewrite !Z.geb_leb.
      destruct (Rows.inside w h x y) eqn:Hin.
      * apply rows_inside_spec in Hin as Hxy.
        assert ((x <? 0) || (w <=? x) || (y <? 0) || (h <=? y) = false)
          as -> by (decide_tests; done).
        destruct (basic_SetCell_alive g x y w h Hwf Hw Hh Hin)
          as (g1 & -> & Hwf1 & Hw1 & Hh1 & Hg1). simpl.
        destruct (Hrest g1 out Hwf1 Hw1 Hh1 Hg1) as (g' & ? & ?).
        exists g'. by split.
      * apply rows_inside_false in Hin as Hxy.
        assert ((x <? 0) || (w <=? x) || (y <? 0) || (h <=? y) = true)
          as -> by (decide_tests; done).
        destruct (Hrest g (out +:+ warning x y w h) Hwf Hw Hh)
          as (g' & -> & ?).
        { intros x' y'. destruct (Rows.inside w h x' y') eqn:Hin'; [|done].
          simpl. rewrite bool_decide_eq_false_2; [done|].
          intros [= -> ->]. congruence. }
        exists g'. split; [|done]. f_equal. f_equal.
        change (Layout.join (?a :: ?l)) with (a +:+ Layout.join l).
        by rewrite append_assoc.
    + rewrite (proj2 (Z.eqb_neq (Slice.len (x :: y :: z :: coord)) 2))
        by (unfold Slice.len; simpl length; lia).
      destruct (Hrest g out Hwf Hw Hh) as (g' & ? & ?).
      { intros x' y'. rewrite bool_decide_eq_false_2 by discriminate.
        apply Hsame. }
      exists g'. by split.
Qed.

End Seeding.

(** ** Randomize *)

Section RandomizeFacts.
Import GoInt Chance.

(** A loop on a part of the state is the loop on that part. *)
Lemma iter_embed {S T} (inj : S -> T) (body1 : Z -> S -> option S)
    (body2 : Z -> T -> option T) k i s :
  (forall j t, i <= j < i + Z.of_nat k ->
     body2 j (inj t) = inj <$> body1 j t) ->
  Loop.iter k i body2 (inj s) = inj <$> Loop.iter k i body1 s.
Proof.
  revert i s. induction k as [|k IH]; intros i s Hbody; [done|].
  simpl. rewrite Hbody by lia. destruct (body1 i s) as [t|]; [|done].
  simpl. apply IH. intros. apply Hbody. lia.
Qed.

Lemma for_up_embed {S T} (inj : S -> T) (body1 : Z -> S -> option S)
    (body2 : Z -> T -> option T) lo hi s :
  (forall j t, lo <= j < hi -> body2 j (inj t) = inj <$> body1 j t) ->
  Loop.for_up lo hi body2 (inj s) = inj <$> Loop.for_up lo hi body1 s.
Proof. intros Hbody. apply iter_embed. intros. apply Hbody. lia. Qed.

Lemma drawn_binary now x y : drawn now x y = 0 \/ drawn now x y = 1.
Proof. unfold drawn. destruct (_ =? _); auto. Qed.

(** Writing the drawn byte into every cell, row by row, leaves the table
    of the drawn bytes. *)
Lemma rows_randomize now w h cells :
  RowsShape.wf w h cells ->
  Loop.for_up 0 h (fun y =>
    Loop.for_up 0 w (fun x c => Rows.write c x y (drawn now x y))) cells
  = Some (Layout.table w h (drawn now)) /\
  RowsShape.wf w h (Layout.table w h (drawn now)).
Proof.
  intros Hwf.
  destruct (fill_grid (fun _ => w) (fun _ => h) (RowsShape.wf w h)
    (RowsShape.value w h) (fun c x y v => Rows.write c x y v))
    with (f := drawn now) (w := w) (h := h) (g0 := cells)
    as (c & -> & Hwf' & _ & _ & Hcells); try done.
  - intros c x y v Hc Hin Hv.
    destruct (write_inside w h c x y v Hc Hin) as (c' & -> & ? & Hread & Hrest).
    { unfold is_byte. lia. }
    exists c'. split_and!; try done.
    + unfold RowsShape.value. by rewrite Hin, Hread.
    + by apply value_write.
  - apply drawn_binary.
  - assert (c = Layout.table w h (drawn now)) as <-; [|done].
    rewrite <-(table_rows w h c Hwf'). by apply table_ext.
Qed.

(** The loops of [Randomize] for a grid that wraps the rows. *)
Lemma wrapped_randomize {G} (pack : list (list Z) -> G) now w h
    (body : Z -> Z -> G -> option G) cells :
  RowsShape.wf w h cells ->
  (forall x y c, body x y (pack c)
     = pack <$> (if rem (add (add x y) (now x y)) 3 =? 0
                 then Rows.write c x y 1 else Rows.write c x y 0)) ->
  Loop.for_up 0 h (fun y => Loop.for_up 0 w (fun x => body x y)) (pack cells)
  = Some (pack (Layout.table w h (drawn now))).
Proof.
  intros Hwf Hbody.
  rewrite (for_up_embed pack (fun y =>
    Loop.for_up 0 w (fun x c => Rows.write c x y (drawn now x y)))).
  - by destruct (rows_randomize now w h cells Hwf) as [-> _].
  - intros y c _. apply for_up_embed. intros x c' _.
    rewrite Hbody. unfold drawn. by destruct (_ =? _).
Qed.

Lemma randomize_rows_basic now w h cells :
  RowsShape.wf w h cells ->
  RandomizeBasic.Randomize now (Basic.mkGrid w h cells)
    = Some (Basic.mkGrid w h (Layout.table w h (drawn now))) /\
  RowsShape.wf w h (Layout.table w h (drawn now)).
Proof.
  intros Hwf. split; [|by destruct (rows_randomize now w h cells Hwf)].
  unfold RandomizeBasic.Randomize. cbn [Basic.width Basic.height].
  apply (wrapped_randomize (Basic.mkGrid w h) now w h
    (fun x y g =>
       cells' ← (if rem (add (add x y) (now x y)) 3 =? 0
                 then Rows.write (Basic.cells g) x y 1
                 else Rows.write (Basic.cells g) x y 0);
       Some (Basic.mkGrid (Basic.width g) (Basic.height g) cells')));
    [done|].
  intros x y c. simpl. by destruct (_ =? _).
Qed.

End RandomizeFacts.

(** X18. [Randomize] of the grids of byte rows never panics on a
    well-formed grid and overwrites every cell: whatever the cells were,
    the rows afterwards are exactly the bytes drawn for each cell, 1
    where the sum of the coordinates and the clock reading is a multiple
    of three and 0 elsewhere.  The dimensions stay, and the cached and
    the double-buffered grid keep their cache maps (and the buffer) as
    they were. *)
Theorem randomize_draws_every_cell
    (now : Z -> Z -> Z) (w h : Z) (cells : list (list Z))
    (counts : gmap string Z) (valid : gmap string bool)
    (buffer : list (list Z)) (counts' : gmap Z Z) (valid' : gmap Z bool) :
  RowsShape.wf w h cells ->
  RandomizeBasic.Randomize now (Basic.mkGrid w h cells)
    = Some (Basic.mkGrid w h (Layout.table w h (Chance.drawn now))) /\
  RandomizeBytes2D.Randomize now (Bytes2D.mkGrid w h cells)
    = Some (Bytes2D.mkGrid w h (Layout.table w h (Chance.drawn now))) /\
  RandomizeCached.Randomize now (Cached.mkGrid w h cells counts valid)
    = Some (Cached.mkGrid w h (Layout.table w h (Chance.drawn now))
              counts valid) /\
  Buffered.Randomize now (Buffered.mkGrid w h cells buffer counts' valid')
    = Some (Buffered.mkGrid w h (Layout.table w h (Chance.drawn now))
              buffer counts' valid').
Proof.
  intros Hwf.
  unfold RandomizeBasic.Randomize, RandomizeBytes2D.Randomize,
    RandomizeCached.Randomize, Buffered.Randomize.
  cbn [Basic.width Basic.height Bytes2D.width Bytes2D.height
       Cached.width Cached.height Buffered.width Buffered.height].
  split; [|split; [|split]].
  - apply (wrapped_randomize (Basic.mkGrid w h) now w h
      (fun x y g =>
         cells' ← (if GoInt.rem (GoInt.add (GoInt.add x y) (now x y)) 3 =? 0
                   then Rows.write (Basic.cells g) x y 1
                   else Rows.write (Basic.cells g) x y 0);
         Some (Basic.mkGrid (Basic.width g) (Basic.height g) cells')));
      [done|].
    intros x y c. simpl. by destruct (_ =? _).
  - apply (wrapped_randomize (Bytes2D.mkGrid w h) now w h
      (fun x y g =>
         cells' ← (if GoInt.rem (GoInt.add (GoInt.add x y) (now x y)) 3 =? 0
                   then Rows.write (Bytes2D.cells g) x y 1
                   else Rows.write (Bytes2D.cells g) x y 0);
         Some (Bytes2D.mkGrid (Bytes2D.width g) (Bytes2D.height g) cells')));
      [done|].
    intros x y c. simpl. by destruct (_ =? _).
  - apply (wrapped_randomize (fun c => Cached.mkGrid w h c counts valid)
      now w h
      (fun x y g =>
         cells' ← (if GoInt.rem (GoInt.add (GoInt.add x y) (now x y)) 3 =? 0
                   then Rows.write (Cached.cells g) x y 1
                   else Rows.write (Cached.cells g) x y 0);
         Some (Cached.mkGrid (Cached.width g) (Cached.height g) cells'
                 (Cached.neighborCache g) (Cached.cacheValid g))));
      [done|].
    intros x y c. simpl. by destruct (_ =? _).
  - apply (wrapped_randomize
      (fun c => Buffered.mkGrid w h c buffer counts' valid') now w h
      (fun x y g =>
         cells' ← (if GoInt.rem (GoInt.add (GoInt.add x y) (now x y)) 3 =? 0
                   then Rows.write (Buffered.cells g) x y 1
                   else Rows.write (Buffered.cells g) x y 0);
         Some (Buffered.mkGrid (Buffered.width g) (Buffered.height g) cells'
                 (Buffered.buffer g) (Buffered.neighborCache g)
                 (Buffered.cacheValid g))));
      [done|].
    intros x y c. simpl. by destruct (_ =? _).
Qed.

Lemma randomize_draws_every_cell_witness :
  RowsShape.wf 5 5 Examples.blinker_rows /\
  RandomizeBasic.Randomize (fun x y => x * y)
      (Basic.mkGrid 5 5 Examples.blinker_rows)
    = Some (Basic.mkGrid 5 5
              (Layout.table 5 5 (Chance.drawn (fun x y => x * y)))) /\
  RandomizeBytes2D.Randomize (fun x y => x * y)
      (Bytes2D.mkGrid 5 5 Examples.blinker_rows)
    = Some (Bytes2D.mkGrid 5 5
              (Layout.table 5 5 (Chance.drawn (fun x y => x * y)))) /\
  RandomizeCached.Randomize (fun x y => x * y)
      (Cached.mkGrid 5 5 Examples.blinker_rows ∅ ∅)
    = Some (Cached.mkGrid 5 5
              (Layout.table 5 5 (Chance.drawn (fun x y => x * y))) ∅ ∅) /\
  Buffered.Randomize (fun x y => x * y)
      (Buffered.mkGrid 5 5 Examples.blinker_rows [] ∅ ∅)
    = Some (Buffered.mkGrid 5 5
              (Layout.table 5 5 (Chance.drawn (fun x y => x * y))) [] ∅ ∅).
Proof.
  split; [apply blinker_rows_wf|].
  apply (randomize_draws_every_cell (fun x y => x * y) 5 5
           Examples.blinker_rows ∅ ∅ [] ∅ ∅).
  apply blinker_rows_wf.
Defined.

(** X19. [Randomize] of the bit-packed grid never panics on a
    well-formed grid and leaves every in-bounds cell at the bit drawn for
    it, whatever the words held before; the dimensions stay and
    [GetCell] reads the drawn bit back. *)
Theorem bitmask_randomize_draws_every_cell
    (now : Z -> Z -> Z) (g : Bitmask.Grid) :
  BitmaskShape.wf g ->
  exists g',
    RandomizeBitmask.Randomize now g = Some g' /\
    BitmaskShape.wf g' /\
    Bitmask.width g' = Bitmask.width g /\
    Bitmask.height g' = Bitmask.height g /\
    forall x y, Bitmask.inside g x y = true ->
      Bitmask.GetCell g' x y = Some (Chance.drawn now x y).
Proof.
  intros Hwf. unfold RandomizeBitmask.Randomize.
  rewrite (for_up_ext _ (fun y => Loop.for_up 0 (Bitmask.width g)
    (fun x u => Bitmask.SetCell u x y (Chance.drawn now x y)))).
  2:{ intros y t _. apply for_up_ext. intros x u _.
      unfold Chance.drawn. by destruct (_ =? _). }
  destruct (fill_grid Bitmask.width Bitmask.height BitmaskShape.wf
    BitmaskShape.bit Bitmask.SetCell bitmask_SetCell_fill
    (Chance.drawn now) (Bitmask.width g) (Bitmask.height g) g Hwf)
    as (g' & -> & Hwf' & Hw & Hh & Hcells); try done.
  { apply drawn_binary. }
  exists g'. split_and!; try done.
  intros x y Hin. rewrite GetCell_bit by done. f_equal. by apply Hcells.
Qed.

Lemma bitmask_randomize_draws_every_cell_witness :
  BitmaskShape.wf Examples.blinker_bits /\
  exists g',
    RandomizeBitmask.Randomize (fun x y => x * y) Examples.blinker_bits
      = Some g' /\
    BitmaskShape.wf g' /\
    Bitmask.width g' = Bitmask.width Examples.blinker_bits /\
    Bitmask.height g' = Bitmask.height Examples.blinker_bits /\
    forall x y, Bitmask.inside Examples.blinker_bits x y = true ->
      Bitmask.GetCell g' x y = Some (Chance.drawn (fun x y => x * y) x y).
Proof.
  split; [apply blinker_bits_wf|].
  apply (bitmask_randomize_draws_every_cell (fun x y => x * y)
           Examples.blinker_bits).
  apply blinker_bits_wf.
Defined.

(** X20. [Randomize] of the cached grid writes the cells without
    telling the cache: a cell whose count was cached and valid before
    the call still gets that old count from [scanForLifeforms]
    afterwards, whatever the new cells are, and the scan changes
    nothing. *)
Theorem cached_randomize_keeps_old_counts
    (now : Z -> Z -> Z) (g : Cached.Grid) (x y : Z) :
  RowsShape.wf (Cached.width g) (Cached.height g) (Cached.cells g) ->
  Cached.cacheValid g !! Cached.getCacheKey x y = Some true ->
  exists g',
    RandomizeCached.Randomize now g = Some g' /\
    Cached.cells g'
      = Layout.table (Cached.width g) (Cached.height g) (Chance.drawn now) /\
    Cached.scanForLifeforms g' x y
      = Some (g', default 0 (Cached.neighborCache g !! Cached.getCacheKey x y)).
Proof.
  intros Hwf Hvalid. destruct g as [w h cells counts valid]. simpl in *.
  eexists. split; [|split].
  - unfold RandomizeCached.Randomize.
    cbn [Cached.width Cached.height].
    apply (wrapped_randomize (fun c => Cached.mkGrid w h c counts valid)
      now w h
      (fun x y g =>
         cells' ← (if GoInt.rem (GoInt.add (GoInt.add x y) (now x y)) 3 =? 0
                   then Rows.write (Cached.cells g) x y 1
                   else Rows.write (Cached.cells g) x y 0);
         Some (Cached.mkGrid (Cached.width g) (Cached.height g) cells'
                 (Cached.neighborCache g) (Cached.cacheValid g))));
      [done|].
    intros x' y' c. simpl. by destruct (_ =? _).
  - done.
  - unfold Cached.scanForLifeforms. simpl. by rewrite decide_True.
Qed.

Lemma cached_randomize_keeps_old_counts_witness :
  RowsShape.wf (Cached.width CachedExamples.first_step.1)
    (Cached.height CachedExamples.first_step.1)
    (Cached.cells CachedExamples.first_step.1) /\
  Cached.cacheValid CachedExamples.first_step.1 !! Cached.getCacheKey 2 2
    = Some true /\
  exists g',
    RandomizeCached.Randomize (fun x y => 1 - x - y)
      CachedExamples.first_step.1 = Some g' /\
    Cached.cells g'
      = Layout.table (Cached.width CachedExamples.first_step.1)
          (Cached.height CachedExamples.first_step.1)
          (Chance.drawn (fun x y => 1 - x - y)) /\
    Cached.scanForLifeforms g' 2 2
      = Some (g', default 0
           (Cached.neighborCache CachedExamples.first_step.1
              !! Cached.getCacheKey 2 2)).
Proof.
  assert (RowsShape.wf (Cached.width CachedExamples.first_step.1)
    (Cached.height CachedExamples.first_step.1)
    (Cached.cells CachedExamples.first_step.1)) as Hwf.
  { replace (Cached.cells CachedExamples.first_step.1)
      with Examples.blinker_rows by (vm_compute; reflexivity).
    apply blinker_rows_wf. }
  assert (Cached.cacheValid CachedExamples.first_step.1
            !! Cached.getCacheKey 2 2 = Some true) as Hvalid
    by (vm_compute; reflexivity).
  split; [exact Hwf|]. split; [exact Hvalid|].
  apply (cached_randomize_keeps_old_counts (fun x y => 1 - x - y)
           CachedExamples.first_step.1 2 2 Hwf Hvalid).
Defined.

(** X21. [Randomize] can leave the cache of the cached grid wrong.  The
    receiver of a [BoldlyGo] of the blinker has every count cached; when
    [Randomize] then draws a dead cell everywhere, [scanForLifeforms]
    still reports two live neighbours in the middle of the empty board,
    and the next [BoldlyGo] gives birth to a cell where no cell has a
    live neighbour. *)
Theorem cached_randomize_breaks_the_cache :
  exists (g : Cached.Grid) (now : Z -> Z -> Z) (g' r next : Cached.Grid),
    CachedShape.reachable g /\
    RandomizeCached.Randomize now g = Some g' /\
    (forall x y, CachedShape.value g' x y = 0) /\
    Cached.scanForLifeforms g' 2 2 = Some (g', 2) /\
    CachedShape.fresh g' 2 2 = 0 /\
    Cached.BoldlyGo g' = Some (r, next) /\
    CachedShape.value next 2 1 = 1.
Proof.
  exists CachedExamples.first_step.1, StaleExamples.clock,
    StaleExamples.shuffled, StaleExamples.stepped.1, StaleExamples.stepped.2.
  split_and!.
  - apply (CachedShape.reach_receiver CachedExamples.blinker
             CachedExamples.first_step.1 CachedExamples.first_step.2);
      [apply blinker_reachable|]. vm_compute. reflexivity.
  - vm_compute. reflexivity.
  - intros x y. unfold CachedShape.value, RowsShape.value.
    replace (Cached.width StaleExamples.shuffled) with 5
      by (vm_compute; reflexivity).
    replace (Cached.height StaleExamples.shuffled) with 5
      by (vm_compute; reflexivity).
    replace (Cached.cells StaleExamples.shuffled)
      with (replicate 5 (replicate 5 0)) by (vm_compute; reflexivity).
    destruct (Rows.inside 5 5 x y) eqn:Hin; [|done].
    apply rows_inside_spec in Hin.
    assert (x = 0 \/ x = 1 \/ x = 2 \/ x = 3 \/ x = 4) as Hx by lia.
    assert (y = 0 \/ y = 1 \/ y = 2 \/ y = 3 \/ y = 4) as Hy by lia.
    destruct Hx as [->|[->|[->|[->| ->]]]];
      destruct Hy as [->|[->|[->|[->| ->]]]]; reflexivity.
  - vm_compute. reflexivity.
  - vm_compute. reflexivity.
  - vm_compute. reflexivity.
  - vm_compute. reflexivity.
Qed.

(** ** The command [run] *)

Section RunFacts.
Import GoInt Main.

(** The grid [run] starts from, when [NewGrid] returns. *)
Lemma basic_NewGrid_Some w h g :
  Basic.NewGrid w h = Some g ->
  exists cells,
    g = Basic.mkGrid w h cells /\
    RowsShape.wf w h cells /\
    forall x y, Basic.GetCell (Basic.mkGrid w h cells) x y = Some 0.
Proof.
  unfold Basic.NewGrid.
  destruct (Rows.alloc w h) as [cells|] eqn:Halloc; [|done].
  simpl. intros [= <-]. exists cells. split; [done|].
  split; [by apply wf_alloc|].
  apply alloc_Some in Halloc as (Hh & Hw & ->).
  intros x y. unfold Basic.GetCell. simpl.
  destruct (Rows.inside w h x y) eqn:Hin; [|done].
  apply rows_inside_spec in Hin. unfold Rows.read.
  rewrite index_lookup, lookup_replicate_2 by lia. simpl.
  by rewrite index_lookup, lookup_replicate_2 by lia.
Qed.

(** What [GetCell] reports is what the rows hold. *)
Lemma rows_of_cells w h cells (f : Z -> Z -> Z) :
  RowsShape.wf w h cells ->
  (forall x y, Rows.inside w h x y = true ->
     Basic.GetCell (Basic.mkGrid w h cells) x y = Some (f x y)) ->
  cells = Layout.table w h f.
Proof.
  intros Hwf Hcells. rewrite <-(table_rows w h cells Hwf).
  apply table_ext. intros x y Hin. specialize (Hcells x y Hin).
  unfold Basic.GetCell in Hcells. simpl in Hcells. rewrite Hin in Hcells.
  unfold RowsShape.value. by rewrite Hin, Hcells.
Qed.

(** Once [NewGrid] has returned, nothing in [run] panics. *)
Lemma run_returns w h random now cells g :
  Basic.NewGrid w h = Some g -> is_Some (run w h random now cells).
Proof.
  intros Hnew. unfold run. rewrite Hnew.
  destruct (basic_NewGrid_Some w h g Hnew) as (rows & -> & Hwf & _). simpl.
  assert (forall rows', RowsShape.wf w h rows' ->
    is_Some (Basic.Display (Basic.mkGrid w h rows'))) as Hshow.
  { intros rows' Hwf'. unfold Basic.Display. simpl.
    destruct (frame_prints (Render.home +:+ Render.clear) w h
      (Rows.read rows')) as (rest & -> & _); [|done].
    intros. by eapply rows_readable. }
  destruct random.
  - destruct (randomize_rows_basic now w h rows Hwf) as [-> Hwf'].
    simpl. destruct (Hshow _ Hwf') as [frame ->]. done.
  - destruct cells as [err|cellCoords]; [done|].
    destruct (seed_skips w h cellCoords (Basic.mkGrid w h rows) "" Hwf)
      as ([w' h' rows'] & -> & Hwf' & Hw' & Hh' & _); try done.
    simpl in *. subst w' h'.
    destruct (Hshow rows' Hwf') as [frame ->]. done.
Qed.

End RunFacts.

(** X22. The seeding loop of [run] on a well-formed grid of the size
    given by the flags never panics.  Afterwards a cell is alive when it
    was alive before or when the list holds it as a pair inside of the
    grid, and every other cell is as it was; entries that do not have
    exactly two numbers are skipped silently, and every pair outside of
    the grid prints one warning, in the order of the list. *)
Theorem seeding_marks_the_listed_cells
    (w h : Z) (cellCoords : list (list Z)) (g : Basic.Grid) (out : string) :
  RowsShape.wf w h (Basic.cells g) ->
  Basic.width g = w -> Basic.height g = h ->
  exists g',
    Main.seed w h cellCoords (g, out)
    = Some (g', out +:+ Layout.join (Main.warnings w h cellCoords)) /\
    RowsShape.wf w h (Basic.cells g') /\
    Basic.width g' = w /\ Basic.height g' = h /\
    forall x y,
      Basic.GetCell g' x y
      = if Rows.inside w h x y && Main.listed cellCoords x y then Some 1
        else Basic.GetCell g x y.
Proof. apply seed_skips. Qed.

Lemma seeding_marks_the_listed_cells_witness :
  RowsShape.wf 5 5 Examples.blinker_rows /\
  exists g',
    Main.seed 5 5 [[0; 0]; [7; 1]; [3]; [4; 4]; [0; -1]]
      (Basic.mkGrid 5 5 Examples.blinker_rows, "")
    = Some (g', "" +:+ Layout.join
         (Main.warnings 5 5 [[0; 0]; [7; 1]; [3]; [4; 4]; [0; -1]])) /\
    RowsShape.wf 5 5 (Basic.cells g') /\
    Basic.width g' = 5 /\ Basic.height g' = 5 /\
    forall x y,
      Basic.GetCell g' x y
      = if Rows.inside 5 5 x y
           && Main.listed [[0; 0]; [7; 1]; [3]; [4; 4]; [0; -1]] x y
        then Some 1
        else Basic.GetCell (Basic.mkGrid 5 5 Examples.blinker_rows) x y.
Proof.
  split; [apply blinker_rows_wf|].
  apply (seeding_marks_the_listed_cells 5 5
    [[0; 0]; [7; 1]; [3]; [4; 4]; [0; -1]]
    (Basic.mkGrid 5 5 Examples.blinker_rows) "");
    [apply blinker_rows_wf|reflexivity|reflexivity].
Defined.

(** X23. Without the flag [random] and with coordinates that parse,
    [run] prints, once [NewGrid] has returned for the flags (and the
    width is within 2^62): one warning per pair outside of the grid, then
    the frame [Display] draws, in which exactly the pairs of the list
    that lie inside of the grid are alive, then the closing line.  The
    order of the list and repeated pairs make no difference to the
    frame. *)
Theorem run_shows_the_listed_cells
    (w h : Z) (now : Z -> Z -> Z) (cellCoords : list (list Z))
    (g0 : Basic.Grid) :
  Basic.NewGrid w h = Some g0 -> - 2 ^ 62 <= w < 2 ^ 62 ->
  Main.run w h false now (inr cellCoords)
  = Some (Layout.join (Main.warnings w h cellCoords)
          +:+ (Render.home +:+ Render.clear
               +:+ Layout.join
                     (Layout.lines w
                        (Layout.table w h (Main.seeded cellCoords))))
          +:+ Main.closing w h).
Proof.
  intros Hnew Hw. unfold Main.run. rewrite Hnew.
  destruct (basic_NewGrid_Some w h g0 Hnew) as (rows & -> & Hwf & Hdead).
  simpl.
  destruct (seed_skips w h cellCoords (Basic.mkGrid w h rows) "" Hwf)
    as ([w' h' rows'] & -> & Hwf' & Hw' & Hh' & Hcells); try done.
  simpl in *. subst w' h'. unfold Basic.Display. simpl.
  rewrite rows_frame_lines by done. simpl.
  rewrite (rows_of_cells w h rows' (Main.seeded cellCoords) Hwf').
  - by rewrite !append_assoc.
  - intros x y Hin. rewrite Hcells, Hin, Hdead. unfold Main.seeded.
    simpl. by destruct (Main.listed cellCoords x y).
Qed.

Lemma run_shows_the_listed_cells_witness :
  Basic.NewGrid 3 2 = Some (Basic.mkGrid 3 2 [[0; 0; 0]; [0; 0; 0]]) /\
  - 2 ^ 62 <= 3 < 2 ^ 62 /\
  Main.run 3 2 false (fun _ _ => 0) (inr [[1; 0]; [5; 5]; [7]; [2; 1]])
  = Some (Layout.join (Main.warnings 3 2 [[1; 0]; [5; 5]; [7]; [2; 1]])
          +:+ (Render.home +:+ Render.clear
               +:+ Layout.join
                     (Layout.lines 3
                        (Layout.table 3 2
                           (Main.seeded [[1; 0]; [5; 5]; [7]; [2; 1]]))))
          +:+ Main.closing 3 2).
Proof.
  assert (Basic.NewGrid 3 2 = Some (Basic.mkGrid 3 2 [[0; 0; 0]; [0; 0; 0]]))
    as Hnew by reflexivity.
  split; [exact Hnew|]. split; [lia|].
  apply (run_shows_the_listed_cells 3 2 (fun _ _ => 0)
           [[1; 0]; [5; 5]; [7]; [2; 1]] _ Hnew); lia.
Defined.

(** X24. With the flag [random], [run] never looks at the flag [cells]:
    once [NewGrid] has returned for the flags (and the width is within
    2^62), whatever [cells] holds, text that does not parse included,
    the output is the frame of the drawn cells followed by the closing
    line, and no warning is printed. *)
Theorem run_random_ignores_the_cells
    (w h : Z) (now : Z -> Z -> Z) (cells : string + list (list Z))
    (g0 : Basic.Grid) :
  Basic.NewGrid w h = Some g0 -> - 2 ^ 62 <= w < 2 ^ 62 ->
  Main.run w h true now cells
  = Some ((Render.home +:+ Render.clear
           +:+ Layout.join
                 (Layout.lines w (Layout.table w h (Chance.drawn now))))
          +:+ Main.closing w h).
Proof.
  intros Hnew Hw. unfold Main.run. rewrite Hnew.
  destruct (basic_NewGrid_Some w h g0 Hnew) as (rows & -> & Hwf & _).
  simpl.
  destruct (randomize_rows_basic now w h rows Hwf) as [-> Hwf']. simpl.
  unfold Basic.Display. simpl.
  rewrite rows_frame_lines by done. simpl.
  by rewrite !append_assoc.
Qed.

Lemma run_random_ignores_the_cells_witness :
  Basic.NewGrid 3 2 = Some (Basic.mkGrid 3 2 [[0; 0; 0]; [0; 0; 0]]) /\
  - 2 ^ 62 <= 3 < 2 ^ 62 /\
  Main.run 3 2 true (fun x y => x * y) (inl "unexpected end of JSON input")
  = Some ((Render.home +:+ Render.clear
           +:+ Layout.join
                 (Layout.lines 3
                    (Layout.table 3 2 (Chance.drawn (fun x y => x * y)))))
          +:+ Main.closing 3 2).
Proof.
  assert (Basic.NewGrid 3 2 = Some (Basic.mkGrid 3 2 [[0; 0; 0]; [0; 0; 0]]))
    as Hnew by reflexivity.
  split; [exact Hnew|]. split; [lia|].
  apply (run_random_ignores_the_cells 3 2 (fun x y => x * y)
           (inl "unexpected end of JSON input") _ Hnew); lia.
Defined.

(** X25. [run] panics exactly when its call of [NewGrid] does, as on a
    negative height or on a negative width with at least one row to
    make: once [NewGrid] has returned, neither the seeding, whatever the
    coordinates, nor [Randomize] nor [Display] can panic.  When the
    coordinates do not parse, the error line is all that is printed: no
    frame and no closing line. *)
Theorem run_panics_exactly_with_newgrid
    (w h : Z) (random : bool) (now : Z -> Z -> Z)
    (cells : string + list (list Z)) :
  (Main.run w h random now cells = None <-> Basic.NewGrid w h = None) /\
  (h < 0 \/ (0 < h /\ w < 0) -> Main.run w h random now cells = None) /\
  (forall err out,
     Main.run w h false now (inl err) = Some out ->
     out = "Error parsing cells: " +:+ err +:+ Render.NL).
Proof.
  split; [|split].
  - split.
    + intros Hfail. destruct (Basic.NewGrid w h) as [g|] eqn:Hnew; [|done].
      destruct (run_returns w h random now cells g Hnew) as [out Hout].
      congruence.
    + intros Hnew. unfold Main.run. by rewrite Hnew.
  - intros Hneg. unfold Main.run, Basic.NewGrid.
    destruct (Rows.alloc w h) as [rows|] eqn:Halloc; [|done].
    apply alloc_Some in Halloc. lia.
  - intros err out. unfold Main.run.
    destruct (Basic.NewGrid w h); simpl; [|done]. by intros [= <-].
Qed.

Section BufferedFacts.
Import GoInt Buffered BufferedShape.

Lemma buffered_inside_spec g x y :
  inside g x y = true <-> 0 <= x < width g /\ 0 <= y < height g.
Proof. apply rows_inside_spec. Qed.

Lemma buffered_int_range g x y :
  wf g -> inside g x y = true ->
  is_int (x - 1) /\ is_int (x + 1) /\ is_int (y - 1) /\ is_int (y + 1).
Proof.
  intros (Hw & Hh & _) Hin%buffered_inside_spec. unfold is_int in *. lia.
Qed.

(** The key of a cell of the grid is its row-major index. *)
Lemma key_inside w h x y :
  is_int w -> w * h < 2 ^ 63 -> Rows.inside w h x y = true ->
  add (mul y w) x = y * w + x /\ 0 <= y * w + x < w * h.
Proof.
  intros Hw Hfit Hin%rows_inside_spec.
  assert (0 <= y * w + x < w * h) by nia.
  assert (0 <= y * w <= y * w + x) by nia.
  rewrite mul_small, add_small by (unfold is_int in *; lia). done.
Qed.

Lemma key_inj w h x y x' y' :
  is_int w -> w * h < 2 ^ 63 ->
  Rows.inside w h x y = true -> Rows.inside w h x' y' = true ->
  add (mul y w) x = add (mul y' w) x' -> x = x' /\ y = y'.
Proof.
  intros Hw Hfit Hin Hin'.
  destruct (key_inside w h x y Hw Hfit Hin) as [-> _].
  destruct (key_inside w h x' y' Hw Hfit Hin') as [-> _].
  apply rows_inside_spec in Hin, Hin'. intros Heq.
  assert (y = y') by nia. subst. lia.
Qed.

(** [BoldlyGo] gets the cell back from its key. *)
Lemma key_decode w h x y :
  is_int w -> w * h < 2 ^ 63 -> Rows.inside w h x y = true ->
  modulo (add (mul y w) x) w = Some x /\ quo (add (mul y w) x) w = Some y.
Proof.
  intros Hw Hfit Hin.
  destruct (key_inside w h x y Hw Hfit Hin) as [-> Hk].
  apply rows_inside_spec in Hin. unfold modulo, quo.
  destruct (Z.eqb_spec w 0); [lia|].
  rewrite rem_nonneg, div_nonneg by (unfold is_int in *; lia).
  split; f_equal.
  - rewrite Z.add_comm, Z.mod_add by lia. apply Z.mod_small. lia.
  - rewrite Z.add_comm, Z.div_add by lia. rewrite Z.div_small by lia. lia.
Qed.

(** *** Invalidation *)

Lemma drop_flag w h valid p k :
  drop w h valid p !! k
  = if Rows.inside w h p.1 p.2 && (add (mul p.2 w) p.1 =? k)
    then Some false else valid !! k.
Proof.
  unfold drop. destruct (Rows.inside w h p.1 p.2); [|done]. simpl.
  destruct (Z.eqb_spec (add (mul p.2 w) p.1) k) as [->|Hne].
  - apply lookup_insert_eq.
  - by apply lookup_insert_ne.
Qed.

Lemma drop_all_flags w h l valid k :
  foldl (drop w h) valid l !! k
  = if existsb (fun p : Z * Z =>
         Rows.inside w h p.1 p.2 && (add (mul p.2 w) p.1 =? k)) l
    then Some false else valid !! k.
Proof.
  revert valid. induction l as [|p l IH]; intros valid; simpl; [done|].
  rewrite IH, drop_flag.
  destruct (Rows.inside w h p.1 p.2 && _); simpl; [|done].
  by destruct (existsb _ l).
Qed.

Lemma buffered_invalidate_flags g x y :
  is_int (x - 1) -> is_int (x + 1) -> is_int (y - 1) -> is_int (y + 1) ->
  invalidateNeighborCache g x y
  = Some (mkGrid (width g) (height g) (cells g) (buffer g) (neighborCache g)
            (foldl (drop (width g) (height g)) (cacheValid g)
               (CachedShape.block x y))).
Proof.
  intros Hx1 Hx2 Hy1 Hy2.
  assert (is_int x /\ is_int y) as [Hx Hy] by (unfold is_int in *; lia).
  unfold invalidateNeighborCache.
  destruct g as [w h c b nc cv].
  assert (forall dx dy cv', -1 <= dx <= 1 -> -1 <= dy <= 1 ->
    (if inside (mkGrid w h c b nc cv') (add x dx) (add y dy) then
       Some (mkGrid w h c b nc
               (<[getCacheKey (mkGrid w h c b nc cv') (add x dx) (add y dy)
                  := false]> cv'))
     else Some (mkGrid w h c b nc cv'))
    = Some (mkGrid w h c b nc (drop w h cv' (x + dx, y + dy))))
    as Hstep.
  { intros dx dy cv' Hdx Hdy.
    rewrite !add_small by (unfold is_int in *; lia).
    unfold drop, inside, getCacheKey. simpl.
    by destruct (Rows.inside _ _ (x + dx) (y + dy)). }
  rewrite around_unfold. cbn beta zeta.
  repeat (cbn [mbind option_bind width height cells buffer neighborCache
               cacheValid];
          rewrite Hstep by lia).
  cbn [mbind option_bind width height cells buffer neighborCache cacheValid].
  rewrite ?Z.add_0_r. done.
Qed.

(** The flags after the invalidation of the cells of [keys]. *)
Lemma invalidateChanged_flags w h cells buffer counts keys valid :
  is_int w -> is_int h -> w * h < 2 ^ 63 ->
  (forall k, k ∈ keys ->
     exists a b, Rows.inside w h a b = true /\ k = add (mul b w) a) ->
  exists valid',
    invalidateChanged keys (mkGrid w h cells buffer counts valid)
    = Some (mkGrid w h cells buffer counts valid') /\
    forall k, valid' !! k
      = if covered w h keys k then Some false else valid !! k.
Proof.
  intros Hw Hh Hfit. revert valid.
  induction keys as [|key keys IH]; intros valid Hkeys.
  { exists valid. by split. }
  destruct (Hkeys key) as (a & b & Hin & ->); [apply elem_of_cons; by left|].
  cbn [invalidateChanged width].
  destruct (key_decode w h a b Hw Hfit Hin) as [Hmod Hquo].
  rewrite Hmod, Hquo.
  cbn [mbind option_bind Buffered.width].
  assert (is_int (a - 1) /\ is_int (a + 1) /\ is_int (b - 1) /\ is_int (b + 1))
    as (? & ? & ? & ?).
  { apply rows_inside_spec in Hin. unfold is_int in *. lia. }
  rewrite buffered_invalidate_flags by done.
  cbn [mbind option_bind Buffered.width Buffered.height Buffered.cells
       Buffered.buffer neighborCache cacheValid].
  destruct (IH (foldl (drop w h) valid (CachedShape.block a b)))
    as (valid' & -> & Hflags).
  { intros k Hk. apply Hkeys, elem_of_cons. by right. }
  exists valid'. split; [done|]. intros k.
  rewrite Hflags, drop_all_flags. unfold covered. cbn [existsb].
  unfold modulo, quo in Hmod, Hquo.
  destruct (w =? 0); [done|]. injection Hmod as ->. injection Hquo as ->.
  unfold near. destruct (existsb _ keys); [by rewrite orb_true_r|].
  by rewrite orb_false_r.
Qed.

(** The loops after the invalidation change nothing. *)
Lemma prepopulate_skips changedCells g : prepopulate changedCells g = Some g.
Proof.
  unfold prepopulate.
  rewrite (for_up_ext _ (fun _ s => Some s)); [apply for_up_skip|].
  intros y t _.
  rewrite (for_up_ext _ (fun _ s => Some s)); [apply for_up_skip|].
  intros x u _. cbn zeta. by destruct (_ && _).
Qed.

(** *** Scans *)

Lemma buffered_fresh_ext g g' x y :
  width g' = width g -> height g' = height g ->
  (forall p, p ∈ Life.moore x y -> value g' p.1 p.2 = value g p.1 p.2) ->
  fresh g' x y = fresh g x y.
Proof.
  intros Hw Hh Hext. unfold fresh. rewrite Hw, Hh.
  apply neighbor_sum_moore. intros. by apply Hext.
Qed.

Lemma buffered_scan g x y :
  wf g -> cache_ok g -> inside g x y = true ->
  exists counts valid,
    scanForLifeforms g x y
    = Some (mkGrid (width g) (height g) (cells g) (buffer g) counts valid,
            fresh g x y) /\
    cache_ok (mkGrid (width g) (height g) (cells g) (buffer g) counts valid).
Proof.
  intros Hwf Hok Hin. unfold scanForLifeforms. case_decide as Hvalid.
  - exists (neighborCache g), (cacheValid g).
    rewrite (Hok x y Hin Hvalid). by destruct g.
  - destruct (buffered_int_range g x y Hwf Hin) as (? & ? & ? & ?).
    match goal with
    | |- context [Loop.around ?body 0] =>
        replace (Loop.around body 0) with (Some (fresh g x y))
    end.
    2:{ symmetry.
        apply (around_scan (width g) (height g) (Rows.read (cells g)) (value g));
          try done.
        intros; apply read_value; [apply Hwf|done]. }
    simpl. eexists _, _. split; [done|].
    intros a b Hina Hab. unfold getCacheKey, inside in *. simpl in *.
    destruct Hwf as (Hw & _ & Hfit & _).
    destruct (decide (add (mul y (width g)) x = add (mul b (width g)) a))
      as [Hk|Hk].
    + apply (key_inj _ (height g)) in Hk as [<- <-]; try done.
      by rewrite lookup_insert_eq.
    + rewrite lookup_insert_ne in Hab by done.
      rewrite lookup_insert_ne by done. by apply Hok.
Qed.

(** *** The loops of [BoldlyGo] *)

Lemma buffered_rule_step g x y s :
  wf g -> inside g x y = true -> BufferedPass.rule_progress g y x s ->
  exists s',
    (let '(grid, changedCells) := s in
     '(grid, lifeformCount) ← scanForLifeforms grid x y;
     currentState ← Rows.read (cells grid) x y;
     let newState := nextState currentState lifeformCount in
     buffer' ← Rows.write (buffer grid) x y newState;
     let changedCells :=
       if negb (currentState =? newState)
       then <[getCacheKey grid x y := true]> changedCells
       else changedCells in
     Some (mkGrid (width grid) (height grid) (cells grid) buffer'
             (neighborCache grid) (cacheValid grid),
           changedCells)) = Some s' /\
    BufferedPass.rule_progress g y (x + 1) s'.
Proof.
  intros Hwf Hin. destruct s as [t ch].
  intros ((Hw & Hh & Hc) & Hbuf & Hok & Hkeys & Hdone). simpl in *.
  assert (wf t) as Hwft.
  { destruct Hwf as (? & ? & ? & ? & ?). unfold wf.
    rewrite Hw, Hh, Hc. by split_and!. }
  assert (inside t x y = true) as Hint by (unfold inside; by rewrite Hw, Hh).
  destruct (buffered_scan t x y Hwft Hok Hint) as (counts & valid & -> & Hok').
  assert (fresh t x y = fresh g x y) as ->.
  { unfold fresh, value. by rewrite Hw, Hh, Hc. }
  rewrite Hw, Hh, Hc in *. simpl.
  destruct Hwf as (Hiw & Hih & Hfit & Hrows & _).
  destruct (read_value _ _ _ x y Hrows Hin) as [-> Hbyte]. simpl.
  fold (value g x y) in *.
  set (new := nextState (value g x y) (fresh g x y)).
  assert (is_byte new) as Hnew by (by apply (nextState_byte (value g x y))).
  destruct (write_inside _ _ _ x y new Hbuf Hin Hnew)
    as (buffer' & -> & Hbuf' & Hread & Hrest). simpl.
  eexists. split; [done|]. unfold BufferedPass.rule_progress. simpl.
  split; [done|]. split; [done|]. split; [exact Hok'|]. split.
  - intros k Hk. destruct (negb _); [|by apply Hkeys].
    unfold getCacheKey in Hk. simpl in Hk.
    destruct (decide (k = add (mul y (width g)) x)) as [->|Hne].
    + by exists x, y.
    + rewrite lookup_insert_ne in Hk by done. by apply Hkeys.
  - intros x' y' Hin' Hbefore.
    destruct (decide ((x', y') = (x, y))) as [[= -> ->]|Hne].
    + split.
      * unfold RowsShape.value. unfold inside in Hin. by rewrite Hin, Hread.
      * fold new. intros Hch.
        destruct (Z.eqb_spec (value g x y) new) as [Heq|_]; [congruence|].
        simpl. apply lookup_insert_eq.
    + assert (y' < y \/ y' = y /\ x' < x) as Hb.
      { destruct Hbefore as [?|[-> ?]]; [by left|right].
        split; [done|]. assert (x' <> x) by congruence. lia. }
      destruct (Hdone x' y' Hin' Hb) as [Hval Hch]. split.
      * rewrite <-Hval. by apply value_write with (x := x) (y := y).
      * intros Hne'. specialize (Hch Hne').
        destruct (negb _); [|done].
        unfold getCacheKey in *. simpl.
        destruct (decide (add (mul y (width g)) x = add (mul y' (width g)) x'))
          as [->|Hk]; [apply lookup_insert_eq|].
        by rewrite lookup_insert_ne.
Qed.

Lemma buffered_rulePass g :
  wf g -> cache_ok g ->
  exists s, rulePass g = Some s /\
    BufferedPass.rule_progress g (height g) 0 s.
Proof.
  intros Hwf Hok. unfold rulePass.
  assert (Slice.len (cells g) = height g) as -> by apply Hwf.
  destruct (for_up_invariant_max
    (fun y => BufferedPass.rule_progress g y 0)
    (fun y s =>
       row ← Slice.index (cells s.1) y;
       Loop.for_up 0 (Slice.len row) (fun x '(grid, changedCells) =>
         '(grid, lifeformCount) ← scanForLifeforms grid x y;
         currentState ← Rows.read (cells grid) x y;
         let newState := nextState currentState lifeformCount in
         buffer' ← Rows.write (buffer grid) x y newState;
         let changedCells :=
           if negb (currentState =? newState)
           then <[getCacheKey grid x y := true]> changedCells
           else changedCells in
         Some (mkGrid (width grid) (height grid) (cells grid) buffer'
                 (neighborCache grid) (cacheValid grid),
               changedCells)) s)
    0 (height g) (g, ∅)) as (s & Hrun & Hs).
  - split; [done|]. split; [apply Hwf|]. split; [done|]. split.
    + intros k [v Hk]. simpl in Hk. by rewrite lookup_empty in Hk.
    + intros x' y' Hin%buffered_inside_spec. lia.
  - intros y s Hy Hs. pose proof Hs as ((_ & _ & Hc) & _). rewrite Hc.
    destruct (index_in_range (cells g) y) as [row Hrow].
    { by replace (Slice.len (cells g)) with (height g)
        by (symmetry; apply Hwf). }
    rewrite Hrow. simpl. apply index_Some in Hrow as [_ Hrow].
    destruct Hwf as (Hiw & Hih & Hfit & Hrows & Hbuf).
    destruct (wf_row _ _ _ _ _ Hrows Hrow) as [-> _].
    destruct (for_up_invariant_max (BufferedPass.rule_progress g y)
      (fun x '(grid, changedCells) =>
         '(grid, lifeformCount) ← scanForLifeforms grid x y;
         currentState ← Rows.read (cells grid) x y;
         let newState := nextState currentState lifeformCount in
         buffer' ← Rows.write (buffer grid) x y newState;
         let changedCells :=
           if negb (currentState =? newState)
           then <[getCacheKey grid x y := true]> changedCells
           else changedCells in
         Some (mkGrid (width grid) (height grid) (cells grid) buffer'
                 (neighborCache grid) (cacheValid grid),
               changedCells))
      0 (width g) s Hs) as (s' & Hrun & Hs').
    + intros x t Hx Ht.
      destruct (buffered_rule_step g x y t) as (t' & Hstep & Ht'); try done.
      { apply buffered_inside_spec. lia. }
      exists t'. split; [|done]. by destruct t.
    + exists s'. split; [done|].
      destruct Hs' as ((? & ? & ?) & ? & ? & ? & Hdone).
      unfold BufferedPass.rule_progress. split_and!; try done.
      intros x' y' Hin' Hb. apply Hdone; [done|].
      apply buffered_inside_spec in Hin'. lia.
  - exists s. split; [done|].
    destruct Hs as ((? & ? & ?) & ? & ? & ? & Hdone).
    unfold BufferedPass.rule_progress. split_and!; try done.
    intros x' y' Hin' Hb. apply Hdone; [done|].
    apply buffered_inside_spec in Hin'. lia.
Qed.

Lemma existsb_perm {A} (f : A -> bool) l1 l2 :
  l1 ≡ₚ l2 -> existsb f l1 = existsb f l2.
Proof.
  induction 1 as [|a l1 l2 _ IH|a b l|l1 l2 l3 _ IH1 _ IH2]; simpl.
  - done.
  - by rewrite IH.
  - by rewrite !orb_assoc, (orb_comm (f b)).
  - by rewrite IH1.
Qed.

Lemma existsb_elem {A} (f : A -> bool) l a :
  a ∈ l -> f a = true -> existsb f l = true.
Proof.
  intros Ha%list_elem_of_In Hf. apply existsb_exists. by exists a.
Qed.

Lemma yields_elem order (m : gmap Z bool) k :
  yields_keys order -> k ∈ order m <-> is_Some (m !! k).
Proof.
  intros Hord. rewrite (Hord m), list_elem_of_fmap. split.
  - intros ([k' v] & -> & Hkv%elem_of_map_to_list). by exists v.
  - intros [v Hv]. exists (k, v). split; [done|].
    by apply elem_of_map_to_list.
Qed.

(** What [BoldlyGo] leaves: the rows swapped, the counts of the rule
    pass, and the flags of that pass without those around a changed
    cell. *)
Lemma buffered_BoldlyGo_run order g :
  yields_keys order -> wf g -> cache_ok g ->
  exists t ch valid',
    rulePass g = Some (t, ch) /\
    BufferedPass.rule_progress g (height g) 0 (t, ch) /\
    BoldlyGo order g
    = Some (mkGrid (width g) (height g) (buffer t) (cells g)
              (neighborCache t) valid') /\
    forall k, valid' !! k
      = if covered (width g) (height g) (order ch) k then Some false
        else cacheValid t !! k.
Proof.
  intros Hord Hwf Hok.
  destruct (buffered_rulePass g Hwf Hok) as ([t ch] & Hrun & Hs).
  pose proof Hs as ((Hw & Hh & Hc) & _ & _ & Hkeys & _). simpl in *.
  destruct Hwf as (Hiw & Hih & Hfit & _).
  destruct (invalidateChanged_flags (width g) (height g) (buffer t) (cells g)
    (neighborCache t) (order ch) (cacheValid t) Hiw Hih Hfit)
    as (valid' & Hinv & Hflags).
  { intros k Hk%(yields_elem order ch k Hord). by apply Hkeys. }
  exists t, ch, valid'. split; [done|]. split; [done|]. split; [|done].
  unfold BoldlyGo. rewrite Hrun. simpl. unfold swapBuffers.
  rewrite Hw, Hh, Hc, Hinv. simpl. apply prepopulate_skips.
Qed.

(** The next generation, and the cache after it. *)
Lemma buffered_BoldlyGo order g :
  yields_keys order -> wf g -> cache_ok g ->
  exists g', BoldlyGo order g = Some g' /\ wf g' /\ cache_ok g' /\
    width g' = width g /\ height g' = height g /\ buffer g' = cells g /\
    forall x y, inside g x y = true ->
      value g' x y = nextState (value g x y) (fresh g x y).
Proof.
  intros Hord Hwf Hok.
  destruct (buffered_BoldlyGo_run order g Hord Hwf Hok)
    as (t & ch & valid' & _ & Hs & -> & Hflags).
  destruct Hs as ((Hw & Hh & Hc) & Hbuf & Hokt & Hkeys & Hdone).
  simpl in *. eexists. split; [done|].
  assert (forall x y, inside g x y = true ->
    RowsShape.value (width g) (height g) (buffer t) x y
    = nextState (value g x y) (fresh g x y) /\
    (nextState (value g x y) (fresh g x y) <> value g x y ->
     ch !! getCacheKey g x y = Some true)) as Hnext.
  { intros x y Hin. apply Hdone; [done|].
    apply buffered_inside_spec in Hin. lia. }
  pose proof Hwf as (Hiw & Hih & Hfit & Hrows & _).
  split; [by unfold wf|]. split; [|split_and!; try done].
  - intros a b Hin Hvalid. unfold inside, getCacheKey in *. simpl in *.
    rewrite Hflags in Hvalid.
    destruct (covered _ _ _ _) eqn:Hcov; [done|].
    assert (default 0 (neighborCache t !! add (mul b (width g)) a)
            = fresh g a b) as ->.
    { specialize (Hokt a b). unfold inside, getCacheKey, fresh, value in Hokt.
      rewrite Hw, Hh, Hc in Hokt. by apply Hokt. }
    symmetry. apply buffered_fresh_ext; [done..|].
    intros p Hp. unfold value at 1. simpl.
    destruct (Rows.inside (width g) (height g) p.1 p.2) eqn:Hinp.
    2:{ unfold value, RowsShape.value. by rewrite Hinp. }
    destruct (Hnext p.1 p.2 Hinp) as [-> Hch].
    destruct (decide (nextState (value g p.1 p.2) (fresh g p.1 p.2)
                      = value g p.1 p.2)) as [|Hne]; [done|].
    exfalso. specialize (Hch Hne).
    assert (covered (width g) (height g) (order ch)
              (add (mul b (width g)) a) = true) as Hcov'; [|congruence].
    unfold covered.
    apply (existsb_elem _ _ (getCacheKey g p.1 p.2)).
    { apply (yields_elem order ch _ Hord). unfold getCacheKey. by rewrite Hch. }
    destruct (key_decode _ _ _ _ Hiw Hfit Hinp) as [Hmod Hquo].
    unfold modulo, quo in Hmod, Hquo. unfold getCacheKey.
    destruct (width g =? 0); [done|].
    injection Hmod as ->. injection Hquo as ->.
    unfold near. apply (existsb_elem _ _ (a, b)).
    + apply moore_block. by destruct p.
    + simpl. rewrite Hin. simpl. apply Z.eqb_refl.
  - intros x y Hin. unfold value at 1. simpl. by apply Hnext.
Qed.

(** *** [NewGrid] and [SetCell] *)

Lemma buffered_NewGrid w h :
  0 <= h -> (0 < h -> 0 <= w) ->
  NewGrid w h
  = Some (mkGrid w h (replicate (Z.to_nat h) (replicate (Z.to_nat w) 0))
            (replicate (Z.to_nat h) (replicate (Z.to_nat w) 0)) ∅ ∅).
Proof.
  intros Hh Hw. unfold NewGrid. rewrite !(make_nonneg h) by done. simpl.
  unfold Slice.len. rewrite length_replicate, Z2Nat.id by done.
  set (row := replicate (Z.to_nat w) 0).
  match goal with
  | |- context [Loop.for_up 0 h ?body ?s0] =>
      destruct (for_up_invariant
        (fun i (s : list (list Z) * list (list Z)) =>
           (length s.1 = Z.to_nat h /\ length s.2 = Z.to_nat h) /\
           forall j : nat, Z.of_nat j < i ->
             s.1 !! j = Some row /\ s.2 !! j = Some row)
        body 0 h s0) as ([c b] & -> & [Hlc Hlb] & Hall)
  end.
  - done.
  - simpl. rewrite !length_replicate. split; [done|]. lia.
  - intros i [c b] Hi [[Hlc Hlb] Hall]. simpl in *.
    rewrite !(make_nonneg w) by lia. simpl.
    rewrite !assign_in_range by (unfold Slice.len; lia). simpl.
    eexists. split; [done|]. simpl. rewrite !length_insert.
    split; [done|]. intros j Hj.
    destruct (decide (j = Z.to_nat i)) as [->|Hne].
    + rewrite !list_lookup_insert_eq by lia. done.
    + rewrite !list_lookup_insert_ne by done. apply Hall. lia.
  - simpl in *. do 2 f_equal.
    + apply list_eq. intros j. destruct (decide (j < Z.to_nat h)%nat).
      * destruct (Hall j) as [-> _]; [lia|]. symmetry.
        by apply lookup_replicate_2.
      * rewrite !lookup_ge_None_2; [done|rewrite length_replicate; lia|lia].
    + apply list_eq. intros j. destruct (decide (j < Z.to_nat h)%nat).
      * destruct (Hall j) as [_ ->]; [lia|]. symmetry.
        by apply lookup_replicate_2.
      * rewrite !lookup_ge_None_2; [done|rewrite length_replicate; lia|lia].
Qed.

Lemma buffered_NewGrid_ok w h g :
  0 <= w < 2 ^ 63 -> 0 <= h < 2 ^ 63 -> w * h < 2 ^ 63 ->
  NewGrid w h = Some g -> wf g /\ cache_ok g.
Proof.
  intros Hw Hh Hfit. rewrite buffered_NewGrid by lia. intros [= <-].
  assert (RowsShape.wf w h (replicate (Z.to_nat h) (replicate (Z.to_nat w) 0)))
    as Hrows.
  { apply wf_alloc. apply alloc_nonneg; lia. }
  split.
  - unfold wf, is_int. simpl. split_and!; try done; lia.
  - intros x y _ Hvalid. simpl in Hvalid. by rewrite lookup_empty in Hvalid.
Qed.

Lemma buffered_SetCell g x y v :
  wf g -> cache_ok g -> is_byte v ->
  exists g', SetCell g x y v = Some g' /\ wf g' /\ cache_ok g' /\
    width g' = width g /\ height g' = height g /\
    forall a b, value g' a b
      = if inside g x y && bool_decide ((a, b) = (x, y)) then v
        else value g a b.
Proof.
  intros Hwf Hok Hv. unfold SetCell.
  destruct (inside g x y) eqn:Hin; [|by exists g].
  pose proof Hwf as (Hiw & Hih & Hfit & Hrows & Hbuf).
  destruct (read_value _ _ _ x y Hrows Hin) as [-> _]. simpl.
  destruct (write_inside _ _ _ x y v Hrows Hin Hv)
    as (cells' & -> & Hrows' & Hread & Hrest). simpl.
  set (g1 := mkGrid (width g) (height g) cells' (buffer g)
               (neighborCache g) (cacheValid g)).
  assert (wf g1) as Hwf1 by done.
  assert (forall a b, value g1 a b
    = if bool_decide ((a, b) = (x, y)) then v else value g a b) as Hval.
  { intros a b. case_bool_decide as Heq.
    - injection Heq as -> ->. unfold value, RowsShape.value. simpl.
      unfold inside in Hin. by rewrite Hin, Hread.
    - by apply (value_write _ _ _ _ x y). }
  fold (value g x y).
  destruct (Z.eqb_spec (value g x y) v) as [Heq|Hne]; simpl.
  - exists g1. split_and!; try done.
    intros a b Hina Hab.
    transitivity (fresh g a b); [exact (Hok a b Hina Hab)|]. symmetry.
    apply buffered_fresh_ext; try done. intros p _. rewrite Hval.
    case_bool_decide as Hp; [|done]. destruct p. by injection Hp as -> ->.
  - destruct (buffered_int_range g x y Hwf Hin) as (? & ? & ? & ?).
    rewrite buffered_invalidate_flags by done.
    eexists. split; [done|]. split_and!; try done.
    intros a b Hina Hab. unfold inside, getCacheKey in *.
    cbn [cacheValid neighborCache width height cells g1] in *.
    rewrite drop_all_flags in Hab.
    destruct (existsb _ _) eqn:Hnear; [done|].
    specialize (Hok a b Hina Hab). unfold getCacheKey in Hok.
    rewrite Hok. symmetry.
    apply (buffered_fresh_ext g g1); try done.
    intros [p q] Hp. simpl. rewrite Hval.
    case_bool_decide as Hpq; [|done]. exfalso.
    injection Hpq as -> ->. apply moore_block in Hp.
    rewrite (existsb_elem _ _ (a, b) Hp) in Hnear; [done|].
    simpl. rewrite Hina. simpl. apply Z.eqb_refl.
Qed.

Lemma buffered_reachable_sound g :
  BufferedPass.reachable g -> wf g /\ cache_ok g.
Proof.
  induction 1 as [w h g Hw Hh Hfit Hnew
                 |g x y v g' _ [Hwf Hok] Hv Hset
                 |order g g' _ [Hwf Hok] Hord Hgo].
  - by apply (buffered_NewGrid_ok w h).
  - destruct (buffered_SetCell g x y v Hwf Hok Hv) as (g'' & Hset' & ? & ? & _).
    by simplify_eq.
  - destruct (buffered_BoldlyGo order g Hord Hwf Hok)
      as (g'' & Hgo' & ? & ? & _).
    by simplify_eq.
Qed.

Lemma ascending_yields : yields_keys BufferedExamples.ascending.
Proof. intros m. done. Qed.

Lemma descending_yields : yields_keys BufferedExamples.descending.
Proof. intros m. apply reverse_Permutation. Qed.

Lemma buffered_blinker_wf : wf BufferedExamples.blinker.
Proof.
  unfold wf, is_int. simpl. split_and!; try lia.
  - apply blinker_rows_wf.
  - apply wf_alloc with (w := 5) (h := 5). by apply alloc_nonneg.
Qed.

Lemma empty_cache_ok w h c b : cache_ok (mkGrid w h c b ∅ ∅).
Proof. intros x y _ Hvalid. simpl in Hvalid. by rewrite lookup_empty in Hvalid. Qed.

End BufferedFacts.

(** X26. [BoldlyGo] of the double-buffered grid steps the grid in
    place: on a well-formed grid whose cache is right it never panics,
    whatever the order in which the runtime yields the changed cells;
    afterwards every cell holds what the rules make of its old state and
    its old neighbours, the buffer holds the old generation, the
    dimensions are unchanged and the cache is right for the new
    cells. *)
Theorem buffered_boldlygo_steps_in_place
    (order : gmap Z bool -> list Z) (g : Buffered.Grid) :
  BufferedShape.yields_keys order ->
  BufferedShape.wf g -> BufferedShape.cache_ok g ->
  exists g',
    Buffered.BoldlyGo order g = Some g' /\
    BufferedShape.wf g' /\ BufferedShape.cache_ok g' /\
    Buffered.width g' = Buffered.width g /\
    Buffered.height g' = Buffered.height g /\
    Buffered.buffer g' = Buffered.cells g /\
    forall x y, Buffered.inside g x y = true ->
      Buffered.GetCell g' x y
      = Some (Buffered.nextState (BufferedShape.value g x y)
                (Life.neighbor_sum (Buffered.width g) (Buffered.height g)
                   (BufferedShape.value g) x y)).
Proof.
  intros Hord Hwf Hok.
  destruct (buffered_BoldlyGo order g Hord Hwf Hok)
    as (g' & Hgo & Hwf' & Hok' & Hw & Hh & Hb & Hcells).
  exists g'. split_and!; try done.
  intros x y Hin. specialize (Hcells x y Hin).
  unfold BufferedShape.fresh in Hcells. rewrite <-Hcells.
  unfold Buffered.GetCell, Buffered.inside in *. rewrite Hw, Hh, Hin.
  destruct Hwf' as (_ & _ & _ & Hrows & _). rewrite Hw, Hh in Hrows.
  destruct (read_value _ _ _ x y Hrows Hin) as [-> _].
  unfold BufferedShape.value. by rewrite Hw, Hh.
Qed.

Lemma buffered_boldlygo_steps_in_place_witness :
  BufferedShape.yields_keys BufferedExamples.ascending /\
  BufferedShape.wf BufferedExamples.blinker /\
  BufferedShape.cache_ok BufferedExamples.blinker /\
  exists g',
    Buffered.BoldlyGo BufferedExamples.ascending BufferedExamples.blinker
      = Some g' /\
    BufferedShape.wf g' /\ BufferedShape.cache_ok g' /\
    Buffered.width g' = Buffered.width BufferedExamples.blinker /\
    Buffered.height g' = Buffered.height BufferedExamples.blinker /\
    Buffered.buffer g' = Buffered.cells BufferedExamples.blinker /\
    forall x y, Buffered.inside BufferedExamples.blinker x y = true ->
      Buffered.GetCell g' x y
      = Some (Buffered.nextState
                (BufferedShape.value BufferedExamples.blinker x y)
                (Life.neighbor_sum
                   (Buffered.width BufferedExamples.blinker)
                   (Buffered.height BufferedExamples.blinker)
                   (BufferedShape.value BufferedExamples.blinker) x y)).
Proof.
  split; [apply ascending_yields|]. split; [apply buffered_blinker_wf|].
  split; [apply empty_cache_ok|].
  apply (buffered_boldlygo_steps_in_place BufferedExamples.ascending
           BufferedExamples.blinker).
  - apply ascending_yields.
  - apply buffered_blinker_wf.
  - apply empty_cache_ok.
Defined.

(** X27. The order in which [range] yields the keys of [changedCells]
    does not show: on a well-formed grid whose cache is right, [BoldlyGo]
    returns the same grid, caches included, for any two orders. *)
Theorem buffered_boldlygo_ignores_map_order
    (order1 order2 : gmap Z bool -> list Z) (g : Buffered.Grid) :
  BufferedShape.yields_keys order1 -> BufferedShape.yields_keys order2 ->
  BufferedShape.wf g -> BufferedShape.cache_ok g ->
  is_Some (Buffered.BoldlyGo order1 g) /\
  Buffered.BoldlyGo order1 g = Buffered.BoldlyGo order2 g.
Proof.
  intros Hord1 Hord2 Hwf Hok.
  destruct (buffered_BoldlyGo_run order1 g Hord1 Hwf Hok)
    as (t & ch & valid1 & Hrun & _ & Hgo1 & Hflags1).
  destruct (buffered_BoldlyGo_run order2 g Hord2 Hwf Hok)
    as (t' & ch' & valid2 & Hrun' & _ & Hgo2 & Hflags2).
  rewrite Hrun in Hrun'. injection Hrun' as <- <-.
  rewrite Hgo1, Hgo2. split; [done|]. do 2 f_equal.
  apply map_eq. intros k. rewrite Hflags1, Hflags2.
  unfold BufferedShape.covered.
  rewrite (existsb_perm _ (order1 ch) (order2 ch)); [done|].
  by rewrite (Hord1 ch), (Hord2 ch).
Qed.

Lemma buffered_boldlygo_ignores_map_order_witness :
  BufferedShape.yields_keys BufferedExamples.ascending /\
  BufferedShape.yields_keys BufferedExamples.descending /\
  BufferedShape.wf BufferedExamples.blinker /\
  BufferedShape.cache_ok BufferedExamples.blinker /\
  is_Some (Buffered.BoldlyGo BufferedExamples.ascending
             BufferedExamples.blinker) /\
  Buffered.BoldlyGo BufferedExamples.ascending BufferedExamples.blinker
  = Buffered.BoldlyGo BufferedExamples.descending BufferedExamples.blinker.
Proof.
  split; [apply ascending_yields|]. split; [apply descending_yields|].
  split; [apply buffered_blinker_wf|]. split; [apply empty_cache_ok|].
  apply (buffered_boldlygo_ignores_map_order BufferedExamples.ascending
           BufferedExamples.descending BufferedExamples.blinker).
  - apply ascending_yields.
  - apply descending_yields.
  - apply buffered_blinker_wf.
  - apply empty_cache_ok.
Defined.

(** X28. The integer cache key of the double-buffered grid identifies
    the cells of the grid and nothing more.  For a cell of a well-formed
    grid, [key % width] and [key / width] give the cell back without a
    panic, and no other cell of the grid has its key; but the coordinate
    one row down and one width to the left, which is outside of the
    grid, has the very same key. *)
Theorem buffered_keys_identify_cells_only
    (g : Buffered.Grid) (x y : Z) :
  BufferedShape.wf g -> Buffered.inside g x y = true ->
  Buffered.modulo (Buffered.getCacheKey g x y) (Buffered.width g) = Some x /\
  Buffered.quo (Buffered.getCacheKey g x y) (Buffered.width g) = Some y /\
  (forall x' y', Buffered.inside g x' y' = true ->
     Buffered.getCacheKey g x' y' = Buffered.getCacheKey g x y ->
     x' = x /\ y' = y) /\
  Buffered.inside g (x - Buffered.width g) (y + 1) = false /\
  Buffered.getCacheKey g (x - Buffered.width g) (y + 1)
  = Buffered.getCacheKey g x y.
Proof.
  intros (Hiw & Hih & Hfit & _) Hin.
  unfold Buffered.inside, Buffered.getCacheKey in *.
  destruct (key_decode _ _ _ _ Hiw Hfit Hin) as [Hmod Hquo].
  split; [done|]. split; [done|]. split.
  { intros x' y' Hin' Hk. by apply (key_inj _ _ _ _ _ _ Hiw Hfit Hin' Hin). }
  destruct (key_inside _ _ _ _ Hiw Hfit Hin) as [-> Hk].
  apply rows_inside_spec in Hin. split.
  - apply rows_inside_false. lia.
  - assert (0 <= (y + 1) * Buffered.width g
            <= Buffered.width g * Buffered.height g) by nia.
    rewrite mul_small by (unfold GoInt.is_int in *; lia).
    rewrite add_small by (unfold GoInt.is_int in *; lia). lia.
Qed.

Lemma buffered_keys_identify_cells_only_witness :
  BufferedShape.wf BufferedExamples.blinker /\
  Buffered.inside BufferedExamples.blinker 1 2 = true /\
  Buffered.modulo (Buffered.getCacheKey BufferedExamples.blinker 1 2)
    (Buffered.width BufferedExamples.blinker) = Some 1 /\
  Buffered.quo (Buffered.getCacheKey BufferedExamples.blinker 1 2)
    (Buffered.width BufferedExamples.blinker) = Some 2 /\
  (forall x' y', Buffered.inside BufferedExamples.blinker x' y' = true ->
     Buffered.getCacheKey BufferedExamples.blinker x' y'
     = Buffered.getCacheKey BufferedExamples.blinker 1 2 ->
     x' = 1 /\ y' = 2) /\
  Buffered.inside BufferedExamples.blinker
    (1 - Buffered.width BufferedExamples.blinker) (2 + 1) = false /\
  Buffered.getCacheKey BufferedExamples.blinker
    (1 - Buffered.width BufferedExamples.blinker) (2 + 1)
  = Buffered.getCacheKey BufferedExamples.blinker 1 2.
Proof.
  split; [apply buffered_blinker_wf|]. split; [reflexivity|].
  apply (buffered_keys_identify_cells_only BufferedExamples.blinker 1 2).
  - apply buffered_blinker_wf.
  - reflexivity.
Defined.

(** X29. Stepping in place and stepping into a new grid give the same
    cells: for the same well-formed rows and caches that start empty,
    [BoldlyGo] of the double-buffered grid and [BoldlyGo] of the grid
    with the string-keyed cache both return, and the rows of the stepped
    grid are the rows of the new grid. *)
Theorem buffered_agrees_with_cached
    (order : gmap Z bool -> list Z) (w h : Z)
    (cells buffer : list (list Z)) :
  BufferedShape.yields_keys order ->
  GoInt.is_int w -> GoInt.is_int h -> w * h < 2 ^ 63 ->
  RowsShape.wf w h cells -> RowsShape.wf w h buffer ->
  exists g' r next,
    Buffered.BoldlyGo order (Buffered.mkGrid w h cells buffer ∅ ∅)
      = Some g' /\
    Cached.BoldlyGo (Cached.mkGrid w h cells ∅ ∅) = Some (r, next) /\
    Buffered.cells g' = Cached.cells next.
Proof.
  intros Hord Hiw Hih Hfit Hrows Hbuf.
  assert (BufferedShape.wf (Buffered.mkGrid w h cells buffer ∅ ∅)) as Hwf
    by (unfold BufferedShape.wf; by split_and!).
  destruct (buffered_BoldlyGo order _ Hord Hwf (empty_cache_ok w h cells buffer))
    as (g' & Hgo & Hwf' & _ & Hw & Hh & _ & Hcells).
  assert (CachedShape.wf (Cached.mkGrid w h cells ∅ ∅)) as Hwfc
    by (unfold CachedShape.wf; by split_and!).
  destruct (cached_BoldlyGo _ Hwfc)
    as (r & next & Hgo' & _ & (Hwfn & Hwn & Hhn) & Hnext).
  destruct Hnext as (_ & _ & Hnext).
  { intros x y Hvalid. simpl in Hvalid. by rewrite lookup_empty in Hvalid. }
  exists g', r, next. split; [done|]. split; [done|]. simpl in *.
  destruct Hwf' as (_ & _ & _ & Hrows' & _). rewrite Hw, Hh in Hrows'.
  destruct Hwfn as (_ & _ & Hrowsn). rewrite Hwn, Hhn in Hrowsn.
  rewrite <-(table_rows w h _ Hrows'), <-(table_rows w h _ Hrowsn).
  apply table_ext. intros x y Hin.
  specialize (Hcells x y Hin). specialize (Hnext x y Hin).
  unfold BufferedShape.value, CachedShape.value in *.
  rewrite Hw, Hh in Hcells. rewrite Hwn, Hhn in Hnext.
  rewrite Hcells, Hnext. done.
Qed.

Lemma buffered_agrees_with_cached_witness :
  BufferedShape.yields_keys BufferedExamples.ascending /\
  GoInt.is_int 5 /\ GoInt.is_int 5 /\ 5 * 5 < 2 ^ 63 /\
  RowsShape.wf 5 5 Examples.blinker_rows /\
  RowsShape.wf 5 5 (replicate 5 (replicate 5 0)) /\
  exists g' r next,
    Buffered.BoldlyGo BufferedExamples.ascending
      (Buffered.mkGrid 5 5 Examples.blinker_rows
         (replicate 5 (replicate 5 0)) ∅ ∅) = Some g' /\
    Cached.BoldlyGo (Cached.mkGrid 5 5 Examples.blinker_rows ∅ ∅)
      = Some (r, next) /\
    Buffered.cells g' = Cached.cells next.
Proof.
  assert (GoInt.is_int 5) as Hi by (unfold GoInt.is_int; lia).
  pose proof buffered_blinker_wf as (_ & _ & _ & Hrows & Hbuf).
  split; [apply ascending_yields|]. split; [exact Hi|]. split; [exact Hi|].
  split; [lia|]. split; [exact Hrows|]. split; [exact Hbuf|].
  apply (buffered_agrees_with_cached BufferedExamples.ascending 5 5
           Examples.blinker_rows (replicate 5 (replicate 5 0)));
    [apply ascending_yields|exact Hi|exact Hi|lia|exact Hrows|exact Hbuf].
Defined.

(** X30. A program that makes a double-buffered grid with [NewGrid]
    (with a cell count that fits an [int]) and then calls [SetCell] and
    [BoldlyGo] in any order never panics and never reads a wrong count:
    every grid it can hold is well formed, each of the two calls
    returns on it, and [scanForLifeforms] at a cell of the grid returns
    the sum over the current neighbours, cached or not. *)
Theorem buffered_programs_stay_sound (g : Buffered.Grid) :
  BufferedPass.reachable g ->
  BufferedShape.wf g /\
  (forall x y v, GoInt.is_byte v -> is_Some (Buffered.SetCell g x y v)) /\
  (forall order, BufferedShape.yields_keys order ->
     is_Some (Buffered.BoldlyGo order g)) /\
  forall x y, Buffered.inside g x y = true ->
    exists g1,
      Buffered.scanForLifeforms g x y
      = Some (g1, Life.neighbor_sum (Buffered.width g) (Buffered.height g)
                    (BufferedShape.value g) x y).
Proof.
  intros [Hwf Hok]%buffered_reachable_sound. split; [done|]. split; [|split].
  - intros x y v Hv.
    by destruct (buffered_SetCell g x y v Hwf Hok Hv) as (g' & -> & _).
  - intros order Hord.
    by destruct (buffered_BoldlyGo order g Hord Hwf Hok) as (g' & -> & _).
  - intros x y Hin.
    destruct (buffered_scan g x y Hwf Hok Hin) as (counts & valid & -> & _).
    by eexists.
Qed.

Lemma buffered_programs_stay_sound_witness :
  BufferedPass.reachable
    (Buffered.mkGrid 5 5 (replicate 5 (replicate 5 0))
       (replicate 5 (replicate 5 0)) ∅ ∅) /\
  BufferedShape.wf
    (Buffered.mkGrid 5 5 (replicate 5 (replicate 5 0))
       (replicate 5 (replicate 5 0)) ∅ ∅) /\
  (forall x y v, GoInt.is_byte v ->
     is_Some (Buffered.SetCell
       (Buffered.mkGrid 5 5 (replicate 5 (replicate 5 0))
          (replicate 5 (replicate 5 0)) ∅ ∅) x y v)) /\
  (forall order, BufferedShape.yields_keys order ->
     is_Some (Buffered.BoldlyGo order
       (Buffered.mkGrid 5 5 (replicate 5 (replicate 5 0))
          (replicate 5 (replicate 5 0)) ∅ ∅))) /\
  forall x y,
    Buffered.inside
      (Buffered.mkGrid 5 5 (replicate 5 (replicate 5 0))
         (replicate 5 (replicate 5 0)) ∅ ∅) x y = true ->
    exists g1,
      Buffered.scanForLifeforms
        (Buffered.mkGrid 5 5 (replicate 5 (replicate 5 0))
           (replicate 5 (replicate 5 0)) ∅ ∅) x y
      = Some (g1, Life.neighbor_sum 5 5
                    (BufferedShape.value
                       (Buffered.mkGrid 5 5 (replicate 5 (replicate 5 0))
                          (replicate 5 (replicate 5 0)) ∅ ∅)) x y).
Proof.
  assert (BufferedPass.reachable
    (Buffered.mkGrid 5 5 (replicate 5 (replicate 5 0))
       (replicate 5 (replicate 5 0)) ∅ ∅)) as Hreach.
  { apply (BufferedPass.reach_NewGrid 5 5); [lia..|]. reflexivity. }
  split; [exact Hreach|].
  apply (buffered_programs_stay_sound _ Hreach).
Defined.
